(** * Keep It Cherry backend: the REST handlers and the catalog ingestion

    A shallow embedding of the Express handlers of the server (the full
    revision with the vehicles, service-history and catalog routes, and the
    older minimal revision), of the Postgres statements they issue, and of
    [getModelsForMakeYear] from the catalog generator, followed by the
    properties the specification states about them.  The server.js that
    follows importVehicles.js has the vehicle and catalog handlers of the
    full revision and reads the catalog from [vehicle_catalog_master].
    The development also covers the CSV-to-SQL converter (csv_to_sql.js)
    and the rest of the catalog generator that follows it in the same file.

    Conventions of the model.
    - A string is the sequence of its bytes in UTF-8.  On ASCII text
      [toLowerCase], [trim] and ILIKE are computed here; on any other text
      they are what the JavaScript engine and the database give, which the
      model takes as parameters ([Engine], [Collation]).
    - A JavaScript number is NaN, an integer of magnitude at most 2^53, or
      any other number (a fraction, a larger integer, an infinity), which is
      kept as the text [String] prints for it.  [Number] and [parseInt] are
      computed here on optionally signed decimal digits up to 2^53; on any
      other string they are the engine's.
    - [pool.query] is a function of the tables.  It throws when the statement
      is rejected (a value the column type cannot read, a row the table
      declaration refuses); losing the connection is not represented.
    - The declarations of [vehicles] and [service_history] are not among the
      sources.  Their [id] is read as the SERIAL column that RESTART IDENTITY
      and ORDER BY id point to, a 32-bit integer drawn from a sequence; what
      else the declarations accept is a parameter ([Schema]).
    - [created_at] is a column default read from the clock and is left out of
      the rows. *)

From Stdlib Require Import ZArith Ascii String List DecimalString DecimalPos Permutation Sorted Lia.
From stdpp Require Import base list strings gmap.

Set Warnings "-register-all".

Local Open Scope string_scope.
Local Open Scope Z_scope.

(** ** JavaScript values and the operators the handlers use *)

Module Js.

(** A number.  [Int z] stands for the integer [z] when its magnitude is at
    most 2^53: every such integer is a double, and [String] prints it as its
    decimal digits.  Any other number, a fraction, an integer beyond 2^53 or
    an infinity, is [Other] with the text [String] prints for it, as in
    [Other "0.5"], [Other "1e+21"] and [Other "Infinity"]. *)
Inductive JsNum : Type :=
| NaN
| Int (z : Z)
| Other (text : string).

Inductive JValue : Type :=
| JUndefined
| JNull
| JBool (b : bool)
| JNum (n : JsNum)
| JStr (s : string)
| JArr (items : list JValue)
| JObj (fields : list (string * JValue)).

Definition JInt (z : Z) : JValue := JNum (Int z).

(** [!!v] of JavaScript: everything but [undefined], [null], [false], [0],
    [NaN] and the empty string is truthy. *)
Definition truthy (v : JValue) : bool :=
  match v with
  | JUndefined | JNull => false
  | JBool b => b
  | JNum NaN => false
  | JNum (Int z) => negb (z =? 0)
  | JNum (Other _) => true
  | JStr s => negb (String.eqb s EmptyString)
  | JArr _ | JObj _ => true
  end.

(** [a ?? b] *)
Definition nullish (a b : JValue) : JValue :=
  match a with
  | JUndefined | JNull => b
  | _ => a
  end.

(** [a || b] *)
Definition or_else (a b : JValue) : JValue :=
  if truthy a then a else b.

(** [o.k] on a value that is neither [undefined] nor [null]; a key written
    twice in a JSON text keeps its last value. *)
Definition get (k : string) (o : JValue) : JValue :=
  match o with
  | JObj fields =>
      fold_left (fun acc kv => if String.eqb (fst kv) k then snd kv else acc)
                fields JUndefined
  | _ => JUndefined
  end.

(** [o?.k] *)
Definition opt_get (k : string) (o : JValue) : JValue :=
  match o with
  | JUndefined | JNull => JUndefined
  | _ => get k o
  end.

Definition show_Z (z : Z) : string := NilZero.string_of_int (Z.to_int z).

Definition join (sep : string) (parts : list string) : string :=
  match parts with
  | [] => EmptyString
  | p :: rest => fold_left (fun acc q => acc ++ sep ++ q) rest p
  end.

(** [String(v)] *)
Fixpoint String_ (v : JValue) : string :=
  match v with
  | JUndefined => "undefined"
  | JNull => "null"
  | JBool true => "true"
  | JBool false => "false"
  | JNum NaN => "NaN"
  | JNum (Int z) => show_Z z
  | JNum (Other text) => text
  | JStr s => s
  | JArr items =>
      join "," (map (fun x => match x with
                              | JUndefined | JNull => EmptyString
                              | _ => String_ x
                              end) items)
  | JObj _ => "[object Object]"
  end.

Definition is_digit (c : ascii) : bool :=
  let n := N_of_ascii c in ((48 <=? n) && (n <=? 57))%N.

(** [s.replace(/[^\d]/g, '')]: every character that is not a decimal digit
    is removed. *)
Fixpoint keep_digits (s : string) : string :=
  match s with
  | EmptyString => EmptyString
  | String c rest =>
      if is_digit c then String c (keep_digits rest) else keep_digits rest
  end.

Fixpoint all_digits (s : string) : bool :=
  match s with
  | EmptyString => true
  | String c rest => is_digit c && all_digits rest
  end.

Definition digit_value (c : ascii) : Z := Z.of_N (N_of_ascii c) - 48.

Fixpoint digits_value_from (acc : Z) (s : string) : Z :=
  match s with
  | EmptyString => acc
  | String c rest => digits_value_from (10 * acc + digit_value c) rest
  end.

(** The number a string of decimal digits denotes; 0 for the empty string. *)
Definition digits_value (s : string) : Z := digits_value_from 0 s.

(** The integers up to 2^53 in magnitude: each is a double, so reading its
    digits rounds nothing. *)
Definition safe (z : Z) : bool := Z.abs z <=? 9007199254740992.



Definition is_ascii_char (c : ascii) : bool := (N_of_ascii c <? 128)%N.

Fixpoint is_ascii (s : string) : bool :=
  match s with
  | EmptyString => true
  | String c rest => is_ascii_char c && is_ascii rest
  end.

(** The white space of ASCII: TAB, LF, VT, FF, CR and SPACE. *)
Definition is_space (c : ascii) : bool :=
  let n := N_of_ascii c in (((9 <=? n) && (n <=? 13)) || (n =? 32))%N.

Fixpoint trim_start (s : string) : string :=
  match s with
  | EmptyString => EmptyString
  | String c rest => if is_space c then trim_start rest else s
  end.

Fixpoint trim_end (s : string) : string :=
  match s with
  | EmptyString => EmptyString
  | String c rest =>
      match trim_end rest with
      | EmptyString => if is_space c then EmptyString else String c EmptyString
      | kept => String c kept
      end
  end.

(** [s.trim()] on ASCII text. *)
Definition ascii_trim (s : string) : string := trim_end (trim_start s).

Definition lower_char (c : ascii) : ascii :=
  let n := N_of_ascii c in
  if ((65 <=? n) && (n <=? 90))%N then ascii_of_N (n + 32) else c.

(** [s.toLowerCase()] on ASCII text. *)
Fixpoint ascii_lower (s : string) : string :=
  match s with
  | EmptyString => EmptyString
  | String c rest => String (lower_char c) (ascii_lower rest)
  end.

(** [isNaN(n)] *)
Definition isNaN (n : JsNum) : bool :=
  match n with
  | NaN => true
  | Int _ | Other _ => false
  end.

(** [Number.isFinite(n)] *)
Definition isFinite (n : JsNum) : bool :=
  match n with
  | NaN => false
  | Int _ => true
  | Other text => negb (String.eqb text "Infinity") && negb (String.eqb text "-Infinity")
  end.

(** What the JavaScript engine does where the model does not compute it:
    [Number] and [parseInt] on a string that is not an optionally signed run
    of decimal digits of value up to 2^53 (a fraction, an exponent, a radix
    prefix, [Infinity], a longer run of digits, which is rounded to a double,
    white space that is not ASCII, text that is no number), and
    [toLowerCase] and [trim] on text that is not ASCII.  A run of decimal
    digits always reads as a number. *)
Class Engine : Type := {
  Number_other : string -> JsNum;
  parseInt_other : string -> JsNum;
  toLowerCase_other : string -> string;
  trim_other : string -> string;
  Number_other_digits : forall s, all_digits s = true -> isNaN (Number_other s) = false
}.

Section Builtins.
Context `{Engine}.

(** [s.trim()] *)
Definition trim (s : string) : string :=
  if is_ascii s then ascii_trim s else trim_other s.

(** [s.toLowerCase()] *)
Definition toLowerCase (s : string) : string :=
  if is_ascii s then ascii_lower s else toLowerCase_other s.

(** The number an optionally signed run of digits [ds] denotes, read from
    the string [s]. *)
Definition signed_digits (sign : Z) (ds : string) (s : string) : JsNum :=
  if all_digits ds && negb (String.eqb ds EmptyString) && safe (digits_value ds)
  then Int (sign * digits_value ds)
  else Number_other s.

(** [Number(s)] on a string: with the ASCII white space around it stripped,
    the empty string is 0 and an optionally signed run of decimal digits is
    its value. *)
Definition Number_of_string (s : string) : JsNum :=
  match ascii_trim s with
  | EmptyString => Int 0
  | String c ds =>
      if Ascii.eqb c "-" then signed_digits (-1) ds s
      else if Ascii.eqb c "+" then signed_digits 1 ds s
      else signed_digits 1 (String c ds) s
  end.

(** [Number(v)] *)
Definition Number (v : JValue) : JsNum :=
  match v with
  | JUndefined => NaN
  | JNull => Int 0
  | JBool true => Int 1
  | JBool false => Int 0
  | JNum n => n
  | JStr s => Number_of_string s
  | JArr _ => Number_of_string (String_ v)
  | JObj _ => NaN
  end.

End Builtins.

End Js.

Import Js.

(** ** Rows of the three tables *)

(** A cell of [vehicles] or [service_history] holds the value the handler
    bound to it: the declarations of these two tables are not among the
    sources, so the model has no column type to re-read the value with.  The
    properties below rely on a cell only for a number bound to [mileage],
    for NULL, and for the identifier. *)
Module Vehicle.
Record t : Type := mk {
  id : Z;
  year : JValue;
  make : JValue;
  model : JValue;
  mileage : JValue
}.

Definition json (r : t) : JValue :=
  JObj [("id", JInt (id r)); ("year", year r); ("make", make r);
        ("model", model r); ("mileage", mileage r)].
End Vehicle.

Module Service.
Record t : Type := mk {
  id : Z;
  vehicle_id : JValue;
  service_name : JValue;
  mileage : JValue;
  interval : JValue;
  service_date : JValue;
  cost : JValue;
  notes : JValue
}.

Definition json (r : t) : JValue :=
  JObj [("id", JInt (id r)); ("vehicle_id", vehicle_id r);
        ("service_name", service_name r); ("mileage", mileage r);
        ("interval", interval r); ("service_date", service_date r);
        ("cost", cost r); ("notes", notes r)].
End Service.

(** [vehicle_catalog] as csv_to_sql.js declares it: [year INT] and five
    [TEXT] columns, all of them nullable. *)
Module CatalogRow.
Record t : Type := mk {
  year : option Z;
  make : option string;
  model : option string;
  trim : option string;
  engine : option string;
  transmission : option string
}.

Definition json_int (c : option Z) : JValue :=
  match c with Some z => JInt z | None => JNull end.

Definition json_text (c : option string) : JValue :=
  match c with Some s => JStr s | None => JNull end.

Definition json (r : t) : JValue :=
  JObj [("year", json_int (year r)); ("make", json_text (make r));
        ("model", json_text (model r)); ("trim", json_text (trim r));
        ("engine", json_text (engine r));
        ("transmission", json_text (transmission r))].
End CatalogRow.

(** What the declarations of [vehicles] and [service_history] accept: column
    types, NOT NULL and the other constraints.  A row they refuse makes the
    statement throw.  [cascade_to_service_history] says whether
    [service_history] references [vehicles] by a foreign key, so that
    TRUNCATE ... CASCADE on [vehicles] reaches it.  [int4_other] is how the
    server reads as a 32-bit integer a text that is not an optionally signed
    run of decimal digits (from version 16 on Postgres also reads radix
    prefixes and underscores). *)
Class Schema : Type := {
  vehicle_ok : Vehicle.t -> bool;
  service_ok : Service.t -> bool;
  cascade_to_service_history : bool;
  int4_other : string -> option Z
}.

(** The collation of the database orders text; any deterministic collation
    compares antisymmetrically.  [ilike_other] is ILIKE on text that is not
    ASCII, where the folding and the characters [_] stands for depend on the
    locale and the encoding of the database. *)
Class Collation : Type := {
  text_cmp : string -> string -> comparison;
  text_cmp_antisym : forall a b, text_cmp b a = CompOpp (text_cmp a b);
  ilike_other : string -> string -> bool
}.

(** ** The store and the statements *)

Module Pg.

Record Db : Type := mkDb {
  vehicles : list Vehicle.t;
  vehicles_id_seq : Z;
  service_history : list Service.t;
  service_history_id_seq : Z;
  vehicle_catalog : list CatalogRow.t
}.

(** A call that may throw. *)
Inductive Outcome (A : Type) : Type :=
| Threw
| Returned (a : A).
Arguments Threw {A}.
Arguments Returned {A} a.

(** The result object of [pool.query]. *)
Record Result (R : Type) : Type := mkResult {
  rows : list R;
  rowCount : nat
}.
Arguments mkResult {R} rows rowCount.
Arguments rows {R} r.
Arguments rowCount {R} r.

(** node-postgres sends [undefined] as NULL. *)
Definition bind (v : JValue) : JValue :=
  match v with
  | JUndefined => JNull
  | _ => v
  end.

(** [c::text] *)
Definition cast_text (c : JValue) : JValue :=
  match c with
  | JNull => JNull
  | _ => JStr (String_ c)
  end.

(** [id, year, make, model, mileage::text, created_at] *)
Definition mileage_as_text (r : Vehicle.t) : Vehicle.t :=
  Vehicle.mk (Vehicle.id r) (Vehicle.year r) (Vehicle.make r) (Vehicle.model r)
             (cast_text (Vehicle.mileage r)).

(** [*] *)
Definition star {R : Type} (r : R) : R := r.

Section OrderBy.
Context {A : Type} (leb : A -> A -> bool).

Fixpoint insert_sorted (x : A) (l : list A) : list A :=
    match l with
    | [] => [x]
    | y :: rest => if leb x y then x :: l else y :: insert_sorted x rest
    end.

  (** ORDER BY: rows that tie keep the order of the scan. *)
Definition order_by (l : list A) : list A := fold_right insert_sorted [] l.
End OrderBy.

Definition id_desc (a b : Vehicle.t) : bool := Vehicle.id b <=? Vehicle.id a.

Definition has_id (i : Z) (r : Vehicle.t) : bool := Vehicle.id r =? i.

(** The 32-bit integers. *)
Definition in_int4 (z : Z) : bool := (-2147483648 <=? z) && (z <=? 2147483647).

Section Statements.
Context `{Schema}.

Definition int4_digits (sign : Z) (ds : string) (s : string) : option Z :=
  if all_digits ds && negb (String.eqb ds EmptyString) then
    if in_int4 (sign * digits_value ds) then Some (sign * digits_value ds) else None
  else int4_other s.

(** How an INT column reads the text of a parameter: white space around an
    optionally signed run of decimal digits, which must denote a 32-bit
    integer.  [None] is the error that rejects the statement. *)
Definition int4_text (s : string) : option Z :=
  match ascii_trim s with
  | EmptyString => None
  | String c ds =>
      if Ascii.eqb c "-" then int4_digits (-1) ds s
      else if Ascii.eqb c "+" then int4_digits 1 ds s
      else int4_digits 1 (String c ds) s
  end.

  (** INSERT INTO vehicles (year, make, model, mileage)
      VALUES ($1, $2, $3, $4) RETURNING ...; the identifier is the next
      value of the sequence, which the statement cannot draw beyond the
      32-bit integers. *)
Definition insert_vehicle (returning : Vehicle.t -> Vehicle.t)
      (p1 p2 p3 p4 : JValue) (db : Db) : Outcome (Result Vehicle.t * Db) :=
    let r := Vehicle.mk (vehicles_id_seq db) (bind p1) (bind p2) (bind p3) (bind p4) in
    if vehicle_ok r && in_int4 (Vehicle.id r) then
      Returned (mkResult [returning r] 1,
                mkDb (vehicles db ++ [r]) (vehicles_id_seq db + 1)
                     (service_history db) (service_history_id_seq db)
                     (vehicle_catalog db))
    else Threw.

Definition set_mileage (p1 : JValue) (i : Z) (r : Vehicle.t) : Vehicle.t :=
    if has_id i r
    then Vehicle.mk (Vehicle.id r) (Vehicle.year r) (Vehicle.make r) (Vehicle.model r) (bind p1)
    else r.

  (** UPDATE vehicles SET mileage = $1 WHERE id = $2 RETURNING ...; [$2] is
      the path segment, which the [id] column has to read.  The model keeps
      an updated row at its place in the scan, which Postgres does not
      promise. *)
Definition update_mileage (returning : Vehicle.t -> Vehicle.t)
      (p1 : JValue) (p2 : string) (db : Db) : Outcome (Result Vehicle.t * Db) :=
    match int4_text p2 with
    | None => Threw
    | Some i =>
        let table := map (set_mileage p1 i) (vehicles db) in
        let hit := List.filter (has_id i) table in
        if forallb vehicle_ok hit then
          Returned (mkResult (map returning hit) (length hit),
                    mkDb table (vehicles_id_seq db)
                         (service_history db) (service_history_id_seq db)
                         (vehicle_catalog db))
        else Threw
    end.

(** DELETE FROM vehicles WHERE id = $1 *)
Definition delete_vehicle_row (p1 : string) (db : Db) : Outcome (Result Vehicle.t * Db) :=
  match int4_text p1 with
  | None => Threw
  | Some i =>
      let gone := List.filter (has_id i) (vehicles db) in
      let kept := List.filter (fun r => negb (has_id i r)) (vehicles db) in
      Returned (mkResult [] (length gone),
                mkDb kept (vehicles_id_seq db)
                     (service_history db) (service_history_id_seq db)
                     (vehicle_catalog db))
  end.

(** TRUNCATE TABLE vehicles RESTART IDENTITY CASCADE.  CASCADE reaches the
    tables that reference [vehicles] by a foreign key, and RESTART IDENTITY
    restarts their sequences too. *)
Definition truncate_vehicles (db : Db) : Outcome (Result Vehicle.t * Db) :=
  Returned (mkResult [] 0,
            if cascade_to_service_history
            then mkDb [] 1 [] 1 (vehicle_catalog db)
            else mkDb [] 1 (service_history db) (service_history_id_seq db)
                      (vehicle_catalog db)).
End Statements.

(** SELECT ... FROM vehicles ORDER BY id DESC *)
Definition select_vehicles_newest_first (returning : Vehicle.t -> Vehicle.t)
    (db : Db) : Outcome (Result Vehicle.t * Db) :=
  let out := map returning (order_by id_desc (vehicles db)) in
  Returned (mkResult out (length out), db).

(** SELECT * FROM vehicles: no order is asked for, the rows come as the scan
    finds them. *)
Definition select_vehicles (db : Db) : Outcome (Result Vehicle.t * Db) :=
  Returned (mkResult (vehicles db) (length (vehicles db)), db).

Definition has_service_id (i : Z) (r : Service.t) : bool := Service.id r =? i.

Section ServiceStatements.
Context `{Schema}.

(** INSERT INTO service_history (vehicle_id, service_name, mileage, interval,
    service_date, cost, notes) VALUES ($1, ..., $7) RETURNING * *)
Definition insert_service (p1 p2 p3 p4 p5 p6 p7 : JValue) (db : Db)
    : Outcome (Result Service.t * Db) :=
  let r := Service.mk (service_history_id_seq db) (bind p1) (bind p2) (bind p3)
                      (bind p4) (bind p5) (bind p6) (bind p7) in
  if service_ok r && in_int4 (Service.id r) then
    Returned (mkResult [star r] 1,
              mkDb (vehicles db) (vehicles_id_seq db)
                   (service_history db ++ [r]) (service_history_id_seq db + 1)
                   (vehicle_catalog db))
  else Threw.

(** DELETE FROM service_history WHERE id = $1 *)
Definition delete_service_row (p1 : string) (db : Db) : Outcome (Result Service.t * Db) :=
  match int4_text p1 with
  | None => Threw
  | Some i =>
      let gone := List.filter (has_service_id i) (service_history db) in
      let kept := List.filter (fun r => negb (has_service_id i r)) (service_history db) in
      Returned (mkResult [] (length gone),
                mkDb (vehicles db) (vehicles_id_seq db)
                     kept (service_history_id_seq db)
                     (vehicle_catalog db))
  end.
End ServiceStatements.

(** TRUNCATE TABLE service_history RESTART IDENTITY CASCADE; no table of the
    server references [service_history]. *)
Definition truncate_service_history (db : Db) : Outcome (Result Service.t * Db) :=
  Returned (mkResult [] 0,
            mkDb (vehicles db) (vehicles_id_seq db) [] 1 (vehicle_catalog db)).

(** *** The catalog query *)

Definition backslash : ascii := ascii_of_N 92.

(** [text LIKE pattern] of Postgres on ASCII text, where a character is a
    byte: [%] stands for any run of characters, [_] for any one character,
    and a backslash takes the next character of the pattern literally.  A
    pattern that ends in a lone backslash is an error in Postgres; the
    patterns of the catalog query end in [%], so the matcher never reaches
    that case, and it answers [false] there. *)
Fixpoint like (pattern text : string) {struct pattern} : bool :=
  match pattern with
  | EmptyString =>
      match text with EmptyString => true | String _ _ => false end
  | String p pattern' =>
      if Ascii.eqb p "%" then
        (fix skip (t : string) : bool :=
           like pattern' t ||
           match t with
           | EmptyString => false
           | String _ t' => skip t'
           end) text
      else if Ascii.eqb p "_" then
        match text with
        | EmptyString => false
        | String _ text' => like pattern' text'
        end
      else if Ascii.eqb p backslash then
        match pattern' with
        | EmptyString => false
        | String q pattern'' =>
            match text with
            | EmptyString => false
            | String c text' => Ascii.eqb q c && like pattern'' text'
            end
        end
      else
        match text with
        | EmptyString => false
        | String c text' => Ascii.eqb p c && like pattern' text'
        end
  end.

(** [text ILIKE pattern] on ASCII text: LIKE on the lower-cased text and
    pattern. *)
Definition ascii_ilike (text pattern : string) : bool :=
  like (ascii_lower pattern) (ascii_lower text).

(** The conditions the handler pushes, each with the value bound to its
    placeholder. *)
Inductive Condition : Type :=
| YearEq (p : JsNum)
| MakeILike (p : string)
| ModelILike (p : string).

(** An [INT] column reads a number bound to a parameter as a 32-bit integer
    or rejects it: NaN, a fraction, an infinity and an integer beyond 32
    bits are rejected. *)
Definition int4_in (p : JsNum) : option Z :=
  match p with
  | NaN | Other _ => None
  | Int z => if in_int4 z then Some z else None
  end.

Definition well_typed (c : Condition) : bool :=
  match c with
  | YearEq p => match int4_in p with Some _ => true | None => false end
  | MakeILike _ | ModelILike _ => true
  end.

Definition then_by (c1 c2 : comparison) : comparison :=
  match c1 with
  | Eq => c2
  | _ => c1
  end.

(** DESC puts NULL first. *)
Definition cmp_int_desc (a b : option Z) : comparison :=
  match a, b with
  | None, None => Eq
  | None, Some _ => Lt
  | Some _, None => Gt
  | Some x, Some y => Z.compare y x
  end.

Section CatalogOrder.
Context `{Collation}.

(** [text ILIKE pattern] *)
Definition ilike (text pattern : string) : bool :=
  if is_ascii text && is_ascii pattern then ascii_ilike text pattern
  else ilike_other text pattern.

(** A comparison with NULL is not true. *)
Definition holds (r : CatalogRow.t) (c : Condition) : bool :=
  match c with
  | YearEq p =>
      match int4_in p, CatalogRow.year r with
      | Some z, Some y => y =? z
      | _, _ => false
      end
  | MakeILike p =>
      match CatalogRow.make r with
      | Some text => ilike text p
      | None => false
      end
  | ModelILike p =>
      match CatalogRow.model r with
      | Some text => ilike text p
      | None => false
      end
  end.

(** [conditions.join(" AND ")]; no WHERE clause when there is no condition. *)
Definition where_ (conditions : list Condition) (r : CatalogRow.t) : bool :=
  forallb (holds r) conditions.

(** ASC puts NULL last. *)
Definition cmp_text_asc (a b : option string) : comparison :=
  match a, b with
  | None, None => Eq
  | None, Some _ => Gt
  | Some _, None => Lt
  | Some x, Some y => text_cmp x y
  end.

(** ORDER BY year DESC, make ASC, model ASC *)
Definition catalog_cmp (a b : CatalogRow.t) : comparison :=
  then_by (cmp_int_desc (CatalogRow.year a) (CatalogRow.year b))
    (then_by (cmp_text_asc (CatalogRow.make a) (CatalogRow.make b))
             (cmp_text_asc (CatalogRow.model a) (CatalogRow.model b))).

Definition catalog_leb (a b : CatalogRow.t) : bool :=
  match catalog_cmp a b with
  | Gt => false
  | _ => true
  end.

Definition LIMIT : nat := Z.to_nat 50000.

(** SELECT year, make, model, trim, engine, transmission FROM vehicle_catalog
    [WHERE ...] ORDER BY year DESC, make ASC, model ASC LIMIT 50000 *)
Definition select_catalog (conditions : list Condition) (db : Db)
    : Outcome (Result CatalogRow.t * Db) :=
  if forallb well_typed conditions then
    let out := firstn LIMIT
                 (order_by catalog_leb
                    (List.filter (where_ conditions) (vehicle_catalog db))) in
    Returned (mkResult out (length out), db)
  else Threw.
End CatalogOrder.

End Pg.

Import Pg.

(** ** The full server revision *)

Record Response : Type := mkResponse {
  status : Z;
  body : JValue
}.

(** [{ error: msg }] *)
Definition error (msg : string) : JValue := JObj [("error", JStr msg)].

(** [try { ... } catch (err) { ... }] *)
Definition try_catch {A : Type} (block : Outcome A) (handler : A) : A :=
  match block with
  | Returned a => a
  | Threw => handler
  end.

#[global] Instance Outcome_bind : MBind Outcome :=
  fun A B k o =>
    match o with
    | Returned a => k a
    | Threw => Threw
    end.

(** [const { ... } = v] throws on [undefined] and [null]. *)
Definition destructure (v : JValue) : Outcome JValue :=
  match v with
  | JUndefined | JNull => Threw
  | _ => Returned v
  end.

(** [rows[0]] *)
Definition first_row {R : Type} (json : R -> JValue) (rs : list R) : JValue :=
  match rs with
  | r :: _ => json r
  | [] => JUndefined
  end.

(** [Number(String(mileage ?? '0').replace(/[^\d]/g, ''))] *)
Definition digits_of `{Engine} (mileage : JValue) : JsNum :=
  Number_of_string (keep_digits (String_ (nullish mileage (JStr "0")))).

Module Server.

Section Handlers.
Context `{Engine} `{Schema} `{Collation}.

(** POST /api/vehicles *)
Definition post_vehicles (req_body : JValue) (db : Db) : Response * Db :=
  try_catch
    (b ← destructure req_body;
     let year := get "year" b in
     let make := get "make" b in
     let model := get "model" b in
     let mileage := get "mileage" b in
     if negb (truthy year) || negb (truthy make) || negb (truthy model) then
       Returned (mkResponse 400 (error "year, make, and model are required"), db)
     else
       let miles := or_else (JNum (digits_of mileage)) (JInt 0) in
       '(result, db') ← insert_vehicle mileage_as_text (JNum (Number year)) make model miles db;
       Returned (mkResponse 201 (first_row Vehicle.json (rows result)), db'))
    (mkResponse 500 (error "Failed to save vehicle"), db).

(** GET /api/vehicles *)
Definition get_vehicles (db : Db) : Response * Db :=
  try_catch
    ('(result, db') ← select_vehicles_newest_first mileage_as_text db;
     Returned (mkResponse 200 (JArr (map Vehicle.json (rows result))), db'))
    (mkResponse 500 (error "Failed to fetch vehicles"), db).

(** DELETE /api/vehicles/all; the route is registered before
    /api/vehicles/:id, so the path segment [all] reaches this handler.  The
    catch branch answers [{ error: err.message }]; the text of a thrown
    error is not represented. *)
Definition delete_vehicles_all (db : Db) : Response * Db :=
  try_catch
    ('(_, db') ← truncate_vehicles db;
     Returned (mkResponse 200 (JObj [("success", JBool true);
                                     ("message", JStr "All vehicles deleted.")]), db'))
    (mkResponse 500 (error "err.message"), db).

(** PATCH /api/vehicles/:id.  [id] is [req.params.id], the path segment as
    it was written. *)
Definition patch_vehicle (id : string) (req_body : JValue) (db : Db) : Response * Db :=
  try_catch
    (let miles := digits_of (opt_get "mileage" req_body) in
     if isNaN miles then
       Returned (mkResponse 400 (error "Mileage must be a number"), db)
     else
       '(result, db') ← update_mileage mileage_as_text (JNum miles) id db;
       if (length (rows result) =? 0)%nat then
         Returned (mkResponse 404 (error "Vehicle not found"), db')
       else
         Returned (mkResponse 200 (first_row Vehicle.json (rows result)), db'))
    (mkResponse 500 (error "Failed to update vehicle"), db).

(** DELETE /api/vehicles/:id *)
Definition delete_vehicle (id : string) (db : Db) : Response * Db :=
  try_catch
    ('(result, db') ← delete_vehicle_row id db;
     if (rowCount result =? 0)%nat then
       Returned (mkResponse 404 (error "Vehicle not found"), db')
     else
       Returned (mkResponse 200 (JObj [("success", JBool true);
                                       ("deletedId", JStr id)]), db'))
    (mkResponse 500 (error "Failed to delete vehicle"), db).

(** POST /api/services *)
Definition post_services (req_body : JValue) (db : Db) : Response * Db :=
  try_catch
    (b ← destructure req_body;
     let vehicle_id := get "vehicle_id" b in
     let service_name := get "service_name" b in
     let mileage := get "mileage" b in
     let interval := get "interval" b in
     let service_date := get "service_date" b in
     let cost := get "cost" b in
     let notes := get "notes" b in
     if negb (truthy vehicle_id) || negb (truthy service_name) then
       Returned (mkResponse 400 (error "vehicle_id and service_name are required"), db)
     else
       '(result, db') ← insert_service vehicle_id service_name mileage
                           (or_else interval JNull) (or_else service_date JNull)
                           (or_else cost JNull) (or_else notes JNull) db;
       Returned (mkResponse 201 (first_row Service.json (rows result)), db'))
    (mkResponse 500 (error "Failed to create service record"), db).

(** DELETE /api/services/all, registered before /api/services/:id. *)
Definition delete_services_all (db : Db) : Response * Db :=
  try_catch
    ('(_, db') ← truncate_service_history db;
     Returned (mkResponse 200 (JObj [("success", JBool true);
                                     ("message", JStr "All service records deleted.")]), db'))
    (mkResponse 500 (error "err.message"), db).

(** DELETE /api/services/:id *)
Definition delete_service (id : string) (db : Db) : Response * Db :=
  try_catch
    ('(result, db') ← delete_service_row id db;
     if (rowCount result =? 0)%nat then
       Returned (mkResponse 404 (error "Service record not found"), db')
     else
       Returned (mkResponse 200 (JObj [("success", JBool true);
                                       ("deletedId", JStr id)]), db'))
    (mkResponse 500 (error "Failed to delete service record"), db).

(** The [conditions] and [values] arrays after the three pushes. *)
Definition catalog_conditions (year make model : JValue) : list Condition :=
  (if truthy year then [YearEq (Number year)] else []) ++
  (if truthy make then [MakeILike ("%" ++ String_ make ++ "%")] else []) ++
  (if truthy model then [ModelILike ("%" ++ String_ model ++ "%")] else []).

(** GET /api/catalog *)
Definition get_catalog (req_query : JValue) (db : Db) : Response * Db :=
  try_catch
    (q ← destructure req_query;
     let year := get "year" q in
     let make := get "make" q in
     let model := get "model" q in
     '(result, db') ← select_catalog (catalog_conditions year make model) db;
     Returned (mkResponse 200 (JArr (map CatalogRow.json (rows result))), db'))
    (mkResponse 500 (error "Failed to fetch vehicle catalog"), db).

End Handlers.

(** The requests of the full revision that reach the store through a
    handler above. *)
Inductive Request : Type :=
| PostVehicle (req_body : JValue)
| GetVehicles
| DeleteVehiclesAll
| PatchVehicle (id : string) (req_body : JValue)
| DeleteVehicle (id : string)
| DeleteServicesAll
| PostService (req_body : JValue)
| DeleteService (id : string)
| GetCatalog (req_query : JValue).

(** The routes, as [app.post], [app.get], [app.patch] and [app.delete]
    register them. *)
Definition handle `{Engine} `{Schema} `{Collation} (rq : Request) (db : Db) : Response * Db :=
  match rq with
  | PostVehicle req_body => post_vehicles req_body db
  | GetVehicles => get_vehicles db
  | DeleteVehiclesAll => delete_vehicles_all db
  | PatchVehicle id req_body => patch_vehicle id req_body db
  | DeleteVehicle id => delete_vehicle id db
  | DeleteServicesAll => delete_services_all db
  | PostService req_body => post_services req_body db
  | DeleteService id => delete_service id db
  | GetCatalog req_query => get_catalog req_query db
  end.

(** The store after a sequence of requests, served one after the other. *)
Definition serve `{Engine} `{Schema} `{Collation} (rqs : list Request) (db : Db) : Db :=
  fold_left (fun d rq => snd (handle rq d)) rqs db.

End Server.

(** ** The minimal server revision *)
Module ServerRev2.

Section Handlers.
Context `{Schema}.

(** POST /api/vehicles.  The body is destructured before the [try] block:
    on a body that is [undefined] or [null] the handler throws and sends no
    answer of its own. *)
Definition post_vehicles (req_body : JValue) (db : Db) : Outcome (Response * Db) :=
  b ← destructure req_body;
  let year := get "year" b in
  let make := get "make" b in
  let model := get "model" b in
  let mileage := get "mileage" b in
  Returned
    (try_catch
       ('(result, db') ← insert_vehicle star year make model mileage db;
        Returned (mkResponse 201 (JObj [("success", JBool true);
                                        ("vehicle", first_row Vehicle.json (rows result))]), db'))
       (mkResponse 500 (error "Failed to save vehicle"), db)).

(** GET /api/vehicles *)
Definition get_vehicles (db : Db) : Response * Db :=
  try_catch
    ('(result, db') ← select_vehicles db;
     Returned (mkResponse 200 (JArr (map Vehicle.json (rows result))), db'))
    (mkResponse 500 (error "Failed to fetch vehicles"), db).

End Handlers.

End ServerRev2.

(** ** Catalog ingestion: generateVehicleCatalog.js *)

Module Ingest.

Section Models.
Context `{Engine}.

(** [for (const r of results)]: an array gives its items, a string its
    characters, anything else is not iterable. *)
Definition iterate (v : JValue) : Outcome (list JValue) :=
  match v with
  | JArr items => Returned items
  | JStr s => Returned (map (fun c => JStr (String c EmptyString)) (list_ascii_of_string s))
  | _ => Threw
  end.

(** [(r?.Model_Name || '').trim()]; only a string has [trim]. *)
Definition model_name (r : JValue) : Outcome string :=
  match or_else (opt_get "Model_Name" r) (JStr EmptyString) with
  | JStr s => Returned (trim s)
  | _ => Threw
  end.

(** The loop over [results], with the set [seen] and the array [models]. *)
Fixpoint collect (results : list JValue) (seen : gset string) (models : list string)
    : Outcome (list string) :=
  match results with
  | [] => Returned models
  | r :: rest =>
      m ← model_name r;
      if String.eqb m EmptyString then collect rest seen models
      else
        let key := toLowerCase m in
        if decide (key ∈ seen) then collect rest seen models
        else collect rest ({[key]} ∪ seen) (models ++ [m])
  end.

(** [getModelsForMakeYear], from the JSON value [getJson] resolved to. *)
Definition getModelsForMakeYear (data : JValue) : Outcome (list string) :=
  results ← iterate (or_else (opt_get "Results" data) (JArr []));
  collect results ∅ [].

End Models.

End Ingest.

(** ** csv_to_sql.js: the catalog CSV as chunked INSERT files *)

Module CsvToSql.

Definition TABLE : string := "vehicle_catalog".
Definition COLUMNS : list string :=
  ["year"; "make"; "model"; "trim"; "engine"; "transmission"].
Definition CHUNK_ROWS : nat := 2000.

Definition quote : ascii := "'".

(** The [replace] of [esc]: every single quote is doubled. *)
Fixpoint double_quotes (s : string) : string :=
  match s with
  | EmptyString => EmptyString
  | String c rest =>
      if Ascii.eqb c quote then String quote (String quote (double_quotes rest))
      else String c (double_quotes rest)
  end.

(** [esc(v)] *)
Definition esc (v : JValue) : string :=
  let v := match v with
           | JNull | JUndefined => JStr EmptyString
           | _ => v
           end in
  String quote (double_quotes (String_ v) ++ String quote EmptyString).

(** The longest run of decimal digits a string starts with. *)
Fixpoint leading_digits (s : string) : string :=
  match s with
  | EmptyString => EmptyString
  | String c rest => if is_digit c then String c (leading_digits rest) else EmptyString
  end.

Section ParseInt.
Context `{Engine}.

(** [parseInt(v, 10)]: leading white space is skipped, one sign is read,
    then the digits up to the first character that is none.  What follows
    the ASCII white space may be white space that is not ASCII, and digits
    beyond 2^53 are rounded: both are the engine's. *)
Definition parseInt10 (v : JValue) : JsNum :=
  let s := String_ v in
  let signed (sign : Z) (rest : string) :=
    match leading_digits rest with
    | EmptyString => NaN
    | ds => if safe (digits_value ds) then Int (sign * digits_value ds)
            else parseInt_other s
    end in
  match trim_start s with
  | EmptyString => NaN
  | String c rest =>
      if negb (is_ascii_char c) then parseInt_other s
      else if Ascii.eqb c "-" then signed (-1) rest
      else if Ascii.eqb c "+" then signed 1 rest
      else signed 1 (String c rest)
  end.

(** [numOrNull(v)] *)
Definition numOrNull (v : JValue) : JValue :=
  let n := parseInt10 v in
  if isFinite n then JNum n else JStr "NULL".

End ParseInt.

Fixpoint zeros (n : nat) : string :=
  match n with
  | O => EmptyString
  | S n' => String "0" (zeros n')
  end.

(** [s.padStart(width, '0')] *)
Definition padStart0 (width : nat) (s : string) : string :=
  zeros (width - String.length s) ++ s.

(** [chunkFileName(i)]; [path.join] is the one of POSIX and [OUT_DIR] the
    resolved output directory. *)
Definition chunkFileName (OUT_DIR : string) (i : Z) : string :=
  OUT_DIR ++ "/" ++ "vehicle_catalog_part_" ++ padStart0 3 (String_ (JInt i)) ++ ".sql".

Definition newline : string := String (ascii_of_N 10) EmptyString.

Definition create_table : string :=
  "CREATE TABLE IF NOT EXISTS " ++ TABLE ++ " (" ++ newline ++
  "  year INT," ++ newline ++
  "  make TEXT," ++ newline ++
  "  model TEXT," ++ newline ++
  "  trim TEXT," ++ newline ++
  "  engine TEXT," ++ newline ++
  "  transmission TEXT" ++ newline ++
  ");" ++ newline ++ newline.

(** The text of one chunk file. *)
Definition chunk_sql (chunkIndex : Z) (rows : list string) : string :=
  (if chunkIndex =? 1 then create_table else EmptyString) ++
  "INSERT INTO " ++ TABLE ++ " (" ++ join ", " COLUMNS ++ ") VALUES" ++ newline ++
  join ("," ++ newline) rows ++
  ";" ++ newline.

(** The module state [chunkIndex], [rows], and the calls of
    [fs.writeFileSync] so far, oldest first. *)
Record Writer : Type := mkWriter {
  chunkIndex : Z;
  rows : list string;
  written : list (string * string)
}.

Definition start : Writer := mkWriter 1 [] [].

Section Writing.
Context `{Engine} (OUT_DIR : string).

(** [writeChunk()] *)
Definition writeChunk (w : Writer) : Writer :=
  match rows w with
  | [] => w
  | _ =>
      mkWriter (chunkIndex w + 1) []
               (written w ++ [(chunkFileName OUT_DIR (chunkIndex w),
                               chunk_sql (chunkIndex w) (rows w))])
  end.

(** The text pushed for one CSV record. *)
Definition row_sql (row : JValue) : string :=
  let values := [String_ (numOrNull (get "year" row)); esc (get "make" row);
                 esc (get "model" row); esc (get "trim" row);
                 esc (get "engine" row); esc (get "transmission" row)] in
  "(" ++ join ", " values ++ ")".

(** The [data] listener. *)
Definition on_data (w : Writer) (row : JValue) : Writer :=
  let w' := mkWriter (chunkIndex w) (rows w ++ [row_sql row]) (written w) in
  if (CHUNK_ROWS <=? length (rows w'))%nat then writeChunk w' else w'.

(** The [end] listener. *)
Definition on_end (w : Writer) : Writer := writeChunk w.

(** The whole conversion, from the records the CSV parser emits. *)
Definition convert (records : list JValue) : Writer :=
  on_end (fold_left on_data records start).

End Writing.

(** The files on disk after a sequence of writes, from the files that were
    there before: a write to a path replaces what the path held.
    [ensureDir] keeps an output directory that exists, with its files. *)
Definition files_after (before : gmap string string) (writes : list (string * string))
    : gmap string string :=
  fold_left (fun fs w => <[fst w := snd w]> fs) writes before.

End CsvToSql.

(** ** generateVehicleCatalog.js: the rest of the generator *)

Module Generate.

Definition START_YEAR : Z := 1950.
Definition END_YEAR : Z := 2025.

Definition dquote : ascii := ascii_of_N 34.
Definition comma : ascii := ",".
Definition lf : ascii := ascii_of_N 10.

(** The test of [csvEscape]: the string holds a double quote, a comma or a
    line feed. *)
Fixpoint needs_quoting (s : string) : bool :=
  match s with
  | EmptyString => false
  | String c rest =>
      Ascii.eqb c dquote || Ascii.eqb c comma || Ascii.eqb c lf || needs_quoting rest
  end.

(** The [replace] of [csvEscape]: every double quote is doubled. *)
Fixpoint double_dquotes (s : string) : string :=
  match s with
  | EmptyString => EmptyString
  | String c rest =>
      if Ascii.eqb c dquote then String dquote (String dquote (double_dquotes rest))
      else String c (double_dquotes rest)
  end.

(** [csvEscape(s)] *)
Definition csvEscape (s : JValue) : string :=
  match s with
  | JNull | JUndefined => EmptyString
  | _ =>
      let str := String_ s in
      if needs_quoting str
      then String dquote (double_dquotes str ++ String dquote EmptyString)
      else str
  end.

(** [getJson(url, tries)]: [attempt i] is what the request number [i] to the
    URL comes to, a parsed body or a failure (no answer, a status that is
    not ok, a body that is not JSON).  The result comes with the pauses the
    function asked for, in milliseconds.  [left] counts the rounds of the
    loop that remain. *)
Fixpoint getJson_loop (attempt : nat -> Outcome JValue) (tries : Z)
    (i : Z) (left : nat) (slept : list Z) : Outcome JValue * list Z :=
  match left with
  | O => (Returned JUndefined, slept)
  | S left' =>
      match attempt (Z.to_nat i) with
      | Returned data => (Returned data, slept)
      | Threw =>
          if i =? tries - 1 then (Threw, slept)
          else getJson_loop attempt tries (i + 1) left' (slept ++ [300 + i * 300])
      end
  end.

Definition getJson (attempt : nat -> Outcome JValue) (tries : Z) : Outcome JValue * list Z :=
  getJson_loop attempt tries 0 (Z.to_nat tries) [].

(** [r.k]: reading a property of [undefined] or [null] throws. *)
Definition member (k : string) (r : JValue) : Outcome JValue :=
  match r with
  | JUndefined | JNull => Threw
  | _ => Returned (get k r)
  end.

(** [a.map(f)]: only an array has [map]. *)
Fixpoint map_array (f : JValue -> Outcome JValue) (items : list JValue)
    : Outcome (list JValue) :=
  match items with
  | [] => Returned []
  | r :: rest =>
      x ← f r;
      xs ← map_array f rest;
      Returned (x :: xs)
  end.

(** [getAllMakes], from the JSON value [getJson] resolved to. *)
Definition getAllMakes (data : JValue) : Outcome (list JValue) :=
  match or_else (opt_get "Results" data) (JArr []) with
  | JArr items =>
      names ← map_array (member "Make_Name") items;
      Returned (List.filter truthy names)
  | _ => Threw
  end.

(** [year = END_YEAR; year >= START_YEAR; year--] *)
Definition years : list Z :=
  map (fun k => END_YEAR - Z.of_nat k) (seq 0 (Z.to_nat (END_YEAR - START_YEAR + 1))).

Definition header : string :=
  "year,make,model,trim,engine,transmission" ++ CsvToSql.newline.

(** The line written for one model. *)
Definition csv_row (year : Z) (make : JValue) (model : string) : string :=
  join "," [csvEscape (JInt year); csvEscape make; csvEscape (JStr model);
            EmptyString; EmptyString; EmptyString] ++ CsvToSql.newline.

Section Main.
(** What [getJson] resolves to for the models of a make and a year. *)
Context `{Engine} (models_of : JValue -> Z -> Outcome JValue).

(** The body of the inner loop for one make: a failure is caught and the
    make is skipped for that year. *)
Definition rows_for (year : Z) (make : JValue) : list string :=
  match data ← models_of make year; Ingest.getModelsForMakeYear data with
  | Returned models => map (csv_row year make) models
  | Threw => []
  end.

(** [main]: the chunks written to the output stream, and [rowCount] when
    the run reaches its end. *)
Definition main (makes : Outcome JValue) : list string * Outcome Z :=
  match data ← makes; getAllMakes data with
  | Threw => ([header], Threw)
  | Returned allMakes =>
      let lines :=
        flat_map (fun year => flat_map (rows_for year) allMakes) years in
      (header :: lines, Returned (Z.of_nat (length lines)))
  end.

End Main.

End Generate.

(** ** Vocabulary of the specification *)

(** The digit characters of a text, in their order. *)
Definition digit_characters (s : string) : string :=
  string_of_list_ascii
    (List.filter (fun c => existsb (Ascii.eqb c) (list_ascii_of_string "0123456789"))
                 (list_ascii_of_string s)).

Definition digit_number (c : ascii) : Z :=
  if Ascii.eqb c "1" then 1 else if Ascii.eqb c "2" then 2
  else if Ascii.eqb c "3" then 3 else if Ascii.eqb c "4" then 4
  else if Ascii.eqb c "5" then 5 else if Ascii.eqb c "6" then 6
  else if Ascii.eqb c "7" then 7 else if Ascii.eqb c "8" then 8
  else if Ascii.eqb c "9" then 9 else 0.

(** The number a run of decimal digits denotes, place by place; 0 when
    there is no digit. *)
Fixpoint decimal_value (s : string) : Z :=
  match s with
  | EmptyString => 0
  | String c rest => digit_number c * 10 ^ Z.of_nat (String.length rest) + decimal_value rest
  end.

(** A field of the request that is missing. *)
Definition missing (k : string) (o : JValue) : Prop := get k o = JUndefined.

(** The response carries a vehicle row. *)
Definition returns_row (resp : Response) : Prop :=
  exists r : Vehicle.t, body resp = Vehicle.json r.


(** Most recent first: identifiers come from the sequence, so a later row
    has the larger one. *)
Definition newest_first (rs : list Vehicle.t) : Prop :=
  StronglySorted (fun a b => Vehicle.id b <= Vehicle.id a) rs.

(** The parameters POST /api/vehicles binds, as the row they make with the
    next identifier: [Number(year)], make and model as sent, and
    [Number(digits) || 0] for the mileage. *)
Definition bound_row `{Engine} (b : JValue) (db : Db) : Vehicle.t :=
  Vehicle.mk (vehicles_id_seq db) (JNum (Number (get "year" b)))
             (get "make" b) (get "model" b)
             (or_else (JNum (digits_of (get "mileage" b))) (JInt 0)).

(** The store takes a vehicle row: the declaration of the table accepts it,
    and its identifier is a value the sequence can give. *)
Definition vehicle_accepted `{Schema} (r : Vehicle.t) : bool :=
  vehicle_ok r && in_int4 (Vehicle.id r).

(** The store after one more vehicle row. *)
Definition with_vehicle (r : Vehicle.t) (db : Db) : Db :=
  mkDb (vehicles db ++ [r]) (vehicles_id_seq db + 1)
       (service_history db) (service_history_id_seq db) (vehicle_catalog db).

(** The row POST /api/services binds: the four optional fields after
    mileage are replaced by NULL when falsy. *)
Definition bound_service (b : JValue) (db : Db) : Service.t :=
  Service.mk (service_history_id_seq db) (get "vehicle_id" b) (get "service_name" b)
             (bind (get "mileage" b))
             (or_else (get "interval" b) JNull) (or_else (get "service_date" b) JNull)
             (or_else (get "cost" b) JNull) (or_else (get "notes" b) JNull).

Definition service_accepted `{Schema} (r : Service.t) : bool :=
  service_ok r && in_int4 (Service.id r).

(** The store after one more service record. *)
Definition with_service (r : Service.t) (db : Db) : Db :=
  mkDb (vehicles db) (vehicles_id_seq db)
       (service_history db ++ [r]) (service_history_id_seq db + 1) (vehicle_catalog db).

(** Case-insensitive partial match on ASCII text: [needle] occurs in [text]
    once the letters of both are lower-cased. *)
Definition contains_ignoring_case (text needle : string) : Prop :=
  exists pre post : string, ascii_lower text = pre ++ ascii_lower needle ++ post.

(** The characters LIKE does not take literally. *)
Definition is_wildcard (c : ascii) : bool :=
  Ascii.eqb c "%" || Ascii.eqb c "_" || Ascii.eqb c backslash.

Fixpoint plain (s : string) : bool :=
  match s with
  | EmptyString => true
  | String c rest => negb (is_wildcard c) && plain rest
  end.


(** A catalog row whose make and model are ASCII text. *)
Definition ascii_row (r : CatalogRow.t) : Prop :=
  (forall text, CatalogRow.make r = Some text -> is_ascii text = true) /\
  (forall text, CatalogRow.model r = Some text -> is_ascii text = true).






(** Identifiers are well formed: in each table they are pairwise distinct
    and below the next value of the sequence. *)
Definition ids_well_formed (db : Db) : Prop :=
  NoDup (map Vehicle.id (vehicles db)) /\
  Forall (fun r => Vehicle.id r < vehicles_id_seq db) (vehicles db) /\
  NoDup (map Service.id (service_history db)) /\
  Forall (fun r => Service.id r < service_history_id_seq db) (service_history db).

(** An entry of a page as the API sends it: its [Model_Name] is a string,
    or is absent, null or another falsy value. *)
Definition names_text (r : JValue) : Prop :=
  match get "Model_Name" r with
  | JStr _ => True
  | v => truthy v = false
  end.

(** The name an entry carries: its [Model_Name] without the white space
    around it, the empty name when it has none. *)
Definition entry_name `{Engine} (r : JValue) : string :=
  match get "Model_Name" r with
  | JStr s => trim s
  | _ => EmptyString
  end.

(** The names of a page, in its order, the empty ones left out. *)
Definition page_names `{Engine} (results : list JValue) : list string :=
  List.filter (fun s => negb (String.eqb s EmptyString)) (map entry_name results).

(** Two names are equal ignoring case. *)
Definition same_ignoring_case `{Engine} (a b : string) : bool :=
  String.eqb (toLowerCase a) (toLowerCase b).

(** The first occurrences in a list of names that follows the names
    [before]: a name stays when no name before it, in the list or in
    [before], is equal to it ignoring case. *)
Definition first_from `{Engine} (before names : list string) : list string :=
  omap id (imap (fun i n => if existsb (same_ignoring_case n) (before ++ take i names)
                            then None else Some n) names).

(** The first occurrences in a list of names: a name stays when no name
    before it in the list is equal to it ignoring case. *)
Definition first_occurrences `{Engine} (names : list string) : list string :=
  first_from [] names.

(** Reading a string literal of SQL (standard conforming strings): after
    the opening quote, two quotes stand for one and a single quote ends the
    literal.  The result is the text and what follows the literal. *)
Fixpoint read_literal_body (s : string) : option (string * string) :=
  match s with
  | EmptyString => None
  | String c rest =>
      if Ascii.eqb c CsvToSql.quote then
        match rest with
        | EmptyString => Some (EmptyString, EmptyString)
        | String d rest' =>
            if Ascii.eqb d CsvToSql.quote
            then match read_literal_body rest' with
                 | Some (text, after) => Some (String CsvToSql.quote text, after)
                 | None => None
                 end
            else Some (EmptyString, rest)
        end
      else match read_literal_body rest with
           | Some (text, after) => Some (String c text, after)
           | None => None
           end
  end.

Definition read_literal (s : string) : option (string * string) :=
  match s with
  | EmptyString => None
  | String c rest => if Ascii.eqb c CsvToSql.quote then read_literal_body rest else None
  end.

(** Reading one field of a CSV record: a field that opens with a double
    quote runs to the closing one, two double quotes inside standing for
    one; any other field runs to the next comma or line feed. *)
Fixpoint read_quoted (s : string) : option (string * string) :=
  match s with
  | EmptyString => None
  | String c rest =>
      if Ascii.eqb c Generate.dquote then
        match rest with
        | EmptyString => Some (EmptyString, EmptyString)
        | String d rest' =>
            if Ascii.eqb d Generate.dquote
            then match read_quoted rest' with
                 | Some (text, after) => Some (String Generate.dquote text, after)
                 | None => None
                 end
            else Some (EmptyString, rest)
        end
      else match read_quoted rest with
           | Some (text, after) => Some (String c text, after)
           | None => None
           end
  end.

Fixpoint read_plain (s : string) : string * string :=
  match s with
  | EmptyString => (EmptyString, EmptyString)
  | String c rest =>
      if Ascii.eqb c Generate.comma || Ascii.eqb c Generate.lf then (EmptyString, s)
      else let '(text, after) := read_plain rest in (String c text, after)
  end.

Definition read_field (s : string) : option (string * string) :=
  match s with
  | EmptyString => Some (EmptyString, EmptyString)
  | String c rest =>
      if Ascii.eqb c Generate.dquote then read_quoted rest else Some (read_plain s)
  end.

(** Reading [n] fields separated by commas. *)
Fixpoint read_fields (n : nat) (s : string) : option (list string * string) :=
  match n with
  | O => Some ([], s)
  | S n' =>
      match read_field s with
      | None => None
      | Some (field, after) =>
          match n' with
          | O => Some ([field], after)
          | S _ =>
              match after with
              | EmptyString => None
              | String c after' =>
                  if Ascii.eqb c Generate.comma
                  then match read_fields n' after' with
                       | Some (fields, rest) => Some (field :: fields, rest)
                       | None => None
                       end
                  else None
              end
          end
      end
  end.

(** The text [esc] and [csvEscape] write for a value. *)
Definition text_of (v : JValue) : string :=
  match v with
  | JNull | JUndefined => EmptyString
  | _ => String_ v
  end.

(** A number other than NaN. *)
Definition is_number (v : JValue) : Prop :=
  exists n : JsNum, v = JNum n /\ isNaN n = false.

(** Every vehicle has a mileage, and it is a number. *)
Definition mileages_are_numbers (db : Db) : Prop :=
  Forall (fun r => is_number (Vehicle.mileage r)) (vehicles db).

(** What serving one request can do to the store. *)
Inductive effect (db : Db) : Db -> Prop :=
| effect_none :
    effect db db
| effect_insert_vehicle (r : Vehicle.t) :
    Vehicle.id r = vehicles_id_seq db ->
    is_number (Vehicle.mileage r) ->
    effect db (with_vehicle r db)
| effect_update_mileage (p : JValue) (i : Z) :
    is_number p ->
    effect db (mkDb (map (set_mileage p i) (vehicles db)) (vehicles_id_seq db)
                    (service_history db) (service_history_id_seq db) (vehicle_catalog db))
| effect_delete_vehicle (i : Z) :
    effect db (mkDb (List.filter (fun r => negb (has_id i r)) (vehicles db))
                    (vehicles_id_seq db)
                    (service_history db) (service_history_id_seq db) (vehicle_catalog db))
| effect_truncate_vehicles :
    effect db (mkDb [] 1 (service_history db) (service_history_id_seq db)
                    (vehicle_catalog db))
| effect_truncate_cascade :
    effect db (mkDb [] 1 [] 1 (vehicle_catalog db))
| effect_insert_service (r : Service.t) :
    Service.id r = service_history_id_seq db ->
    effect db (with_service r db)
| effect_delete_service (i : Z) :
    effect db (mkDb (vehicles db) (vehicles_id_seq db)
                    (List.filter (fun r => negb (has_service_id i r)) (service_history db))
                    (service_history_id_seq db) (vehicle_catalog db))
| effect_truncate_services :
    effect db (mkDb (vehicles db) (vehicles_id_seq db) [] 1 (vehicle_catalog db)).

(** The calls of [fs.writeFileSync] that put a list of chunks on disk, the
    first chunk in the file numbered 1. *)
Definition chunk_files (OUT_DIR : string) (chunks : list (list string))
    : list (string * string) :=
  imap (fun k c => (CsvToSql.chunkFileName OUT_DIR (Z.of_nat k + 1),
                    CsvToSql.chunk_sql (Z.of_nat k + 1) c)) chunks.

(** What holds between two records: the files written so far are full
    chunks and the buffer is not full. *)
Definition buffering (OUT_DIR : string) (w : CsvToSql.Writer) (chunks : list (list string)) : Prop :=
  CsvToSql.written w = chunk_files OUT_DIR chunks /\
  CsvToSql.chunkIndex w = Z.of_nat (length chunks) + 1 /\
  Forall (fun c => length c = CsvToSql.CHUNK_ROWS) chunks /\
  (length (CsvToSql.rows w) < CsvToSql.CHUNK_ROWS)%nat.

(** What may follow a field: the end of the text, a comma or a line feed. *)
Definition field_end (rest : string) : Prop :=
  match rest with
  | EmptyString => True
  | String c _ => c = Generate.comma \/ c = Generate.lf
  end.

(** The pauses [getJson] asks for after the failed requests number [from],
    [from + 1], ..., [from + count - 1]. *)
Definition pauses (from count : nat) : list Z :=
  map (fun j => 300 + Z.of_nat j * 300) (seq from count).

(** The models found for a make and a year: those [getModelsForMakeYear]
    returns from the answer to the request, none when the request or the
    reading of its answer fails. *)
Definition models_found `{Engine} (models_of : JValue -> Z -> Outcome JValue)
    (year : Z) (make : JValue) : list string :=
  match models_of make year with
  | Threw => []
  | Returned data =>
      match Ingest.getModelsForMakeYear data with
      | Threw => []
      | Returned models => models
      end
  end.

(** ** Fixtures *)

Module Fixtures.

(** A stand-in for the engine.  The examples keep to ASCII text and to
    integers up to 2^53, on which the engine is not consulted; the stand-in
    reads a longer run of digits without rounding it and any other text as
    no number, and leaves text that is not ASCII as it is. *)
Definition ascii_engine : Engine :=
  {| Number_other := fun s => if all_digits s then Int (digits_value s) else NaN;
     parseInt_other := fun _ => NaN;
     toLowerCase_other := fun s => s;
     trim_other := fun s => s;
     Number_other_digits := fun s (Hs : all_digits s = true) =>
       @eq_ind_r bool true
         (fun b : bool => isNaN (if b then Int (digits_value s) else NaN) = false)
         eq_refl (all_digits s) Hs |}.

(** Table declarations that refuse nothing, with no foreign key from
    [service_history] to [vehicles], on a server that reads an integer from
    decimal digits only. *)
Definition permissive : Schema :=
  {| vehicle_ok := fun _ => true; service_ok := fun _ => true;
     cascade_to_service_history := false; int4_other := fun _ => None |}.

(** The same declarations with [service_history] referencing [vehicles]. *)
Definition referencing : Schema :=
  {| vehicle_ok := fun _ => true; service_ok := fun _ => true;
     cascade_to_service_history := true; int4_other := fun _ => None |}.

(** The C collation of a single-byte encoding: text is ordered and matched
    byte by byte, and only the ASCII letters fold. *)
Definition byte_order : Collation :=
  {| text_cmp := String.compare;
     text_cmp_antisym := fun a b => String.compare_antisym b a;
     ilike_other := ascii_ilike |}.

Definition empty_db : Db := mkDb [] 1 [] 1 [].

Definition civic : Vehicle.t :=
  Vehicle.mk 1 (JInt 2020) (JStr "Honda") (JStr "Civic") (JInt 42000).

Definition corolla : Vehicle.t :=
  Vehicle.mk 2 (JInt 2021) (JStr "Toyota") (JStr "Corolla") (JInt 12345).

(** [civic] was inserted first, [corolla] second. *)
Definition two_vehicles : Db := mkDb [civic; corolla] 3 [] 1 [].

Definition honda_civic_2020 : JValue :=
  JObj [("year", JInt 2020); ("make", JStr "Honda"); ("model", JStr "Civic")].

Definition catalog_civic : CatalogRow.t :=
  CatalogRow.mk (Some 2020) (Some "Honda") (Some "Civic") (Some "LX") None None.

Definition catalog_camry : CatalogRow.t :=
  CatalogRow.mk (Some 2021) (Some "Toyota") (Some "Camry") None None None.



Definition catalog_db : Db := mkDb [] 1 [] 1 [catalog_civic; catalog_camry].


Definition oil_change_free : JValue :=
  JObj [("vehicle_id", JInt 1); ("service_name", JStr "Oil change"); ("cost", JInt 0)].

Definition entry (name : string) : JValue := JObj [("Model_Name", JStr name)].

Definition page : list JValue :=
  [entry "Civic"; entry " civic "; entry "  "; JNull; entry "Accord";
   JObj [("Model_Name", JNull)]; entry "CIVIC"; entry "ACCORD "].

End Fixtures.

Import Fixtures.

(** * Properties *)

(** ** Digits *)

Lemma is_digit_not_space (c : ascii) : is_digit c = true -> is_space c = false.
Proof.
  unfold is_digit, is_space. intros Hd.
  apply andb_true_iff in Hd as [Hlo Hhi].
  apply N.leb_le in Hlo, Hhi.
  apply orb_false_iff. split.
  - apply andb_false_iff. right. apply N.leb_gt. lia.
  - apply N.eqb_neq. lia.
Qed.

Lemma keep_digits_all_digits (s : string) : all_digits (keep_digits s) = true.
Proof.
  induction s as [|c s IH]; simpl; [reflexivity|].
  destruct (is_digit c) eqn:Hc; simpl; [rewrite Hc|]; exact IH.
Qed.

Lemma trim_start_digits (s : string) : all_digits s = true -> trim_start s = s.
Proof.
  destruct s as [|c s]; simpl; [reflexivity|].
  intros Hs. apply andb_true_iff in Hs as [Hc _].
  rewrite (is_digit_not_space c Hc). reflexivity.
Qed.

Lemma trim_end_digits (s : string) : all_digits s = true -> trim_end s = s.
Proof.
  induction s as [|c s IH]; simpl; [reflexivity|].
  intros Hs. apply andb_true_iff in Hs as [Hc Hs].
  rewrite (IH Hs). destruct s; [|reflexivity].
  rewrite (is_digit_not_space c Hc). reflexivity.
Qed.

Lemma ascii_trim_digits (s : string) : all_digits s = true -> ascii_trim s = s.
Proof.
  intros Hs. unfold ascii_trim.
  rewrite (trim_start_digits s Hs). apply trim_end_digits, Hs.
Qed.

Lemma digit_value_range (c : ascii) : is_digit c = true -> 0 <= digit_value c <= 9.
Proof.
  unfold is_digit, digit_value. intros Hd.
  apply andb_true_iff in Hd as [Hlo Hhi].
  apply N.leb_le in Hlo, Hhi. lia.
Qed.

Lemma digits_value_from_nonneg (s : string) (acc : Z) :
  all_digits s = true -> 0 <= acc -> 0 <= digits_value_from acc s.
Proof.
  revert acc. induction s as [|c s IH]; simpl; intros acc Hs Hacc; [exact Hacc|].
  apply andb_true_iff in Hs as [Hc Hs].
  apply IH; [exact Hs|]. pose proof (digit_value_range c Hc). lia.
Qed.

Lemma digits_value_nonneg (s : string) : all_digits s = true -> 0 <= digits_value s.
Proof. intros Hs. apply digits_value_from_nonneg; [exact Hs|lia]. Qed.

Lemma safe_nonneg (z : Z) : 0 <= z -> safe z = (z <=? 9007199254740992).
Proof. intros Hz. unfold safe. rewrite Z.abs_eq by exact Hz. reflexivity. Qed.

(** The digit characters and the number they denote, as the code computes
    them and as the vocabulary defines them. *)
Lemma is_digit_characters (c : ascii) :
  is_digit c = existsb (Ascii.eqb c) (list_ascii_of_string "0123456789").
Proof. destruct c as [[] [] [] [] [] [] [] []]; reflexivity. Qed.

Lemma keep_digits_characters (s : string) : keep_digits s = digit_characters s.
Proof.
  unfold digit_characters. induction s as [|c s IH]; [reflexivity|].
  cbn [keep_digits list_ascii_of_string List.filter].
  rewrite <- is_digit_characters. destruct (is_digit c); cbn [string_of_list_ascii];
    rewrite IH; reflexivity.
Qed.

Lemma digit_value_number (c : ascii) : is_digit c = true -> digit_value c = digit_number c.
Proof.
  destruct c as [[] [] [] [] [] [] [] []]; intros Hc; try discriminate Hc; reflexivity.
Qed.

Lemma digits_value_from_decimal (s : string) (acc : Z) :
  all_digits s = true ->
  digits_value_from acc s = acc * 10 ^ Z.of_nat (String.length s) + decimal_value s.
Proof.
  revert acc. induction s as [|c s IH]; intros acc Hs.
  - cbn [digits_value_from decimal_value String.length]. change (10 ^ Z.of_nat 0) with 1. lia.
  - cbn [all_digits] in Hs. apply andb_true_iff in Hs as [Hc Hs].
    cbn [digits_value_from decimal_value String.length].
    rewrite (IH _ Hs), (digit_value_number c Hc), Nat2Z.inj_succ, Z.pow_succ_r by lia.
    ring.
Qed.

Lemma digits_value_decimal (s : string) :
  all_digits s = true -> digits_value s = decimal_value s.
Proof.
  intros Hs. unfold digits_value. rewrite (digits_value_from_decimal s 0 Hs). lia.
Qed.

Lemma all_digits_characters (s : string) : all_digits (digit_characters s) = true.
Proof. rewrite <- keep_digits_characters. apply keep_digits_all_digits. Qed.

Lemma decimal_value_nonneg (s : string) : 0 <= decimal_value (digit_characters s).
Proof.
  rewrite <- digits_value_decimal by apply all_digits_characters.
  apply digits_value_nonneg, all_digits_characters.
Qed.

Section Numbers.
Context `{Engine}.

Lemma Number_of_digits (s : string) :
  all_digits s = true ->
  Number_of_string s =
    if safe (digits_value s) then Int (digits_value s) else Number_other s.
Proof.
  intros Hs. unfold Number_of_string. rewrite (ascii_trim_digits s Hs).
  destruct s as [|c s]; [reflexivity|].
  pose proof Hs as Hcs. simpl in Hcs. apply andb_true_iff in Hcs as [Hc _].
  destruct (Ascii.eqb_spec c "-") as [->|_]; [discriminate Hc|].
  destruct (Ascii.eqb_spec c "+") as [->|_]; [discriminate Hc|].
  unfold signed_digits. rewrite Hs. cbn [String.eqb negb andb].
  rewrite Z.mul_1_l. reflexivity.
Qed.

(** What [isNaN] tests in PATCH is never NaN. *)
Lemma digits_of_not_NaN (mileage : JValue) : isNaN (digits_of mileage) = false.
Proof.
  unfold digits_of. rewrite Number_of_digits by apply keep_digits_all_digits.
  destruct (safe _); [reflexivity|].
  apply Number_other_digits, keep_digits_all_digits.
Qed.


Lemma miles_is_number (mileage : JValue) :
  exists n, or_else (JNum (digits_of mileage)) (JInt 0) = JNum n.
Proof.
  unfold or_else. destruct (truthy _); eexists; reflexivity.
Qed.

(** What POST binds for the mileage is a number, never NaN and never NULL. *)
Lemma bound_miles_number (mileage : JValue) :
  is_number (bind (or_else (JNum (digits_of mileage)) (JInt 0))).
Proof.
  unfold or_else. destruct (truthy _); cbn [bind JInt].
  - eexists. split; [reflexivity|apply digits_of_not_NaN].
  - eexists. split; reflexivity.
Qed.

End Numbers.

(** ** Decimal text and the numbers read from it *)

Lemma digits_of_uint_acc (d : Decimal.uint) (acc : positive) :
  digits_value_from (Zpos acc) (NilEmpty.string_of_uint d) = Zpos (Pos.of_uint_acc d acc).
Proof.
  revert acc. induction d; intros acc; cbn [NilEmpty.string_of_uint digits_value_from Pos.of_uint_acc];
    [reflexivity|..]; rewrite <- IHd; f_equal; unfold digit_value; simpl; lia.
Qed.

Lemma digits_of_uint (d : Decimal.uint) :
  digits_value_from 0 (NilEmpty.string_of_uint d) = Z.of_N (Pos.of_uint d).
Proof.
  induction d; cbn [NilEmpty.string_of_uint digits_value_from Pos.of_uint];
    [reflexivity|exact IHd|..]; apply digits_of_uint_acc.
Qed.

Lemma all_digits_of_uint (d : Decimal.uint) :
  all_digits (NilEmpty.string_of_uint d) = true.
Proof. induction d; simpl; auto. Qed.

Lemma show_pos (p : positive) :
  NilZero.string_of_uint (Pos.to_uint p) = NilEmpty.string_of_uint (Pos.to_uint p) /\
  all_digits (NilEmpty.string_of_uint (Pos.to_uint p)) = true /\
  digits_value (NilEmpty.string_of_uint (Pos.to_uint p)) = Zpos p /\
  NilEmpty.string_of_uint (Pos.to_uint p) <> EmptyString.
Proof.
  pose proof (DecimalPos.Unsigned.of_to p) as Hp.
  split; [|split; [|split]].
  - destruct (Pos.to_uint p); [discriminate Hp|reflexivity..].
  - apply all_digits_of_uint.
  - unfold digits_value. rewrite digits_of_uint, Hp. reflexivity.
  - destruct (Pos.to_uint p); [discriminate Hp|discriminate..].
Qed.

Lemma show_Z_nonneg (z : Z) :
  0 <= z -> all_digits (show_Z z) = true /\ digits_value (show_Z z) = z.
Proof.
  intros Hz. destruct z as [|p|p]; [split; reflexivity| |lia].
  unfold show_Z. cbn [Z.to_int NilZero.string_of_int].
  destruct (show_pos p) as (-> & Hall & Hval & _). split; assumption.
Qed.

Lemma show_Z_nonempty (z : Z) : 0 <= z -> show_Z z <> EmptyString.
Proof.
  intros Hz. destruct z as [|p|p]; [discriminate| |lia].
  unfold show_Z. cbn [Z.to_int NilZero.string_of_int].
  destruct (show_pos p) as (-> & _ & _ & Hne). exact Hne.
Qed.

Lemma show_Z_neg (p : positive) :
  show_Z (Zneg p) = String "-" (show_Z (Zpos p)).
Proof. reflexivity. Qed.

Lemma keep_digits_id (s : string) : all_digits s = true -> keep_digits s = s.
Proof.
  induction s as [|c s IH]; simpl; [reflexivity|].
  intros Hs. apply andb_true_iff in Hs as [Hc Hs]. rewrite Hc, (IH Hs). reflexivity.
Qed.

(** ** The identifier a path segment denotes *)

Section IdText.
Context `{Schema}.

(** The decimal text of a 32-bit integer reads as that integer, the decimal
    text of any other integer is rejected. *)
Lemma int4_text_show_Z (i : Z) :
  int4_text (show_Z i) = if in_int4 i then Some i else None.
Proof.
  destruct (Z.neg_nonneg_cases i) as [Hneg|Hpos].
  - destruct i as [|p|p]; try lia.
    rewrite show_Z_neg.
    destruct (show_Z_nonneg (Zpos p) ltac:(lia)) as [Hall Hval].
    pose proof (show_Z_nonempty (Zpos p) ltac:(lia)) as Hne.
    unfold int4_text, ascii_trim.
    assert (Htrim : trim_end (trim_start (String "-" (show_Z (Zpos p)))) =
                    String "-" (show_Z (Zpos p))).
    { cbn [trim_start]. change (is_space "-") with false. cbv iota.
      cbn [trim_end]. rewrite (trim_end_digits _ Hall).
      destruct (show_Z (Z.pos p)); [contradiction|reflexivity]. }
    rewrite Htrim. change (Ascii.eqb "-" "-") with true. cbv iota.
    unfold int4_digits. rewrite Hall, Hval.
    destruct (String.eqb_spec (show_Z (Z.pos p)) EmptyString) as [Habs|_]; [contradiction|].
    cbn [negb andb]. replace (-1 * Z.pos p) with (Z.neg p) by lia. reflexivity.
  - destruct (show_Z_nonneg i Hpos) as [Hall Hval].
    pose proof (show_Z_nonempty i Hpos) as Hne.
    unfold int4_text. rewrite (ascii_trim_digits _ Hall).
    destruct (show_Z i) as [|c ds] eqn:Hshow; [contradiction|].
    pose proof Hall as Hc. cbn [all_digits] in Hc. apply andb_true_iff in Hc as [Hc _].
    destruct (Ascii.eqb_spec c "-") as [->|_]; [discriminate Hc|].
    destruct (Ascii.eqb_spec c "+") as [->|_]; [discriminate Hc|].
    unfold int4_digits. rewrite Hall, Hval. cbn [String.eqb negb andb].
    rewrite Z.mul_1_l. reflexivity.
Qed.

Lemma int4_text_in_range (s : string) (i : Z) :
  int4_text s = Some i -> in_int4 i = true \/ int4_other s = Some i.
Proof.
  unfold int4_text.
  assert (Hd : forall sign ds, int4_digits sign ds s = Some i ->
                               in_int4 i = true \/ int4_other s = Some i).
  { intros sign ds. unfold int4_digits.
    destruct (all_digits ds && negb (String.eqb ds EmptyString)); [|auto].
    destruct (in_int4 (sign * digits_value ds)) eqn:Hr; [|discriminate].
    intros [= <-]. left. exact Hr. }
  destruct (ascii_trim s) as [|c ds]; [discriminate|].
  destruct (Ascii.eqb c "-"); [apply Hd|].
  destruct (Ascii.eqb c "+"); apply Hd.
Qed.

End IdText.

(** ** Statements on [vehicles] *)

Lemma bind_truthy (v : JValue) : truthy v = true -> bind v = v.
Proof. destruct v; simpl; intros Hv; (reflexivity || discriminate Hv). Qed.


Lemma has_id_set_mileage (p : JValue) (i : Z) (r : Vehicle.t) :
  has_id i (set_mileage p i r) = has_id i r.
Proof. unfold set_mileage. destruct (has_id i r) eqn:Hr; exact Hr. Qed.

Lemma unknown_id_has_id (i : Z) (rs : list Vehicle.t) :
  (forall r, In r rs -> Vehicle.id r <> i) -> forallb (fun r => negb (has_id i r)) rs = true.
Proof.
  intros Hrs. apply forallb_forall. intros r Hr.
  unfold has_id. destruct (Z.eqb_spec (Vehicle.id r) i) as [Hi|_]; [|reflexivity].
  destruct (Hrs r Hr Hi).
Qed.

Lemma filter_none {A : Type} (f : A -> bool) (l : list A) :
  forallb (fun x => negb (f x)) l = true -> List.filter f l = [].
Proof.
  induction l as [|x l IH]; simpl; [reflexivity|].
  intros Hl. apply andb_true_iff in Hl as [Hx Hl].
  destruct (f x); [discriminate Hx|]. exact (IH Hl).
Qed.

Lemma filter_all {A : Type} (f : A -> bool) (l : list A) :
  forallb f l = true -> List.filter f l = l.
Proof.
  induction l as [|x l IH]; simpl; [reflexivity|].
  intros Hl. apply andb_true_iff in Hl as [Hx Hl].
  rewrite Hx, (IH Hl). reflexivity.
Qed.


(** A row the UPDATE hit carries the identifier and the new mileage. *)
Lemma updated_row (p : JValue) (i : Z) (rs : list Vehicle.t) (r : Vehicle.t) :
  In r (List.filter (has_id i) (map (set_mileage p i) rs)) ->
  Vehicle.id r = i /\ Vehicle.mileage r = bind p.
Proof.
  intros Hr. apply filter_In in Hr as [Hin Hid].
  apply in_map_iff in Hin as (r0 & <- & _).
  rewrite has_id_set_mileage in Hid. unfold set_mileage. rewrite Hid. simpl.
  split; [|reflexivity]. unfold has_id in Hid. apply Z.eqb_eq in Hid. exact Hid.
Qed.

(** ** The handlers of the full revision, case by case *)

Section FullRevision.
Context `{Engine} `{Schema}.

Lemma post_vehicles_cases (fields : list (string * JValue)) (db : Db) :
  let b := JObj fields in
  Server.post_vehicles b db =
    if negb (truthy (get "year" b)) || negb (truthy (get "make" b))
       || negb (truthy (get "model" b))
    then (mkResponse 400 (error "year, make, and model are required"), db)
    else if vehicle_accepted (bound_row b db)
    then (mkResponse 201 (Vehicle.json (mileage_as_text (bound_row b db))),
          with_vehicle (bound_row b db) db)
    else (mkResponse 500 (error "Failed to save vehicle"), db).
Proof.
  intros b. unfold Server.post_vehicles.
  change (destructure b) with (Returned b). cbn [mbind Outcome_bind].
  destruct (truthy (get "year" b)) eqn:Hy; [|reflexivity].
  destruct (truthy (get "make" b)) eqn:Hm; [|reflexivity].
  destruct (truthy (get "model" b)) eqn:Ho; [|reflexivity].
  cbn [negb orb]. unfold insert_vehicle.
  rewrite (bind_truthy _ Hm), (bind_truthy _ Ho).
  destruct (miles_is_number (get "mileage" b)) as [n Hn].
  assert (Hrow : Vehicle.mk (vehicles_id_seq db) (bind (JNum (Number (get "year" b))))
                   (get "make" b) (get "model" b)
                   (bind (or_else (JNum (digits_of (get "mileage" b))) (JInt 0))) =
                 bound_row b db).
  { unfold bound_row. rewrite Hn. reflexivity. }
  rewrite Hrow. fold (vehicle_accepted (bound_row b db)).
  destruct (vehicle_accepted (bound_row b db)); reflexivity.
Qed.

Lemma patch_vehicle_cases (id : string) (req_body : JValue) (db : Db) :
  let miles := JNum (digits_of (opt_get "mileage" req_body)) in
  Server.patch_vehicle id req_body db =
    match int4_text id with
    | None => (mkResponse 500 (error "Failed to update vehicle"), db)
    | Some i =>
        let table := map (set_mileage miles i) (vehicles db) in
        let hit := List.filter (has_id i) table in
        if forallb vehicle_ok hit then
          let db' := mkDb table (vehicles_id_seq db) (service_history db)
                          (service_history_id_seq db) (vehicle_catalog db) in
          match hit with
          | [] => (mkResponse 404 (error "Vehicle not found"), db')
          | r :: _ => (mkResponse 200 (Vehicle.json (mileage_as_text r)), db')
          end
        else (mkResponse 500 (error "Failed to update vehicle"), db)
    end.
Proof.
  intros miles. unfold Server.patch_vehicle.
  rewrite digits_of_not_NaN. unfold update_mileage. fold miles.
  destruct (int4_text id) as [i|]; [|reflexivity].
  cbv zeta.
  destruct (forallb vehicle_ok _); [|reflexivity].
  cbn [mbind Outcome_bind rows try_catch]. rewrite length_map.
  destruct (List.filter _ _); reflexivity.
Qed.

Lemma delete_vehicle_cases (id : string) (db : Db) :
  Server.delete_vehicle id db =
    match int4_text id with
    | None => (mkResponse 500 (error "Failed to delete vehicle"), db)
    | Some i =>
        let after := mkDb (List.filter (fun r => negb (has_id i r)) (vehicles db))
                          (vehicles_id_seq db) (service_history db)
                          (service_history_id_seq db) (vehicle_catalog db) in
        match List.filter (has_id i) (vehicles db) with
        | [] => (mkResponse 404 (error "Vehicle not found"), after)
        | _ :: _ =>
            (mkResponse 200 (JObj [("success", JBool true); ("deletedId", JStr id)]), after)
        end
    end.
Proof.
  unfold Server.delete_vehicle, delete_vehicle_row.
  destruct (int4_text id) as [i|]; [|reflexivity].
  cbn [mbind Outcome_bind try_catch rowCount].
  destruct (List.filter (has_id i) (vehicles db)); reflexivity.
Qed.

End FullRevision.

(** ** Vehicles: create *)


Lemma json_mileage (r : Vehicle.t) : get "mileage" (Vehicle.json r) = Vehicle.mileage r.
Proof. reflexivity. Qed.

Lemma json_id (r : Vehicle.t) : get "id" (Vehicle.json r) = JInt (Vehicle.id r).
Proof. reflexivity. Qed.



(** The example of the specification: a Honda Civic of 2020 sent without a
    mileage is answered 201 with the mileage 0. *)
Example post_vehicles_honda_civic :
  @Server.post_vehicles ascii_engine permissive honda_civic_2020 empty_db =
    (mkResponse 201
       (JObj [("id", JInt 1); ("year", JInt 2020); ("make", JStr "Honda");
              ("model", JStr "Civic"); ("mileage", JStr "0")]),
     mkDb [Vehicle.mk 1 (JInt 2020) (JStr "Honda") (JStr "Civic") (JInt 0)] 2 [] 1 []).
Proof. reflexivity. Qed.

(** A mileage sent as a number keeps the digits of its text: the point of
    [12345.6] goes, its digits stay. *)
Example post_vehicles_fraction :
  fst (@Server.post_vehicles ascii_engine permissive
         (JObj [("year", JInt 2020); ("make", JStr "Honda"); ("model", JStr "Civic");
                ("mileage", JNum (Other "12345.6"))]) empty_db) =
    mkResponse 201
      (JObj [("id", JInt 1); ("year", JInt 2020); ("make", JStr "Honda");
             ("model", JStr "Civic"); ("mileage", JStr "123456")]).
Proof. reflexivity. Qed.




(** The minimal revision validates nothing: it never answers 400. *)
Lemma rev2_post_vehicles_never_400 `{Schema} (req_body : JValue) (db : Db)
    (answer : Response * Db) :
  ServerRev2.post_vehicles req_body db = Returned answer -> status (fst answer) <> 400.
Proof.
  unfold ServerRev2.post_vehicles.
  destruct (destructure req_body) as [|b]; cbn [mbind Outcome_bind]; [discriminate|].
  intros [= <-].
  destruct (insert_vehicle star _ _ _ _ db) as [|[result db']];
    cbn [mbind Outcome_bind try_catch fst status]; discriminate.
Qed.

(** ** Vehicles: update and delete *)

(** PATCH /api/vehicles/:id has no reachable 400: what [isNaN] tests is a
    number read from decimal digits only. *)
Lemma patch_vehicle_never_400 `{Engine} `{Schema} (id : string) (req_body : JValue) (db : Db) :
  status (fst (Server.patch_vehicle id req_body db)) <> 400.
Proof.
  pose proof (patch_vehicle_cases id req_body db) as Hcases. cbv zeta in Hcases.
  rewrite Hcases.
  destruct (int4_text id); [|discriminate].
  destruct (forallb vehicle_ok _); [|discriminate].
  destruct (List.filter _ _); discriminate.
Qed.

(** C1: the handler does not refuse a mileage that is not numeric.  Sent the
    mileage [abc] for an existing vehicle, it answers 200 and overwrites the
    stored mileage, 42000, with 0. *)
Theorem patch_vehicle_non_numeric_mileage :
  @Server.patch_vehicle ascii_engine permissive "1" (JObj [("mileage", JStr "abc")])
     two_vehicles =
    (mkResponse 200
       (Vehicle.json (Vehicle.mk 1 (JInt 2020) (JStr "Honda") (JStr "Civic") (JStr "0"))),
     mkDb [Vehicle.mk 1 (JInt 2020) (JStr "Honda") (JStr "Civic") (JInt 0); corolla]
          3 [] 1 []).
Proof. vm_compute. reflexivity. Qed.


Section UnknownId.
Context `{Engine} `{Schema}.


End UnknownId.



(** ** ORDER BY *)

Section OrderByFacts.
Context {A : Type} (leb : A -> A -> bool).
Hypothesis leb_total : forall a b, leb a b = true \/ leb b a = true.

Lemma insert_sorted_perm (x : A) (l : list A) : Permutation (insert_sorted leb x l) (x :: l).
Proof.
  induction l as [|y l IH]; simpl; [reflexivity|].
  destruct (leb x y); [reflexivity|].
  rewrite IH. apply perm_swap.
Qed.

Lemma order_by_perm (l : list A) : Permutation (order_by leb l) l.
Proof.
  induction l as [|x l IH]; simpl; [reflexivity|].
  rewrite insert_sorted_perm, IH. reflexivity.
Qed.

Lemma insert_sorted_HdRel (a x : A) (l : list A) :
  leb a x = true -> HdRel (fun u v => leb u v = true) a l ->
  HdRel (fun u v => leb u v = true) a (insert_sorted leb x l).
Proof.
  intros Hax Hal. destruct l as [|y l]; simpl; [constructor; exact Hax|].
  destruct (leb x y); constructor; [exact Hax|].
  inversion Hal; assumption.
Qed.

Lemma insert_sorted_Sorted (x : A) (l : list A) :
  Sorted (fun u v => leb u v = true) l ->
  Sorted (fun u v => leb u v = true) (insert_sorted leb x l).
Proof.
  induction l as [|y l IH]; simpl; intros Hl.
  - repeat constructor.
  - destruct (leb x y) eqn:Hxy.
    + constructor; [exact Hl|]. constructor. exact Hxy.
    + inversion Hl as [|? ? Hl' Hy]; subst. constructor; [exact (IH Hl')|].
      apply insert_sorted_HdRel; [|exact Hy].
      destruct (leb_total x y) as [Hc|Hc]; [congruence|exact Hc].
Qed.

Lemma order_by_Sorted (l : list A) : Sorted (fun u v => leb u v = true) (order_by leb l).
Proof.
  induction l as [|x l IH]; simpl; [constructor|].
  apply insert_sorted_Sorted, IH.
Qed.

End OrderByFacts.

Lemma Sorted_impl {A : Type} (R S : A -> A -> Prop) (l : list A) :
  (forall a b, R a b -> S a b) -> Sorted R l -> Sorted S l.
Proof.
  intros Himpl Hl. induction Hl as [|a l Hl IH Hd]; constructor; [exact IH|].
  destruct Hd; constructor. apply Himpl. assumption.
Qed.

Lemma id_desc_total (a b : Vehicle.t) : id_desc a b = true \/ id_desc b a = true.
Proof. unfold id_desc. rewrite !Z.leb_le. lia. Qed.

Lemma order_by_id_desc_newest_first (rs : list Vehicle.t) :
  newest_first (order_by id_desc rs).
Proof.
  unfold newest_first.
  assert (Hs : Sorted (fun a b => Vehicle.id b <= Vehicle.id a) (order_by id_desc rs)).
  { apply (Sorted_impl (fun a b => id_desc a b = true));
      [|exact (order_by_Sorted id_desc id_desc_total rs)].
    intros a b Hab. unfold id_desc in Hab. apply Z.leb_le in Hab. exact Hab. }
  apply Sorted_StronglySorted; [|exact Hs].
  intros a b c Hab Hbc. lia.
Qed.

(** ** Vehicles: list and delete-all *)

(** The full revision lists every vehicle row, most recent first. *)
Lemma get_vehicles_newest_first (db : Db) :
  exists out : list Vehicle.t,
    Server.get_vehicles db =
      (mkResponse 200 (JArr (map Vehicle.json (map mileage_as_text out))), db) /\
    Permutation out (vehicles db) /\
    newest_first out.
Proof.
  exists (order_by id_desc (vehicles db)). split; [reflexivity|]. split.
  - apply order_by_perm.
  - apply order_by_id_desc_newest_first.
Qed.

(** The minimal revision lists every vehicle row in the order of the scan. *)
Lemma rev2_get_vehicles_scan (db : Db) :
  ServerRev2.get_vehicles db = (mkResponse 200 (JArr (map Vehicle.json (vehicles db))), db).
Proof. reflexivity. Qed.

(** C7: the minimal revision does not order its listing.  With a vehicle 1
    created before a vehicle 2, its GET /api/vehicles answers vehicle 1 first,
    which is not most recent first. *)
Theorem rev2_get_vehicles_oldest_first :
  ServerRev2.get_vehicles two_vehicles =
    (mkResponse 200 (JArr [Vehicle.json civic; Vehicle.json corolla]), two_vehicles) /\
  ~ newest_first [civic; corolla].
Proof.
  split; [reflexivity|].
  unfold newest_first. intros Hs.
  inversion Hs as [|? ? _ Hall]; subst.
  inversion Hall as [|? ? Hle _]; subst.
  simpl in Hle. lia.
Qed.

Lemma delete_vehicles_all_cases `{Schema} (db : Db) :
  Server.delete_vehicles_all db =
    (mkResponse 200 (JObj [("success", JBool true); ("message", JStr "All vehicles deleted.")]),
     if cascade_to_service_history
     then mkDb [] 1 [] 1 (vehicle_catalog db)
     else mkDb [] 1 (service_history db) (service_history_id_seq db) (vehicle_catalog db)).
Proof. reflexivity. Qed.

(** C8: DELETE /api/vehicles/all empties the vehicles table and restarts its
    identifier sequence at 1, whatever the store held; a GET /api/vehicles
    that follows answers an empty array. *)
Theorem delete_all_then_list_is_empty `{Schema} (db : Db) :
  let after := snd (Server.delete_vehicles_all db) in
  status (fst (Server.delete_vehicles_all db)) = 200 /\
  vehicles after = [] /\
  vehicles_id_seq after = 1 /\
  Server.get_vehicles after = (mkResponse 200 (JArr []), after).
Proof.
  cbv zeta. rewrite delete_vehicles_all_cases. cbn [fst snd status].
  destruct cascade_to_service_history; repeat split.
Qed.

(** After delete-all the next vehicle created gets identifier 1 again. *)
Lemma delete_all_then_create (db : Db) :
  fst (@Server.post_vehicles ascii_engine permissive honda_civic_2020
         (snd (@Server.delete_vehicles_all permissive db))) =
    mkResponse 201
      (JObj [("id", JInt 1); ("year", JInt 2020); ("make", JStr "Honda");
             ("model", JStr "Civic"); ("mileage", JStr "0")]).
Proof. reflexivity. Qed.

(** ** What the mutating vehicle operations answer *)

(** C2, as stated, fails: deleting vehicle 1 answers the confirmation
    [{ success: true, deletedId: '1' }], which is no vehicle row. *)
Lemma delete_vehicle_returns_no_row :
  @Server.delete_vehicle permissive "1" two_vehicles =
    (mkResponse 200 (JObj [("success", JBool true); ("deletedId", JStr "1")]),
     mkDb [corolla] 3 [] 1 []) /\
  ~ returns_row (fst (@Server.delete_vehicle permissive "1" two_vehicles)).
Proof.
  split; [reflexivity|].
  intros [r Hr]. unfold Vehicle.json in Hr. simpl in Hr. discriminate Hr.
Qed.

(** C2, amended: creating a vehicle answers the row it added to the table,
    and updating a mileage answers a row of the table that has the
    identifier asked for, each with its mileage as text.  Deleting by
    identifier answers [{ success: true, deletedId }] with the path segment
    as it was written, and delete-all answers [{ success: true, message }];
    neither of the two carries a row. *)
Theorem mutation_responses `{Engine} `{Schema} :
  (forall fields db,
      let answer := Server.post_vehicles (JObj fields) db in
      status (fst answer) = 201 ->
      exists r, body (fst answer) = Vehicle.json (mileage_as_text r) /\
                vehicles (snd answer) = (vehicles db ++ [r])%list) /\
  (forall id req_body db,
      let answer := Server.patch_vehicle id req_body db in
      status (fst answer) = 200 ->
      exists r i, body (fst answer) = Vehicle.json (mileage_as_text r) /\
                  In r (vehicles (snd answer)) /\
                  int4_text id = Some i /\ Vehicle.id r = i) /\
  (forall id db,
      let answer := Server.delete_vehicle id db in
      status (fst answer) = 200 ->
      body (fst answer) = JObj [("success", JBool true); ("deletedId", JStr id)] /\
      ~ returns_row (fst answer)) /\
  (forall db,
      let answer := Server.delete_vehicles_all db in
      fst answer =
        mkResponse 200 (JObj [("success", JBool true);
                              ("message", JStr "All vehicles deleted.")]) /\
      ~ returns_row (fst answer)).
Proof.
  split; [|split; [|split]].
  - intros fields db answer Hst.
    pose proof (post_vehicles_cases fields db) as Hcases. cbv zeta in Hcases.
    fold answer in Hcases. rewrite Hcases in Hst |- *.
    destruct (negb _ || negb _ || negb _); [discriminate Hst|].
    destruct (vehicle_accepted _); [|discriminate Hst].
    eexists. split; reflexivity.
  - intros id req_body db answer Hst.
    pose proof (patch_vehicle_cases id req_body db) as Hcases. cbv zeta in Hcases.
    fold answer in Hcases. rewrite Hcases in Hst |- *.
    destruct (int4_text id) as [i|]; [|discriminate Hst].
    destruct (forallb vehicle_ok _); [|discriminate Hst].
    destruct (List.filter _ _) as [|r hit] eqn:Hhit; [discriminate Hst|].
    exists r, i. cbn [fst snd body vehicles]. split; [reflexivity|].
    assert (Hr : In r (List.filter (has_id i)
                   (map (set_mileage (JNum (digits_of (opt_get "mileage" req_body))) i)
                        (vehicles db)))).
    { rewrite Hhit. left. reflexivity. }
    split; [|split; [reflexivity|]].
    + apply filter_In in Hr as [Hr _]. exact Hr.
    + apply updated_row in Hr. apply Hr.
  - intros id db answer Hst.
    pose proof (delete_vehicle_cases id db) as Hcases. cbv zeta in Hcases.
    fold answer in Hcases. rewrite Hcases in Hst |- *.
    destruct (int4_text id) as [i|]; [|discriminate Hst].
    destruct (List.filter _ _); [discriminate Hst|].
    cbn [fst body]. split; [reflexivity|].
    intros [r Hr]. cbn [body] in Hr. discriminate Hr.
  - intros db answer. unfold answer. rewrite delete_vehicles_all_cases. cbn [fst].
    split; [reflexivity|].
    intros [r Hr]. cbn [body] in Hr. discriminate Hr.
Qed.

Lemma mutation_responses_witness :
  (fst (@Server.post_vehicles ascii_engine permissive honda_civic_2020 two_vehicles) =
     mkResponse 201
       (JObj [("id", JInt 3); ("year", JInt 2020); ("make", JStr "Honda");
              ("model", JStr "Civic"); ("mileage", JStr "0")]) /\
   fst (@Server.patch_vehicle ascii_engine permissive "2" (JObj [("mileage", JStr "13,000 mi")])
          two_vehicles) =
     mkResponse 200
       (JObj [("id", JInt 2); ("year", JInt 2021); ("make", JStr "Toyota");
              ("model", JStr "Corolla"); ("mileage", JStr "13000")])) /\
  (exists r, body (fst (@Server.post_vehicles ascii_engine permissive honda_civic_2020
                          two_vehicles)) = Vehicle.json (mileage_as_text r) /\
             vehicles (snd (@Server.post_vehicles ascii_engine permissive honda_civic_2020
                              two_vehicles)) = [civic; corolla; r]) /\
  (exists r i, body (fst (@Server.patch_vehicle ascii_engine permissive "2"
                            (JObj [("mileage", JStr "13,000 mi")]) two_vehicles)) =
                 Vehicle.json (mileage_as_text r) /\
               In r (vehicles (snd (@Server.patch_vehicle ascii_engine permissive "2"
                                      (JObj [("mileage", JStr "13,000 mi")]) two_vehicles))) /\
               @int4_text permissive "2" = Some i /\ Vehicle.id r = i) /\
  (body (fst (@Server.delete_vehicle permissive "1" two_vehicles)) =
     JObj [("success", JBool true); ("deletedId", JStr "1")] /\
   ~ returns_row (fst (@Server.delete_vehicle permissive "1" two_vehicles))) /\
  (fst (@Server.delete_vehicles_all permissive two_vehicles) =
     mkResponse 200 (JObj [("success", JBool true); ("message", JStr "All vehicles deleted.")]) /\
   ~ returns_row (fst (@Server.delete_vehicles_all permissive two_vehicles))).
Proof.
  destruct (@mutation_responses ascii_engine permissive) as (Hpost & Hpatch & Hdelete & Hall).
  split; [split; reflexivity|]. split; [|split; [|split]].
  - exact (Hpost [("year", JInt 2020); ("make", JStr "Honda"); ("model", JStr "Civic")]
                 two_vehicles eq_refl).
  - exact (Hpatch "2" (JObj [("mileage", JStr "13,000 mi")]) two_vehicles eq_refl).
  - exact (Hdelete "1" two_vehicles eq_refl).
  - exact (Hall two_vehicles).
Defined.

(** The path segment goes back as it was written: white space the [id]
    column skips is still in [deletedId]. *)
Example delete_vehicle_echoes_segment :
  @Server.delete_vehicle permissive " 1" two_vehicles =
    (mkResponse 200 (JObj [("success", JBool true); ("deletedId", JStr " 1")]),
     mkDb [corolla] 3 [] 1 []).
Proof. reflexivity. Qed.

(** ** Service history: create *)

Lemma bind_or_null (v : JValue) : bind (or_else v JNull) = or_else v JNull.
Proof.
  unfold or_else. destruct (truthy v) eqn:Hv; [apply bind_truthy, Hv|reflexivity].
Qed.

Lemma or_null_falsy (v : JValue) : truthy v = false -> or_else v JNull = JNull.
Proof. unfold or_else. intros ->. reflexivity. Qed.

Lemma post_services_cases `{Schema} (fields : list (string * JValue)) (db : Db) :
  let b := JObj fields in
  Server.post_services b db =
    if negb (truthy (get "vehicle_id" b)) || negb (truthy (get "service_name" b))
    then (mkResponse 400 (error "vehicle_id and service_name are required"), db)
    else if service_accepted (bound_service b db)
    then (mkResponse 201 (Service.json (bound_service b db)),
          with_service (bound_service b db) db)
    else (mkResponse 500 (error "Failed to create service record"), db).
Proof.
  intros b. unfold Server.post_services.
  change (destructure b) with (Returned b). cbn [mbind Outcome_bind].
  destruct (truthy (get "vehicle_id" b)) eqn:Hv; [|reflexivity].
  destruct (truthy (get "service_name" b)) eqn:Hn; [|reflexivity].
  cbn [negb orb]. unfold insert_service.
  rewrite (bind_truthy _ Hv), (bind_truthy _ Hn), !bind_or_null.
  fold (bound_service b db). fold (service_accepted (bound_service b db)).
  destruct (service_accepted (bound_service b db)); reflexivity.
Qed.

(** C10: when POST /api/services creates a record, it is answered 201 and
    the record is the last of the table; each of interval, service_date,
    cost and notes that was sent with a falsy value, as 0 or the empty
    string, or not sent at all, is NULL in the record stored and null in the
    record answered.  A cost of 0 is stored and answered as null. *)
Theorem post_services_falsy_to_null `{Schema} (fields : list (string * JValue)) (db : Db) :
  let b := JObj fields in
  let answer := Server.post_services b db in
  truthy (get "vehicle_id" b) = true ->
  truthy (get "service_name" b) = true ->
  service_accepted (bound_service b db) = true ->
  status (fst answer) = 201 /\
  exists r : Service.t,
    service_history (snd answer) = (service_history db ++ [r])%list /\
    (truthy (get "interval" b) = false ->
     Service.interval r = JNull /\ get "interval" (body (fst answer)) = JNull) /\
    (truthy (get "service_date" b) = false ->
     Service.service_date r = JNull /\ get "service_date" (body (fst answer)) = JNull) /\
    (truthy (get "cost" b) = false ->
     Service.cost r = JNull /\ get "cost" (body (fst answer)) = JNull) /\
    (truthy (get "notes" b) = false ->
     Service.notes r = JNull /\ get "notes" (body (fst answer)) = JNull) /\
    (get "cost" b = JInt 0 ->
     Service.cost r = JNull /\ get "cost" (body (fst answer)) = JNull).
Proof.
  intros b answer Hv Hn Hok.
  pose proof (post_services_cases fields db) as Hcases. cbv zeta in Hcases.
  fold b in Hcases. fold answer in Hcases. rewrite Hv, Hn, Hok in Hcases.
  cbn [negb orb] in Hcases. rewrite Hcases. cbn [fst snd status body].
  split; [reflexivity|]. exists (bound_service b db).
  split; [reflexivity|].
  assert (Hcell : forall v, truthy v = false -> or_else v JNull = JNull)
    by exact or_null_falsy.
  unfold bound_service, Service.json.
  cbn [Service.interval Service.service_date Service.cost Service.notes get fold_left
       fst snd String.eqb Ascii.eqb Bool.eqb].
  repeat split; try (apply Hcell; assumption).
  - match goal with Hc : get "cost" b = JInt 0 |- _ => rewrite Hc end. reflexivity.
  - match goal with Hc : get "cost" b = JInt 0 |- _ => rewrite Hc end. reflexivity.
Qed.

Lemma post_services_falsy_to_null_witness :
  let b := JObj [("vehicle_id", JInt 1); ("service_name", JStr "Oil change");
                 ("interval", JInt 0); ("service_date", JStr EmptyString);
                 ("cost", JInt 0); ("notes", JStr EmptyString)] in
  @Server.post_services permissive b two_vehicles =
    (mkResponse 201
       (JObj [("id", JInt 1); ("vehicle_id", JInt 1); ("service_name", JStr "Oil change");
              ("mileage", JNull); ("interval", JNull); ("service_date", JNull);
              ("cost", JNull); ("notes", JNull)]),
     mkDb [civic; corolla] 3
          [Service.mk 1 (JInt 1) (JStr "Oil change") JNull JNull JNull JNull JNull] 2 []) /\
  status (fst (@Server.post_services permissive b two_vehicles)) = 201 /\
  exists r : Service.t,
    service_history (snd (@Server.post_services permissive b two_vehicles)) = [r] /\
    (truthy (JInt 0) = false ->
     Service.interval r = JNull /\
     get "interval" (body (fst (@Server.post_services permissive b two_vehicles))) = JNull) /\
    (truthy (JStr EmptyString) = false ->
     Service.service_date r = JNull /\
     get "service_date" (body (fst (@Server.post_services permissive b two_vehicles))) = JNull) /\
    (truthy (JInt 0) = false ->
     Service.cost r = JNull /\
     get "cost" (body (fst (@Server.post_services permissive b two_vehicles))) = JNull) /\
    (truthy (JStr EmptyString) = false ->
     Service.notes r = JNull /\
     get "notes" (body (fst (@Server.post_services permissive b two_vehicles))) = JNull) /\
    (JInt 0 = JInt 0 ->
     Service.cost r = JNull /\
     get "cost" (body (fst (@Server.post_services permissive b two_vehicles))) = JNull).
Proof.
  cbv zeta. split; [reflexivity|].
  exact (@post_services_falsy_to_null permissive
           [("vehicle_id", JInt 1); ("service_name", JStr "Oil change");
            ("interval", JInt 0); ("service_date", JStr EmptyString);
            ("cost", JInt 0); ("notes", JStr EmptyString)]
           two_vehicles eq_refl eq_refl eq_refl).
Defined.

(** A record sent with cost 0 and nothing else that is optional. *)
Example post_services_oil_change :
  @Server.post_services permissive oil_change_free two_vehicles =
    (mkResponse 201
       (JObj [("id", JInt 1); ("vehicle_id", JInt 1); ("service_name", JStr "Oil change");
              ("mileage", JNull); ("interval", JNull); ("service_date", JNull);
              ("cost", JNull); ("notes", JNull)]),
     mkDb [civic; corolla] 3
          [Service.mk 1 (JInt 1) (JStr "Oil change") JNull JNull JNull JNull JNull] 2 []).
Proof. reflexivity. Qed.

(** The mileage of a service record is bound as sent: a mileage 0 stays 0. *)
Lemma post_services_mileage_kept (fields : list (string * JValue)) (db : Db) :
  Service.mileage (bound_service (JObj fields) db) = bind (get "mileage" (JObj fields)).
Proof. reflexivity. Qed.

(** ** Catalog ingestion: the models of one page *)

Section Pages.
Context `{Engine}.

Lemma opt_get_get (k : string) (o : JValue) : opt_get k o = get k o.
Proof. destruct o; reflexivity. Qed.

Lemma trim_empty : trim EmptyString = EmptyString.
Proof. reflexivity. Qed.

(** On an entry as the API sends it, the name the code reads is the name the
    entry carries. *)
Lemma model_name_entry (r : JValue) :
  names_text r -> Ingest.model_name r = Returned (entry_name r).
Proof.
  unfold names_text, Ingest.model_name, entry_name. rewrite opt_get_get.
  destruct (get "Model_Name" r) as [| |b|n|s|items|fields] eqn:Hname;
    try (intros Hfalsy; unfold or_else; rewrite Hfalsy; reflexivity).
  intros _. unfold or_else. cbn [truthy].
  destruct (String.eqb_spec s EmptyString) as [->|_]; reflexivity.
Qed.

Lemma page_names_cons (r : JValue) (rest : list JValue) :
  page_names (r :: rest) =
    if String.eqb (entry_name r) EmptyString then page_names rest
    else entry_name r :: page_names rest.
Proof.
  unfold page_names. cbn [map List.filter].
  destruct (String.eqb (entry_name r) EmptyString); reflexivity.
Qed.

Lemma first_occurrences_from (names : list string) :
  first_occurrences names = first_from [] names.
Proof. reflexivity. Qed.

Lemma first_from_nil (before : list string) : first_from before [] = [].
Proof. reflexivity. Qed.

Lemma first_from_cons (before : list string) (n : string) (rest : list string) :
  first_from before (n :: rest) =
    ((if existsb (same_ignoring_case n) before then [] else [n]) ++
     first_from (before ++ [n]) rest)%list.
Proof.
  unfold first_from. rewrite imap_cons. cbn [take]. rewrite app_nil_r.
  assert (Hrest : imap ((fun i m => if existsb (same_ignoring_case m)
                                         (before ++ take i (n :: rest))
                                    then None else Some m) ∘ S) rest =
                  imap (fun i m => if existsb (same_ignoring_case m)
                                        ((before ++ [n]) ++ take i rest)
                                   then None else Some m) rest).
  { apply imap_ext. intros i m _. cbn. rewrite <- app_assoc. reflexivity. }
  rewrite Hrest. cbn [omap].
  destruct (existsb (same_ignoring_case n) before); reflexivity.
Qed.

Lemma same_ignoring_case_spec (a b : string) :
  same_ignoring_case a b = true <-> toLowerCase a = toLowerCase b.
Proof. unfold same_ignoring_case. apply String.eqb_eq. Qed.

Lemma seen_before (before : list string) (n : string) :
  existsb (same_ignoring_case n) before = true <->
  exists m, In m before /\ toLowerCase m = toLowerCase n.
Proof.
  rewrite existsb_exists. split.
  - intros (m & Hm & Hsame). exists m. split; [exact Hm|].
    apply same_ignoring_case_spec in Hsame. symmetry. exact Hsame.
  - intros (m & Hm & Hkey). exists m. split; [exact Hm|].
    apply same_ignoring_case_spec. symmetry. exact Hkey.
Qed.

(** The loop, started with [seen] holding the keys of the names met so far
    and [models] the names kept so far, appends the first occurrences among
    the names that follow. *)
Lemma collect_first_from (results : list JValue) :
  forall (seen : gset string) (models before : list string),
    Forall names_text results ->
    (forall k, k ∈ seen <-> exists m, In m before /\ toLowerCase m = k) ->
    Ingest.collect results seen models =
      Returned (models ++ first_from before (page_names results))%list.
Proof.
  induction results as [|r rest IH]; intros seen models before Hnamed Hseen.
  - cbn [Ingest.collect]. rewrite first_from_nil, app_nil_r. reflexivity.
  - apply Forall_cons in Hnamed as [Hr Hnamed].
    cbn [Ingest.collect]. rewrite (model_name_entry r Hr). cbn [mbind Outcome_bind].
    rewrite page_names_cons.
    destruct (String.eqb (entry_name r) EmptyString).
    { exact (IH seen models before Hnamed Hseen). }
    rewrite first_from_cons.
    destruct (decide (toLowerCase (entry_name r) ∈ seen)) as [Hin|Hnew].
    + assert (Hmet : existsb (same_ignoring_case (entry_name r)) before = true).
      { apply seen_before. apply Hseen in Hin. exact Hin. }
      rewrite Hmet. cbn [app]. apply IH; [exact Hnamed|].
      intros k. rewrite Hseen. split.
      * intros (m & Hm & Hk). exists m. split; [apply in_or_app; left; exact Hm|exact Hk].
      * intros (m & Hm & Hk). apply in_app_or in Hm as [Hm|[<-|[]]].
        -- exists m. split; assumption.
        -- apply Hseen. rewrite <- Hk. exact Hin.
    + assert (Hmet : existsb (same_ignoring_case (entry_name r)) before = false).
      { apply not_true_iff_false. intros Hmet. apply Hnew, Hseen, seen_before, Hmet. }
      rewrite Hmet. rewrite (IH ({[toLowerCase (entry_name r)]} ∪ seen)
                               (models ++ [entry_name r])%list
                               (before ++ [entry_name r])%list Hnamed).
      { rewrite <- app_assoc. reflexivity. }
      intros k. rewrite elem_of_union, elem_of_singleton, Hseen. split.
      * intros [->|(m & Hm & Hk)].
        -- exists (entry_name r). split; [apply in_or_app; right; left|]; reflexivity.
        -- exists m. split; [apply in_or_app; left; exact Hm|exact Hk].
      * intros (m & Hm & Hk). apply in_app_or in Hm as [Hm|[<-|[]]].
        -- right. exists m. split; assumption.
        -- left. symmetry. exact Hk.
Qed.

(** What the first occurrences are: names of the list, none equal ignoring
    case to a name met before or to another of them, and with the names met
    before they stand for every name of the list. *)
Lemma first_from_spec (names : list string) :
  forall before : list string,
    (forall m, In m (first_from before names) ->
               In m names /\ existsb (same_ignoring_case m) before = false) /\
    NoDup (map toLowerCase (first_from before names)) /\
    (forall n, In n names ->
               existsb (same_ignoring_case n) before = true \/
               exists m, In m (first_from before names) /\ same_ignoring_case n m = true).
Proof.
  induction names as [|n rest IH]; intros before.
  - rewrite first_from_nil. split; [intros m []|]. split; [constructor|]. intros m [].
  - rewrite first_from_cons.
    destruct (IH (before ++ [n])%list) as (Hin & Hnd & Hall).
    assert (Hlater : forall m, In m (first_from (before ++ [n]) rest) ->
                               In m rest /\
                               existsb (same_ignoring_case m) before = false /\
                               same_ignoring_case m n = false).
    { intros m Hm. destruct (Hin m Hm) as [Hrest Hnew].
      rewrite existsb_app in Hnew. apply orb_false_iff in Hnew as [Hb Hn].
      cbn [existsb] in Hn. rewrite orb_false_r in Hn. auto. }
    split; [|split].
    + intros m Hm. apply in_app_or in Hm as [Hm|Hm].
      * destruct (existsb (same_ignoring_case n) before) eqn:Hmet; [destruct Hm|].
        destruct Hm as [<-|[]]. split; [left; reflexivity|exact Hmet].
      * destruct (Hlater m Hm) as (Hrest & Hb & _). split; [right; exact Hrest|exact Hb].
    + rewrite map_app. apply NoDup_app. repeat split.
      * destruct (existsb (same_ignoring_case n) before); cbn [map];
          [constructor|apply NoDup_singleton].
      * intros k Hk Hk'.
        destruct (existsb (same_ignoring_case n) before); cbn [map] in Hk;
          [inversion Hk|].
        apply list_elem_of_singleton in Hk. subst k.
        apply list_elem_of_In, in_map_iff in Hk' as (m & Hkey & Hm).
        destruct (Hlater m Hm) as (_ & _ & Hdiff).
        apply not_true_iff_false in Hdiff. apply Hdiff, same_ignoring_case_spec, Hkey.
      * exact Hnd.
    + intros m [<-|Hm].
      * destruct (existsb (same_ignoring_case n) before) eqn:Hmet; [left; reflexivity|].
        right. exists n. split; [apply in_or_app; left; left; reflexivity|].
        apply same_ignoring_case_spec. reflexivity.
      * destruct (Hall m Hm) as [Hmet|(m' & Hm' & Hsame)].
        -- rewrite existsb_app in Hmet. apply orb_true_iff in Hmet as [Hmet|Hmet];
             [left; exact Hmet|].
           cbn [existsb] in Hmet. rewrite orb_false_r in Hmet.
           destruct (existsb (same_ignoring_case n) before) eqn:Hn.
           ++ left. apply seen_before. apply seen_before in Hn as (x & Hx & Hkey).
              exists x. split; [exact Hx|]. apply same_ignoring_case_spec in Hmet. congruence.
           ++ right. exists n. split; [apply in_or_app; left; left; reflexivity|exact Hmet].
        -- right. exists m'. split; [apply in_or_app; right; exact Hm'|exact Hsame].
Qed.

Lemma page_names_nonempty (results : list JValue) :
  Forall (fun m => m <> EmptyString) (page_names results).
Proof.
  apply Forall_forall. intros m Hm.
  apply list_elem_of_In, filter_In in Hm as [_ Hm].
  intros ->. discriminate Hm.
Qed.

Lemma getModelsForMakeYear_page (data : JValue) (results : list JValue) :
  get "Results" data = JArr results ->
  Forall names_text results ->
  Ingest.getModelsForMakeYear data = Returned (first_occurrences (page_names results)).
Proof.
  intros Hdata Hnamed. unfold Ingest.getModelsForMakeYear.
  rewrite opt_get_get, Hdata. cbn [or_else truthy Ingest.iterate mbind Outcome_bind].
  rewrite (collect_first_from results ∅ [] [] Hnamed); [reflexivity|].
  intros k. split; [intros Hk; apply elem_of_empty in Hk; destruct Hk|].
  intros (m & [] & _).
Qed.

End Pages.

(** C9: from the entries of one page, [getModelsForMakeYear] returns the
    first occurrences of the page's names: the names are the [Model_Name]s
    without the white space around them, the empty ones dropped, and a name
    stays when no name before it on the page is equal to it ignoring case.
    So no returned model is empty, no two returned models are equal ignoring
    case, and every name of the page is equal ignoring case to a returned
    model. *)
Theorem getModelsForMakeYear_dedupes `{Engine} (data : JValue) (results : list JValue) :
  get "Results" data = JArr results ->
  Forall names_text results ->
  exists models : list string,
    Ingest.getModelsForMakeYear data = Returned models /\
    models = first_occurrences (page_names results) /\
    Forall (fun m => m <> EmptyString) models /\
    (forall i j a b, models !! i = Some a -> models !! j = Some b ->
                     toLowerCase a = toLowerCase b -> i = j) /\
    (forall n, In n (page_names results) ->
               exists m, In m models /\ toLowerCase n = toLowerCase m).
Proof.
  intros Hdata Hnamed. exists (first_occurrences (page_names results)).
  split; [exact (getModelsForMakeYear_page data results Hdata Hnamed)|].
  split; [reflexivity|].
  rewrite first_occurrences_from.
  destruct (first_from_spec (page_names results) []) as (Hin & Hnd & Hall).
  split; [|split].
  - apply Forall_forall. intros m Hm. apply list_elem_of_In, Hin in Hm as [Hm _].
    pose proof (page_names_nonempty results) as Hne. rewrite Forall_forall in Hne.
    apply Hne, list_elem_of_In, Hm.
  - intros i j a b Hi Hj Hkey.
    apply (proj1 (NoDup_alt _) Hnd i j (toLowerCase a)).
    + rewrite list_lookup_fmap, Hi. reflexivity.
    + rewrite list_lookup_fmap, Hj, Hkey. reflexivity.
  - intros n Hn. destruct (Hall n Hn) as [Hmet|(m & Hm & Hsame)]; [discriminate Hmet|].
    exists m. split; [exact Hm|]. apply same_ignoring_case_spec, Hsame.
Qed.

Lemma getModelsForMakeYear_dedupes_witness :
  (@Ingest.getModelsForMakeYear ascii_engine (JObj [("Count", JInt 8); ("Results", JArr page)]) =
     Returned ["Civic"; "Accord"] /\
   @Ingest.getModelsForMakeYear ascii_engine
      (JObj [("Results", JArr [entry "a"; entry "B"; entry "a"; entry "b "])]) =
     Returned ["a"; "B"]) /\
  exists models : list string,
    @Ingest.getModelsForMakeYear ascii_engine (JObj [("Count", JInt 8); ("Results", JArr page)]) =
      Returned models /\
    models = @first_occurrences ascii_engine (@page_names ascii_engine page) /\
    Forall (fun m => m <> EmptyString) models /\
    (forall i j a b, models !! i = Some a -> models !! j = Some b ->
                     @toLowerCase ascii_engine a = @toLowerCase ascii_engine b -> i = j) /\
    (forall n, In n (@page_names ascii_engine page) ->
               exists m, In m models /\ @toLowerCase ascii_engine n = @toLowerCase ascii_engine m).
Proof.
  split; [split; reflexivity|].
  apply (@getModelsForMakeYear_dedupes ascii_engine
           (JObj [("Count", JInt 8); ("Results", JArr page)]) page).
  - reflexivity.
  - unfold page. repeat constructor.
Defined.

(** A response without [Results] gives no model. *)
Example getModelsForMakeYear_no_results :
  @Ingest.getModelsForMakeYear ascii_engine JNull = Returned [] /\
  @Ingest.getModelsForMakeYear ascii_engine (JObj [("Count", JInt 0)]) = Returned [].
Proof. split; reflexivity. Qed.

(** The names of the page of the examples, and their first occurrences. *)
Example page_first_occurrences :
  @page_names ascii_engine page = ["Civic"; "civic"; "Accord"; "CIVIC"; "ACCORD"] /\
  @first_occurrences ascii_engine (@page_names ascii_engine page) = ["Civic"; "Accord"].
Proof. split; reflexivity. Qed.

(** ** LIKE and partial match *)

Lemma append_cons (c : ascii) (s t : string) : String c s ++ t = String c (s ++ t).
Proof. reflexivity. Qed.

Lemma append_nil_r (s : string) : s ++ EmptyString = s.
Proof. induction s as [|c s IH]; [reflexivity|]. rewrite append_cons, IH. reflexivity. Qed.

Lemma append_assoc (s t u : string) : (s ++ t) ++ u = s ++ t ++ u.
Proof.
  induction s as [|c s IH]; [reflexivity|]. rewrite !append_cons, IH. reflexivity.
Qed.


Lemma ascii_lower_append (s t : string) :
  ascii_lower (s ++ t) = ascii_lower s ++ ascii_lower t.
Proof.
  induction s as [|c s IH]; [reflexivity|].
  rewrite append_cons. simpl. rewrite IH, append_cons. reflexivity.
Qed.

Lemma is_ascii_append (s t : string) : is_ascii (s ++ t) = is_ascii s && is_ascii t.
Proof.
  induction s as [|c s IH]; [reflexivity|].
  rewrite append_cons. cbn [is_ascii]. rewrite IH, andb_assoc. reflexivity.
Qed.

Lemma is_wildcard_lower_char (c : ascii) : is_wildcard (lower_char c) = is_wildcard c.
Proof. destruct c as [[] [] [] [] [] [] [] []]; reflexivity. Qed.

Lemma plain_ascii_lower (s : string) : plain (ascii_lower s) = plain s.
Proof.
  induction s as [|c s IH]; [reflexivity|].
  simpl. rewrite is_wildcard_lower_char, IH. reflexivity.
Qed.

(** [%] at the head of a pattern: the rest of the pattern matches the text
    from some position on. *)
Lemma like_percent_unfold (p t : string) :
  like (String "%" p) t =
    like p t || match t with
                | EmptyString => false
                | String _ t' => like (String "%" p) t'
                end.
Proof. destruct t; reflexivity. Qed.

Lemma like_percent (p t : string) :
  like (String "%" p) t = true <->
  exists pre rest, t = pre ++ rest /\ like p rest = true.
Proof.
  induction t as [|c t IH]; rewrite like_percent_unfold.
  - rewrite orb_false_r. split.
    + intros Hp. exists EmptyString, EmptyString. split; [reflexivity|exact Hp].
    + intros (pre & rest & Hsplit & Hp).
      destruct pre; [|discriminate Hsplit].
      change (EmptyString = rest) in Hsplit. subst rest. exact Hp.
  - rewrite orb_true_iff, IH. split.
    + intros [Hp|(pre & rest & -> & Hp)].
      * exists EmptyString, (String c t). split; [reflexivity|exact Hp].
      * exists (String c pre), rest. split; [reflexivity|exact Hp].
    + intros (pre & rest & Hsplit & Hp).
      destruct pre as [|d pre].
      * left. change (String c t = rest) in Hsplit. subst rest. exact Hp.
      * right. rewrite append_cons in Hsplit. injection Hsplit as -> ->.
        exists pre, rest. split; [reflexivity|exact Hp].
Qed.

(** A plain character at the head of a pattern matches itself. *)
Lemma like_plain_char (c : ascii) (p t : string) :
  is_wildcard c = false ->
  like (String c p) t =
    match t with
    | EmptyString => false
    | String d t' => Ascii.eqb c d && like p t'
    end.
Proof.
  unfold is_wildcard. intros Hc.
  apply orb_false_iff in Hc as [Hc Hb]. apply orb_false_iff in Hc as [Hp Hu].
  cbn [like]. rewrite Hp, Hu, Hb. reflexivity.
Qed.

Lemma like_plain_prefix (s p t : string) :
  plain s = true ->
  like (s ++ p) t = true <-> exists rest, t = s ++ rest /\ like p rest = true.
Proof.
  revert t. induction s as [|c s IH]; intros t Hs.
  - split.
    + intros Hp. exists t. split; [reflexivity|exact Hp].
    + intros (rest & -> & Hp). exact Hp.
  - cbn [plain] in Hs. apply andb_true_iff in Hs as [Hc Hs].
    apply negb_true_iff in Hc.
    rewrite append_cons, (like_plain_char c _ t Hc).
    destruct t as [|d t].
    + split; [discriminate|]. intros (rest & Hsplit & _). discriminate Hsplit.
    + rewrite andb_true_iff, (IH t Hs). split.
      * intros [Hcd (rest & -> & Hp)]. apply Ascii.eqb_eq in Hcd. subst d.
        exists rest. split; [reflexivity|exact Hp].
      * intros (rest & Hsplit & Hp). rewrite append_cons in Hsplit.
        injection Hsplit as -> ->. split; [apply Ascii.eqb_refl|].
        exists rest. split; [reflexivity|exact Hp].
Qed.





(** ** The catalog query *)




Section CatalogFacts.
Context `{Engine} `{Collation}.








Lemma where_catalog_conditions (year make model : JValue) (r : CatalogRow.t) :
  where_ (Server.catalog_conditions year make model) r =
    (if truthy year then holds r (YearEq (Number year)) else true) &&
    ((if truthy make then holds r (MakeILike ("%" ++ String_ make ++ "%")) else true) &&
     (if truthy model then holds r (ModelILike ("%" ++ String_ model ++ "%")) else true)).
Proof.
  unfold where_, Server.catalog_conditions. rewrite !forallb_app.
  destruct (truthy year), (truthy make), (truthy model); cbn [forallb];
    rewrite ?andb_true_r; reflexivity.
Qed.






End CatalogFacts.




(** Asked for make [Toy], the endpoint answers the Toyota row and no other. *)
Example get_catalog_make_toy :
  @Server.get_catalog ascii_engine byte_order (JObj [("make", JStr "Toy")]) catalog_db =
    (mkResponse 200 (JArr [CatalogRow.json catalog_camry]), catalog_db) /\
  contains_ignoring_case "Toyota" "Toy".
Proof.
  split; [vm_compute; reflexivity|].
  exists EmptyString, "ota". reflexivity.
Qed.

(** Of 50,001 rows that match, 50,000 come back. *)
Example get_catalog_caps :
  match body (fst (@Server.get_catalog ascii_engine byte_order (JObj [])
                     (mkDb [] 1 [] 1 (repeat catalog_civic (Z.to_nat 50001))))) with
  | JArr rows => Z.of_nat (length rows)
  | _ => -1
  end = 50000.
Proof. vm_compute. reflexivity. Qed.

(** * Further properties of the code *)

(** X9: the mileage a listing shows, sent back as it is, reads as the mileage
    that is stored, for every stored mileage up to 2^53: POST and PATCH then
    bind the stored number again. *)
Theorem listed_mileage_reads_back `{Engine} (r : Vehicle.t) (n : Z) :
  Vehicle.mileage r = JInt n -> 0 <= n <= 9007199254740992 ->
  Vehicle.mileage (mileage_as_text r) = JStr (show_Z n) /\
  decimal_value (digit_characters (show_Z n)) = n /\
  digits_of (Vehicle.mileage (mileage_as_text r)) = Int n /\
  or_else (JNum (digits_of (Vehicle.mileage (mileage_as_text r)))) (JInt 0) = JInt n.
Proof.
  intros Hr [Hn Hsafe]. destruct (show_Z_nonneg n Hn) as [Hall Hval].
  assert (Htext : Vehicle.mileage (mileage_as_text r) = JStr (show_Z n)).
  { unfold mileage_as_text. cbn [Vehicle.mileage]. rewrite Hr. reflexivity. }
  assert (Hdigits : digit_characters (show_Z n) = show_Z n).
  { rewrite <- keep_digits_characters. apply keep_digits_id, Hall. }
  assert (Hread : digits_of (JStr (show_Z n)) = Int n).
  { unfold digits_of. cbn [nullish String_]. rewrite (keep_digits_id _ Hall).
    rewrite (Number_of_digits _ Hall), Hval, safe_nonneg by exact Hn.
    destruct (Z.leb_spec n 9007199254740992); [reflexivity|lia]. }
  rewrite Htext, Hdigits, Hread.
  split; [reflexivity|]. split; [|split; [reflexivity|]].
  - rewrite <- digits_value_decimal by exact Hall. exact Hval.
  - unfold or_else, truthy, JInt. destruct (Z.eqb_spec n 0) as [->|_]; reflexivity.
Qed.

Lemma listed_mileage_reads_back_witness :
  Vehicle.mileage (mileage_as_text corolla) = JStr "12345" /\
  decimal_value (digit_characters "12345") = 12345 /\
  @digits_of ascii_engine (Vehicle.mileage (mileage_as_text corolla)) = Int 12345 /\
  or_else (JNum (@digits_of ascii_engine (Vehicle.mileage (mileage_as_text corolla)))) (JInt 0) =
    JInt 12345.
Proof. apply (@listed_mileage_reads_back ascii_engine corolla 12345); [reflexivity|lia]. Defined.

(** ** What a request can do to the store *)

Section Effects.
Context `{Engine} `{Schema} `{Collation}.

Lemma post_vehicles_effect (req_body : JValue) (db : Db) :
  effect db (snd (Server.post_vehicles req_body db)).
Proof.
  unfold Server.post_vehicles.
  destruct (destructure req_body) as [|b]; cbn [mbind Outcome_bind try_catch snd];
    [constructor|].
  destruct (negb _ || negb _ || negb _); cbn [try_catch snd]; [constructor|].
  unfold insert_vehicle.
  destruct (vehicle_ok _ && in_int4 _); cbn [mbind Outcome_bind try_catch snd]; [|constructor].
  apply (effect_insert_vehicle db (Vehicle.mk (vehicles_id_seq db) _ _ _ _));
    [reflexivity|].
  cbn [Vehicle.mileage]. apply bound_miles_number.
Qed.

Lemma patch_vehicle_effect (id : string) (req_body : JValue) (db : Db) :
  effect db (snd (Server.patch_vehicle id req_body db)).
Proof.
  pose proof (patch_vehicle_cases id req_body db) as Hcases. cbv zeta in Hcases.
  rewrite Hcases.
  destruct (int4_text id); [|constructor].
  destruct (forallb vehicle_ok _); [|constructor].
  destruct (List.filter _ _); cbn [snd]; apply effect_update_mileage;
    (eexists; split; [reflexivity|apply digits_of_not_NaN]).
Qed.

Lemma delete_vehicle_effect (id : string) (db : Db) :
  effect db (snd (Server.delete_vehicle id db)).
Proof.
  rewrite delete_vehicle_cases.
  destruct (int4_text id); [|constructor].
  cbv zeta. destruct (List.filter _ _); cbn [snd]; apply effect_delete_vehicle.
Qed.

Lemma delete_vehicles_all_effect (db : Db) :
  effect db (snd (Server.delete_vehicles_all db)).
Proof.
  rewrite delete_vehicles_all_cases. cbn [snd].
  destruct cascade_to_service_history; constructor.
Qed.

Lemma post_services_effect (req_body : JValue) (db : Db) :
  effect db (snd (Server.post_services req_body db)).
Proof.
  unfold Server.post_services.
  destruct (destructure req_body) as [|b]; cbn [mbind Outcome_bind try_catch snd];
    [constructor|].
  destruct (negb _ || negb _); cbn [try_catch snd]; [constructor|].
  unfold insert_service.
  destruct (service_ok _ && in_int4 _); cbn [mbind Outcome_bind try_catch snd]; [|constructor].
  apply (effect_insert_service db (Service.mk (service_history_id_seq db) _ _ _ _ _ _ _)).
  reflexivity.
Qed.

Lemma delete_service_cases (id : string) (db : Db) :
  Server.delete_service id db =
    match int4_text id with
    | None => (mkResponse 500 (error "Failed to delete service record"), db)
    | Some i =>
        let after := mkDb (vehicles db) (vehicles_id_seq db)
                          (List.filter (fun r => negb (has_service_id i r)) (service_history db))
                          (service_history_id_seq db) (vehicle_catalog db) in
        match List.filter (has_service_id i) (service_history db) with
        | [] => (mkResponse 404 (error "Service record not found"), after)
        | _ :: _ =>
            (mkResponse 200 (JObj [("success", JBool true); ("deletedId", JStr id)]), after)
        end
    end.
Proof.
  unfold Server.delete_service, delete_service_row.
  destruct (int4_text id) as [i|]; [|reflexivity].
  cbn [mbind Outcome_bind try_catch rowCount].
  destruct (List.filter (has_service_id i) (service_history db)); reflexivity.
Qed.

Lemma delete_service_effect (id : string) (db : Db) :
  effect db (snd (Server.delete_service id db)).
Proof.
  rewrite delete_service_cases.
  destruct (int4_text id); [|constructor].
  cbv zeta. destruct (List.filter _ _); cbn [snd]; apply effect_delete_service.
Qed.

Lemma get_catalog_effect (req_query : JValue) (db : Db) :
  snd (Server.get_catalog req_query db) = db.
Proof.
  unfold Server.get_catalog.
  destruct (destructure req_query) as [|q]; cbn [mbind Outcome_bind try_catch snd];
    [reflexivity|].
  unfold select_catalog. destruct (forallb well_typed _); reflexivity.
Qed.

Lemma handle_effect (rq : Server.Request) (db : Db) :
  effect db (snd (Server.handle rq db)).
Proof.
  destruct rq; cbn [Server.handle].
  - apply post_vehicles_effect.
  - constructor.
  - apply delete_vehicles_all_effect.
  - apply patch_vehicle_effect.
  - apply delete_vehicle_effect.
  - apply effect_truncate_services.
  - apply post_services_effect.
  - apply delete_service_effect.
  - rewrite get_catalog_effect. constructor.
Qed.

End Effects.

Lemma map_id_set_mileage (p : JValue) (i : Z) (rs : list Vehicle.t) :
  map Vehicle.id (map (set_mileage p i) rs) = map Vehicle.id rs.
Proof.
  rewrite map_map. apply map_ext. intros r. unfold set_mileage.
  destruct (has_id i r); reflexivity.
Qed.

Lemma NoDup_map_filter {A B : Type} (f : A -> B) (keep : A -> bool) (l : list A) :
  NoDup (map f l) -> NoDup (map f (List.filter keep l)).
Proof.
  induction l as [|x l IH]; cbn [map List.filter]; intros Hnd; [constructor|].
  apply NoDup_cons in Hnd as [Hx Hnd].
  destruct (keep x); [|exact (IH Hnd)].
  cbn [map]. apply NoDup_cons. split; [|exact (IH Hnd)].
  intros Hin. apply Hx.
  apply list_elem_of_In, in_map_iff in Hin as (y & Hy & Hin).
  apply filter_In in Hin as [Hin _].
  apply list_elem_of_In, in_map_iff. exists y. split; assumption.
Qed.

Lemma Forall_filter_keep {A : Type} (P : A -> Prop) (keep : A -> bool) (l : list A) :
  Forall P l -> Forall P (List.filter keep l).
Proof.
  intros Hl. apply Forall_forall. intros x Hx.
  apply list_elem_of_In, filter_In in Hx as [Hx _].
  rewrite Forall_forall in Hl. apply Hl, list_elem_of_In, Hx.
Qed.

Lemma NoDup_snoc_fresh (ids : list Z) (next : Z) :
  NoDup ids -> Forall (fun i => i < next) ids -> NoDup (ids ++ [next]).
Proof.
  intros Hnd Hlt. apply NoDup_app. repeat split; [exact Hnd| |apply NoDup_singleton].
  intros i Hi Hnext. apply list_elem_of_singleton in Hnext. subst i.
  rewrite Forall_forall in Hlt. specialize (Hlt next Hi). lia.
Qed.

Lemma effect_keeps_ids (db db' : Db) :
  effect db db' -> ids_well_formed db -> ids_well_formed db'.
Proof.
  intros Heff (Hvn & Hvl & Hsn & Hsl).
  destruct Heff as [|r Hid _|p i _|i| | |r Hid|i|]; unfold ids_well_formed;
    cbn [vehicles vehicles_id_seq service_history service_history_id_seq with_vehicle with_service].
  - repeat split; assumption.
  - repeat split; try assumption.
    + rewrite map_app. cbn [map]. rewrite Hid. apply NoDup_snoc_fresh; [exact Hvn|].
      apply Forall_map. exact Hvl.
    + apply Forall_app. split.
      * eapply Forall_impl; [exact Hvl|]. cbn. intros; lia.
      * constructor; [lia|constructor].
  - repeat split; try assumption.
    + rewrite map_id_set_mileage. exact Hvn.
    + apply Forall_map. eapply Forall_impl; [exact Hvl|].
      intros r Hr. cbn. unfold set_mileage. destruct (has_id i r); exact Hr.
  - repeat split; try assumption.
    + apply NoDup_map_filter, Hvn.
    + apply Forall_filter_keep, Hvl.
  - repeat split; try assumption; constructor.
  - repeat split; constructor.
  - repeat split; try assumption.
    + rewrite map_app. cbn [map]. rewrite Hid. apply NoDup_snoc_fresh; [exact Hsn|].
      apply Forall_map. exact Hsl.
    + apply Forall_app. split.
      * eapply Forall_impl; [exact Hsl|]. cbn. intros; lia.
      * constructor; [lia|constructor].
  - repeat split; try assumption.
    + apply NoDup_map_filter, Hsn.
    + apply Forall_filter_keep, Hsl.
  - repeat split; try assumption; constructor.
Qed.

Lemma effect_keeps_mileages (db db' : Db) :
  effect db db' -> mileages_are_numbers db -> mileages_are_numbers db'.
Proof.
  intros Heff Hdb.
  destruct Heff as [|r _ Hr|p i Hp|i| | |r _|i|]; unfold mileages_are_numbers in *;
    cbn [vehicles with_vehicle with_service]; try exact Hdb; try constructor.
  - apply Forall_app. split; [exact Hdb|]. constructor; [exact Hr|constructor].
  - apply Forall_map. eapply Forall_impl; [exact Hdb|].
    intros r Hr. cbn. unfold set_mileage.
    destruct (has_id i r); [|exact Hr].
    cbn [Vehicle.mileage]. destruct Hp as (n & -> & Hn). exists n. split; [reflexivity|exact Hn].
  - apply Forall_filter_keep, Hdb.
Qed.

Lemma effect_keeps_catalog (db db' : Db) :
  effect db db' -> vehicle_catalog db' = vehicle_catalog db.
Proof. intros Heff. destruct Heff; reflexivity. Qed.

Section Serving.
Context `{Engine} `{Schema} `{Collation}.

Lemma serve_invariant (P : Db -> Prop) :
  (forall db db', effect db db' -> P db -> P db') ->
  forall (rqs : list Server.Request) (db : Db), P db -> P (Server.serve rqs db).
Proof.
  intros Hstep rqs. unfold Server.serve.
  induction rqs as [|rq rqs IH]; intros db Hdb; cbn [fold_left]; [exact Hdb|].
  apply IH. exact (Hstep _ _ (handle_effect rq db) Hdb).
Qed.

(** X1: whatever requests are served, identifiers stay pairwise distinct and
    below the next value of their sequence. *)
Theorem serve_keeps_ids_well_formed (rqs : list Server.Request) (db : Db) :
  ids_well_formed db -> ids_well_formed (Server.serve rqs db).
Proof. apply serve_invariant. exact effect_keeps_ids. Qed.

(** X3: no request changes the catalog table. *)
Theorem serve_keeps_catalog (rqs : list Server.Request) (db : Db) :
  vehicle_catalog (Server.serve rqs db) = vehicle_catalog db.
Proof.
  apply (serve_invariant (fun d => vehicle_catalog d = vehicle_catalog db));
    [|reflexivity].
  intros d d' Heff Hd. rewrite (effect_keeps_catalog d d' Heff). exact Hd.
Qed.

(** X2: whatever requests are served, every vehicle keeps a mileage that is a
    number: POST writes [Number(digits) || 0] and PATCH the number read from
    the digits, neither of which is NaN, NULL or text. *)
Theorem serve_keeps_mileage (rqs : list Server.Request) (db : Db) :
  mileages_are_numbers db -> mileages_are_numbers (Server.serve rqs db).
Proof. apply serve_invariant. exact effect_keeps_mileages. Qed.

End Serving.

Lemma serve_keeps_ids_well_formed_witness :
  ids_well_formed
    (@Server.serve ascii_engine permissive byte_order
       [Server.PostVehicle honda_civic_2020; Server.DeleteVehicle "1";
        Server.PatchVehicle "2" (JObj [("mileage", JStr "13,000 mi")]);
        Server.PostService oil_change_free]
       two_vehicles).
Proof.
  apply (@serve_keeps_ids_well_formed ascii_engine permissive byte_order).
  unfold ids_well_formed, two_vehicles, civic, corolla. cbn.
  repeat split; repeat constructor; try lia;
    rewrite ?elem_of_cons, ?elem_of_nil; intros Hin; decompose [or] Hin;
    discriminate || contradiction.
Defined.

Lemma serve_keeps_mileage_witness :
  Permutation
    (map Vehicle.mileage
         (vehicles
            (@Server.serve ascii_engine permissive byte_order
               [Server.PostVehicle honda_civic_2020;
                Server.PatchVehicle "1" (JObj [("mileage", JStr "abc")]);
                Server.PatchVehicle "2" (JObj [("mileage", JStr "13,000 mi")])]
               two_vehicles)))
    [JInt 0; JInt 13000; JInt 0] /\
  mileages_are_numbers
    (@Server.serve ascii_engine permissive byte_order
       [Server.PostVehicle honda_civic_2020;
        Server.PatchVehicle "1" (JObj [("mileage", JStr "abc")]);
        Server.PatchVehicle "2" (JObj [("mileage", JStr "13,000 mi")])]
       two_vehicles).
Proof.
  split; [exact (Permutation_refl [JInt 0; JInt 13000; JInt 0])|].
  apply (@serve_keeps_mileage ascii_engine permissive byte_order).
  unfold mileages_are_numbers, two_vehicles, civic, corolla. cbn [vehicles].
  repeat constructor; eexists; split; reflexivity.
Defined.

(** The store the requests of the example leave. *)
Example serve_example :
  @Server.serve ascii_engine permissive byte_order
     [Server.PostVehicle honda_civic_2020; Server.DeleteVehicle "1";
      Server.PatchVehicle "2" (JObj [("mileage", JStr "13,000 mi")]);
      Server.PostService oil_change_free]
     two_vehicles =
    mkDb [Vehicle.mk 2 (JInt 2021) (JStr "Toyota") (JStr "Corolla") (JInt 13000);
          Vehicle.mk 3 (JInt 2020) (JStr "Honda") (JStr "Civic") (JInt 0)]
         4
         [Service.mk 1 (JInt 1) (JStr "Oil change") JNull JNull JNull JNull JNull] 2 [].
Proof. reflexivity. Qed.

(** ** Vehicles: what delete, update and create leave behind *)

Lemma listing_of (db : Db) :
  Server.get_vehicles db =
    (mkResponse 200
       (JArr (map Vehicle.json (map mileage_as_text (order_by id_desc (vehicles db))))),
     db).
Proof. reflexivity. Qed.



Lemma set_mileage_idempotent (p : JValue) (i : Z) (r : Vehicle.t) :
  set_mileage p i (set_mileage p i r) = set_mileage p i r.
Proof.
  unfold set_mileage at 2. destruct (has_id i r) eqn:Hr.
  - unfold set_mileage. unfold has_id in *. cbn [Vehicle.id]. rewrite Hr. reflexivity.
  - unfold set_mileage. rewrite Hr. reflexivity.
Qed.

Section Updates.
Context `{Engine} `{Schema}.

(** X5: PATCH /api/vehicles/:id changes nothing but the mileage of the rows that
    carry the identifier.  Up to the order of the rows, the table after it
    has the rows it had, each with its identifier, year, make and model; a
    row of another identifier is as it was; the sequence and the other
    tables are untouched.  When the answer is 200 and the digit characters
    of the mileage sent denote a number up to 2^53, the row answered carries
    that number as its mileage. *)
Theorem patch_vehicle_touches_only_mileage (id : string) (req_body : JValue) (db : Db) :
  let answer := fst (Server.patch_vehicle id req_body db) in
  let after := snd (Server.patch_vehicle id req_body db) in
  (exists updated,
     Permutation (vehicles after) updated /\
     Forall2 (fun old new =>
                Vehicle.id new = Vehicle.id old /\ Vehicle.year new = Vehicle.year old /\
                Vehicle.make new = Vehicle.make old /\ Vehicle.model new = Vehicle.model old /\
                (int4_text id <> Some (Vehicle.id old) -> new = old))
             (vehicles db) updated) /\
  (status answer = 200 ->
   forall mileage, get "mileage" req_body = mileage ->
   mileage <> JUndefined -> mileage <> JNull ->
   decimal_value (digit_characters (String_ mileage)) <= 9007199254740992 ->
   get "mileage" (body answer) =
     JStr (show_Z (decimal_value (digit_characters (String_ mileage))))) /\
  vehicles_id_seq after = vehicles_id_seq db /\
  service_history after = service_history db /\
  service_history_id_seq after = service_history_id_seq db /\
  vehicle_catalog after = vehicle_catalog db.
Proof.
  cbv zeta. pose proof (patch_vehicle_cases id req_body db) as Hcases.
  cbv zeta in Hcases. rewrite Hcases.
  assert (Hsame : forall rs : list Vehicle.t,
             Forall2 (fun old new =>
               Vehicle.id new = Vehicle.id old /\ Vehicle.year new = Vehicle.year old /\
               Vehicle.make new = Vehicle.make old /\ Vehicle.model new = Vehicle.model old /\
               (int4_text id <> Some (Vehicle.id old) -> new = old)) rs rs).
  { induction rs; constructor; [repeat split; reflexivity|assumption]. }
  destruct (int4_text id) as [i|].
  2: { cbn [fst snd status]. split; [exists (vehicles db); split; [reflexivity|apply Hsame]|].
       split; [discriminate|repeat split]. }
  assert (Hmap : forall (p : JValue) (rs : list Vehicle.t),
             Forall2 (fun old new =>
               Vehicle.id new = Vehicle.id old /\ Vehicle.year new = Vehicle.year old /\
               Vehicle.make new = Vehicle.make old /\ Vehicle.model new = Vehicle.model old /\
               (Some i <> Some (Vehicle.id old) -> new = old)) rs (map (set_mileage p i) rs)).
  { intros p rs. induction rs as [|r rs IH]; cbn [map]; constructor; [|exact IH].
    unfold set_mileage, has_id. destruct (Z.eqb_spec (Vehicle.id r) i) as [Heq|Hne];
      cbn; repeat split; try reflexivity. intros Hc. destruct Hc. rewrite Heq. reflexivity. }
  destruct (forallb vehicle_ok _).
  - destruct (List.filter _ _) as [|r hit] eqn:Hhit;
      cbn [fst snd status body vehicles vehicles_id_seq service_history
           service_history_id_seq vehicle_catalog].
    + split; [eexists; split; [reflexivity|apply Hmap]|].
      split; [discriminate|repeat split].
    + split; [eexists; split; [reflexivity|apply Hmap]|].
      split; [|repeat split]. intros _ mileage Hsent Hu Hn Hsafe. rewrite json_mileage.
      assert (Hr : In r (List.filter (has_id i)
                     (map (set_mileage (JNum (digits_of (opt_get "mileage" req_body))) i)
                          (vehicles db)))).
      { rewrite Hhit. left. reflexivity. }
      apply updated_row in Hr as [_ Hr]. unfold mileage_as_text. cbn [Vehicle.mileage].
      rewrite Hr, opt_get_get, Hsent. cbn [bind].
      assert (Hkept : nullish mileage (JStr "0") = mileage).
      { destruct mileage; try reflexivity; contradiction. }
      unfold digits_of. rewrite Hkept, keep_digits_characters.
      rewrite Number_of_digits by apply all_digits_characters.
      rewrite digits_value_decimal by apply all_digits_characters.
      rewrite safe_nonneg by apply decimal_value_nonneg.
      apply Z.leb_le in Hsafe. rewrite Hsafe. reflexivity.
  - cbn [fst snd status]. split; [exists (vehicles db); split; [reflexivity|apply Hsame]|].
    split; [discriminate|repeat split].
Qed.

(** X6: sending the same PATCH a second time changes nothing more and gets the
    same answer. *)
Theorem patch_vehicle_idempotent (id : string) (req_body : JValue) (db : Db) :
  Server.patch_vehicle id req_body (snd (Server.patch_vehicle id req_body db)) =
    Server.patch_vehicle id req_body db.
Proof.
  pose proof (patch_vehicle_cases id req_body db) as Hfirst. cbv zeta in Hfirst.
  destruct (int4_text id) as [i|] eqn:Hid.
  2: { rewrite Hfirst. cbn [snd]. exact Hfirst. }
  set (miles := JNum (digits_of (opt_get "mileage" req_body))) in *.
  destruct (forallb vehicle_ok
              (List.filter (has_id i) (map (set_mileage miles i) (vehicles db)))) eqn:Hok.
  - assert (Hafter : snd (Server.patch_vehicle id req_body db) =
                       mkDb (map (set_mileage miles i) (vehicles db))
                            (vehicles_id_seq db) (service_history db)
                            (service_history_id_seq db) (vehicle_catalog db)).
    { rewrite Hfirst. destruct (List.filter _ _); reflexivity. }
    rewrite Hafter.
    pose proof (patch_vehicle_cases id req_body
                  (mkDb (map (set_mileage miles i) (vehicles db))
                        (vehicles_id_seq db) (service_history db)
                        (service_history_id_seq db) (vehicle_catalog db))) as Hsecond.
    cbv zeta in Hsecond. rewrite Hid in Hsecond. fold miles in Hsecond.
    cbn [vehicles vehicles_id_seq service_history service_history_id_seq vehicle_catalog]
      in Hsecond.
    rewrite map_map in Hsecond.
    rewrite (map_ext _ _ (set_mileage_idempotent _ i)) in Hsecond.
    rewrite Hsecond, Hfirst, Hok. reflexivity.
  - assert (Hafter : snd (Server.patch_vehicle id req_body db) = db).
    { rewrite Hfirst. reflexivity. }
    rewrite Hafter. reflexivity.
Qed.

End Updates.

Lemma patch_vehicle_touches_only_mileage_witness :
  fst (@Server.patch_vehicle ascii_engine permissive "1" (JObj [("mileage", JStr "43,210")])
         two_vehicles) =
    mkResponse 200
      (JObj [("id", JInt 1); ("year", JInt 2020); ("make", JStr "Honda");
             ("model", JStr "Civic"); ("mileage", JStr "43210")]) /\
  (In (Vehicle.mk 1 (JInt 2020) (JStr "Honda") (JStr "Civic") (JInt 43210))
      (vehicles (snd (@Server.patch_vehicle ascii_engine permissive "1"
                        (JObj [("mileage", JStr "43,210")]) two_vehicles))) /\
   In corolla
      (vehicles (snd (@Server.patch_vehicle ascii_engine permissive "1"
                        (JObj [("mileage", JStr "43,210")]) two_vehicles)))) /\
  exists updated,
    Permutation (vehicles (snd (@Server.patch_vehicle ascii_engine permissive "1"
                                  (JObj [("mileage", JStr "43,210")]) two_vehicles))) updated /\
    Forall2 (fun old new =>
               Vehicle.id new = Vehicle.id old /\ Vehicle.year new = Vehicle.year old /\
               Vehicle.make new = Vehicle.make old /\ Vehicle.model new = Vehicle.model old /\
               (@int4_text permissive "1" <> Some (Vehicle.id old) -> new = old))
            [civic; corolla] updated.
Proof.
  split; [reflexivity|]. split; [split; [left|right; left]; reflexivity|].
  exact (proj1 (@patch_vehicle_touches_only_mileage ascii_engine permissive "1"
                  (JObj [("mileage", JStr "43,210")]) two_vehicles)).
Defined.

Lemma order_by_newest_on_top (r : Vehicle.t) (acc rs : list Vehicle.t) :
  Forall (fun x => Vehicle.id x < Vehicle.id r) rs ->
  fold_right (insert_sorted id_desc) (r :: acc) rs =
    r :: fold_right (insert_sorted id_desc) acc rs.
Proof.
  induction rs as [|x rs IH]; intros Hrs; cbn [fold_right]; [reflexivity|].
  apply Forall_cons in Hrs as [Hx Hrs]. rewrite (IH Hrs). cbn [insert_sorted].
  unfold id_desc at 1. destruct (Z.leb_spec (Vehicle.id r) (Vehicle.id x)); [lia|reflexivity].
Qed.

Lemma order_by_snoc_newest (r : Vehicle.t) (rs : list Vehicle.t) :
  Forall (fun x => Vehicle.id x < Vehicle.id r) rs ->
  order_by id_desc (rs ++ [r]) = r :: order_by id_desc rs.
Proof.
  intros Hrs. unfold order_by. rewrite fold_right_app. cbn [fold_right insert_sorted].
  apply order_by_newest_on_top, Hrs.
Qed.

Section CreateThen.
Context `{Engine} `{Schema}.

(** X7: a vehicle just created is the first row of the listing that follows. *)
Theorem created_vehicle_is_listed_first (fields : list (string * JValue)) (db : Db) :
  ids_well_formed db ->
  status (fst (Server.post_vehicles (JObj fields) db)) = 201 ->
  exists rest,
    fst (Server.get_vehicles (snd (Server.post_vehicles (JObj fields) db))) =
      mkResponse 200 (JArr (body (fst (Server.post_vehicles (JObj fields) db)) :: rest)).
Proof.
  intros (_ & Hbelow & _) Hcreated.
  pose proof (post_vehicles_cases fields db) as Hcases. cbv zeta in Hcases.
  rewrite Hcases in Hcreated |- *.
  destruct (negb _ || negb _ || negb _); [discriminate Hcreated|].
  destruct (vehicle_accepted _); [|discriminate Hcreated].
  cbn [fst snd body]. rewrite listing_of. cbn [fst with_vehicle vehicles].
  rewrite order_by_snoc_newest; [|exact Hbelow].
  cbn [map]. eexists. reflexivity.
Qed.

(** X8: deleting a vehicle just created, by the identifier it was given, brings
    the vehicles table back to what it was before the creation. *)
Theorem create_then_delete_restores (fields : list (string * JValue)) (db : Db) :
  ids_well_formed db ->
  status (fst (Server.post_vehicles (JObj fields) db)) = 201 ->
  let created := snd (Server.post_vehicles (JObj fields) db) in
  let id := show_Z (vehicles_id_seq db) in
  get "id" (body (fst (Server.post_vehicles (JObj fields) db))) = JInt (vehicles_id_seq db) /\
  status (fst (Server.delete_vehicle id created)) = 200 /\
  vehicles (snd (Server.delete_vehicle id created)) = vehicles db.
Proof.
  intros (_ & Hbelow & _) Hcreated. cbv zeta.
  pose proof (post_vehicles_cases fields db) as Hcases. cbv zeta in Hcases.
  rewrite Hcases in Hcreated |- *.
  destruct (negb _ || negb _ || negb _); [discriminate Hcreated|].
  destruct (vehicle_accepted _) eqn:Hok; [|discriminate Hcreated].
  cbn [fst snd body]. split; [reflexivity|].
  assert (Hold : forallb (fun r => negb (has_id (vehicles_id_seq db) r)) (vehicles db) = true).
  { apply unknown_id_has_id. intros r Hr.
    rewrite Forall_forall in Hbelow. specialize (Hbelow r (proj2 (list_elem_of_In _ _) Hr)).
    cbn in Hbelow. lia. }
  assert (Hnew : has_id (vehicles_id_seq db) (bound_row (JObj fields) db) = true).
  { unfold has_id, bound_row. cbn [Vehicle.id]. apply Z.eqb_refl. }
  assert (Hread : int4_text (show_Z (vehicles_id_seq db)) = Some (vehicles_id_seq db)).
  { rewrite int4_text_show_Z. unfold vehicle_accepted, bound_row in Hok.
    cbn [Vehicle.id] in Hok. apply andb_true_iff in Hok as [_ ->]. reflexivity. }
  rewrite delete_vehicle_cases, Hread. cbv zeta. cbn [with_vehicle vehicles].
  rewrite !List.filter_app, (filter_none _ _ Hold), (filter_all _ _ Hold).
  cbn [List.filter]. rewrite Hnew. cbn [negb app fst snd status vehicles].
  split; [reflexivity|apply app_nil_r].
Qed.

End CreateThen.

Lemma created_vehicle_is_listed_first_witness :
  exists rest,
    fst (Server.get_vehicles
           (snd (@Server.post_vehicles ascii_engine permissive honda_civic_2020 two_vehicles))) =
      mkResponse 200
        (JArr (body (fst (@Server.post_vehicles ascii_engine permissive honda_civic_2020
                            two_vehicles)) :: rest)).
Proof.
  apply (@created_vehicle_is_listed_first ascii_engine permissive
           [("year", JInt 2020); ("make", JStr "Honda"); ("model", JStr "Civic")] two_vehicles).
  - unfold ids_well_formed, two_vehicles, civic, corolla. cbn.
    repeat split; repeat constructor; try lia;
      rewrite ?elem_of_cons, ?elem_of_nil; intros Hin; decompose [or] Hin; discriminate || contradiction.
  - reflexivity.
Defined.

Lemma create_then_delete_restores_witness :
  get "id" (body (fst (@Server.post_vehicles ascii_engine permissive honda_civic_2020
                         two_vehicles))) = JInt 3 /\
  status (fst (@Server.delete_vehicle permissive "3"
                 (snd (@Server.post_vehicles ascii_engine permissive honda_civic_2020
                         two_vehicles)))) = 200 /\
  vehicles (snd (@Server.delete_vehicle permissive "3"
                   (snd (@Server.post_vehicles ascii_engine permissive honda_civic_2020
                           two_vehicles)))) =
    [civic; corolla].
Proof.
  apply (@create_then_delete_restores ascii_engine permissive
           [("year", JInt 2020); ("make", JStr "Honda"); ("model", JStr "Civic")] two_vehicles).
  - unfold ids_well_formed, two_vehicles, civic, corolla. cbn.
    repeat split; repeat constructor; try lia;
      rewrite ?elem_of_cons, ?elem_of_nil; intros Hin; decompose [or] Hin; discriminate || contradiction.
  - reflexivity.
Defined.

(** ** Service history: create and delete *)

Section Services.
Context `{Schema}.


(** X11: DELETE /api/services/:id, on a path segment the [id] column reads as
    an integer, removes the records that carry the identifier and no other,
    answers 200 exactly when there was one and 404 exactly when there was
    none; on a path segment the column cannot read it answers 500 and
    removes nothing.  The vehicles and the catalog stay as they were. *)
Theorem delete_service_removes (id : string) (db : Db) :
  let answer := fst (Server.delete_service id db) in
  let after := snd (Server.delete_service id db) in
  (forall i, int4_text id = Some i ->
     service_history after =
       List.filter (fun r => negb (has_service_id i r)) (service_history db) /\
     Forall (fun r => Service.id r <> i) (service_history after) /\
     (status answer = 200 <-> exists r, In r (service_history db) /\ Service.id r = i) /\
     (status answer = 404 <-> forall r, In r (service_history db) -> Service.id r <> i)) /\
  (int4_text id = None ->
   answer = mkResponse 500 (error "Failed to delete service record") /\ after = db) /\
  vehicles after = vehicles db /\ vehicle_catalog after = vehicle_catalog db.
Proof.
  cbv zeta. rewrite (@delete_service_cases _ id db).
  destruct (int4_text id) as [i|].
  2: { split; [intros i Hi; discriminate Hi|]. repeat split. }
  cbv zeta.
  assert (Hhit : forall r, In r (List.filter (has_service_id i) (service_history db)) <->
                           In r (service_history db) /\ Service.id r = i).
  { intros r. rewrite filter_In. unfold has_service_id. rewrite Z.eqb_eq. reflexivity. }
  assert (Hgone : Forall (fun r => Service.id r <> i)
                    (List.filter (fun r => negb (has_service_id i r)) (service_history db))).
  { apply Forall_forall. intros r Hr Heq.
    apply list_elem_of_In, filter_In in Hr as [_ Hr]. unfold has_service_id in Hr.
    apply Z.eqb_eq in Heq. rewrite Heq in Hr. discriminate Hr. }
  destruct (List.filter (has_service_id i) (service_history db)) as [|hit hits];
    cbn [fst snd status service_history vehicles vehicle_catalog].
  - split; [|split; [intros Habs; discriminate Habs|split; reflexivity]].
    intros i' [= <-]. repeat split; try assumption; try discriminate.
    + intros (r & Hr). apply Hhit in Hr. destruct Hr.
    + intros _ r Hr Heq. apply (proj2 (Hhit r)); split; assumption.
  - split; [|split; [intros Habs; discriminate Habs|split; reflexivity]].
    intros i' [= <-]. repeat split; try assumption; try discriminate.
    + intros _. exists hit. apply Hhit. left. reflexivity.
    + intros Hunknown. exfalso.
      destruct (proj1 (Hhit hit) (or_introl eq_refl)) as [Hin Heq].
      exact (Hunknown hit Hin Heq).
Qed.

End Services.


Lemma delete_service_removes_witness :
  let db := mkDb [civic] 2
              [Service.mk 1 (JInt 1) (JStr "Oil change") JNull JNull JNull JNull JNull;
               Service.mk 2 (JInt 1) (JStr "Tires") JNull JNull JNull JNull JNull] 3 [] in
  (@Server.delete_service permissive "1" db =
     (mkResponse 200 (JObj [("success", JBool true); ("deletedId", JStr "1")]),
      mkDb [civic] 2
           [Service.mk 2 (JInt 1) (JStr "Tires") JNull JNull JNull JNull JNull] 3 []) /\
   @Server.delete_service permissive "5" db =
     (mkResponse 404 (error "Service record not found"), db) /\
   @Server.delete_service permissive "99999999999" db =
     (mkResponse 500 (error "Failed to delete service record"), db)) /\
  (@int4_text permissive "99999999999" = None ->
   fst (@Server.delete_service permissive "99999999999" db) =
     mkResponse 500 (error "Failed to delete service record") /\
   snd (@Server.delete_service permissive "99999999999" db) = db).
Proof.
  cbv zeta. split; [repeat split|].
  exact (proj1 (proj2 (@delete_service_removes permissive "99999999999"
                         (mkDb [civic] 2
                            [Service.mk 1 (JInt 1) (JStr "Oil change") JNull JNull JNull JNull JNull;
                             Service.mk 2 (JInt 1) (JStr "Tires") JNull JNull JNull JNull JNull]
                            3 [])))).
Defined.

(** X12: DELETE /api/services/all empties the service history and restarts its
    identifiers, so that the next record created gets identifier 1; the
    vehicles stay. *)
Theorem delete_services_all_restarts `{Schema} (fields : list (string * JValue)) (db : Db) :
  let after := snd (Server.delete_services_all db) in
  status (fst (Server.delete_services_all db)) = 200 /\
  service_history after = [] /\
  vehicles after = vehicles db /\
  (status (fst (Server.post_services (JObj fields) after)) = 201 ->
   get "id" (body (fst (Server.post_services (JObj fields) after))) = JInt 1).
Proof.
  cbv zeta. repeat split.
  pose proof (post_services_cases fields (snd (Server.delete_services_all db))) as Hcases.
  cbv zeta in Hcases. rewrite Hcases.
  destruct (negb _ || negb _); [discriminate|].
  destruct (service_accepted _); [|discriminate]. reflexivity.
Qed.

(** ** csv_to_sql.js: quoting, numbers and file names *)

Lemma read_literal_body_doubled (s rest : string) :
  (forall rest', rest <> String CsvToSql.quote rest') ->
  read_literal_body (CsvToSql.double_quotes s ++ String CsvToSql.quote rest) = Some (s, rest).
Proof.
  intros Hrest. induction s as [|c s IH].
  - change (read_literal_body (String CsvToSql.quote rest) = Some (EmptyString, rest)).
    cbn [read_literal_body]. rewrite Ascii.eqb_refl.
    destruct rest as [|d rest']; [reflexivity|].
    destruct (Ascii.eqb_spec d CsvToSql.quote) as [->|_]; [|reflexivity].
    destruct (Hrest rest' eq_refl).
  - cbn [CsvToSql.double_quotes].
    destruct (Ascii.eqb_spec c CsvToSql.quote) as [->|Hc].
    + rewrite !append_cons. cbn [read_literal_body]. rewrite !Ascii.eqb_refl, IH. reflexivity.
    + rewrite append_cons. cbn [read_literal_body].
      destruct (Ascii.eqb_spec c CsvToSql.quote) as [Heq|_]; [contradiction|].
      rewrite IH. reflexivity.
Qed.

(** X14: what [esc] writes is one SQL string literal whose text is the value it
    was given, the empty text for null and undefined: a quote inside the
    value never ends the literal. *)
Theorem esc_reads_back (v : JValue) (rest : string) :
  (forall rest', rest <> String CsvToSql.quote rest') ->
  read_literal (CsvToSql.esc v ++ rest) = Some (text_of v, rest).
Proof.
  intros Hrest.
  assert (Hesc : forall s, read_literal
             (String CsvToSql.quote
                (CsvToSql.double_quotes s ++ String CsvToSql.quote EmptyString) ++ rest) =
             Some (s, rest)).
  { intros s. rewrite append_cons, append_assoc.
    change (String CsvToSql.quote EmptyString ++ rest) with (String CsvToSql.quote rest).
    cbn [read_literal]. rewrite Ascii.eqb_refl.
    apply read_literal_body_doubled, Hrest. }
  unfold CsvToSql.esc, text_of. destruct v; apply Hesc.
Qed.

Lemma esc_reads_back_witness :
  read_literal (CsvToSql.esc (JStr "O'Brien") ++ ", 'x')") = Some ("O'Brien", ", 'x')").
Proof.
  apply (esc_reads_back (JStr "O'Brien") ", 'x')").
  intros rest' Habs. discriminate Habs.
Defined.

Lemma leading_digits_append (ds junk : string) :
  all_digits ds = true ->
  (forall c junk', junk = String c junk' -> is_digit c = false) ->
  CsvToSql.leading_digits (ds ++ junk) = ds.
Proof.
  intros Hds Hjunk. induction ds as [|c ds IH].
  - change (EmptyString ++ junk) with junk. destruct junk as [|d junk']; [reflexivity|].
    cbn [CsvToSql.leading_digits]. rewrite (Hjunk d junk' eq_refl). reflexivity.
  - cbn [all_digits] in Hds. apply andb_true_iff in Hds as [Hc Hds].
    rewrite append_cons. cbn [CsvToSql.leading_digits]. rewrite Hc, (IH Hds). reflexivity.
Qed.

Lemma is_digit_ascii (c : ascii) : is_digit c = true -> is_ascii_char c = true.
Proof.
  unfold is_digit, is_ascii_char. intros Hd.
  apply andb_true_iff in Hd as [_ Hhi]. apply N.leb_le in Hhi. apply N.ltb_lt. lia.
Qed.

Section NumOrNull.
Context `{Engine}.

Lemma parseInt10_digits (ds junk : string) :
  all_digits ds = true -> ds <> EmptyString ->
  decimal_value ds <= 9007199254740992 ->
  (forall c junk', junk = String c junk' -> is_digit c = false) ->
  CsvToSql.parseInt10 (JStr (ds ++ junk)) = Int (decimal_value ds).
Proof.
  intros Hds Hne Hsafe Hjunk. unfold CsvToSql.parseInt10. cbn [String_].
  destruct ds as [|c ds]; [contradiction|].
  pose proof Hds as Hc. cbn [all_digits] in Hc. apply andb_true_iff in Hc as [Hc _].
  rewrite append_cons. cbn [trim_start]. rewrite (is_digit_not_space c Hc).
  rewrite (is_digit_ascii c Hc). cbn [negb].
  destruct (Ascii.eqb_spec c "-") as [->|_]; [discriminate Hc|].
  destruct (Ascii.eqb_spec c "+") as [->|_]; [discriminate Hc|].
  rewrite <- append_cons, (leading_digits_append _ junk Hds Hjunk).
  rewrite (digits_value_decimal _ Hds).
  rewrite safe_nonneg
    by (rewrite <- (digits_value_decimal _ Hds); apply digits_value_nonneg, Hds).
  apply Z.leb_le in Hsafe. rewrite Hsafe, Z.mul_1_l. reflexivity.
Qed.

End NumOrNull.

(** X15: [numOrNull] reads the decimal digits a field starts with and ignores
    what follows them: when the digits denote a number up to 2^53, that
    number is what it gives.  A field that is missing or empty, or that
    starts with an ASCII character that is no digit, sign or white space,
    gives NULL. *)
Theorem numOrNull_leading_digits `{Engine} (ds junk : string) :
  all_digits ds = true -> ds <> EmptyString ->
  decimal_value ds <= 9007199254740992 ->
  (forall c junk', junk = String c junk' -> is_digit c = false) ->
  CsvToSql.numOrNull (JStr (ds ++ junk)) = JInt (decimal_value ds) /\
  CsvToSql.numOrNull JUndefined = JStr "NULL" /\
  CsvToSql.numOrNull (JStr EmptyString) = JStr "NULL" /\
  (forall c rest,
      is_ascii_char c = true ->
      is_digit c || is_space c || Ascii.eqb c "-" || Ascii.eqb c "+" = false ->
      CsvToSql.numOrNull (JStr (String c rest)) = JStr "NULL").
Proof.
  intros Hds Hne Hsafe Hjunk. split; [|split; [|split]]; [|reflexivity|reflexivity|].
  - unfold CsvToSql.numOrNull.
    rewrite (parseInt10_digits ds junk Hds Hne Hsafe Hjunk). reflexivity.
  - intros c rest Hascii Hc.
    apply orb_false_iff in Hc as [Hc Hplus]. apply orb_false_iff in Hc as [Hc Hminus].
    apply orb_false_iff in Hc as [Hdigit Hspace].
    unfold CsvToSql.numOrNull, CsvToSql.parseInt10. cbn [String_ trim_start].
    rewrite Hspace, Hascii, Hminus, Hplus. cbn [negb CsvToSql.leading_digits].
    rewrite Hdigit. reflexivity.
Qed.

Lemma numOrNull_leading_digits_witness :
  (@CsvToSql.numOrNull ascii_engine (JStr "2020 (late)") = JInt 2020 /\
   @CsvToSql.numOrNull ascii_engine (JStr " 1999") = JInt 1999 /\
   @CsvToSql.numOrNull ascii_engine (JStr "n/a") = JStr "NULL" /\
   decimal_value "2020" = 2020) /\
  @CsvToSql.numOrNull ascii_engine (JStr ("2020" ++ " (late)")) = JInt (decimal_value "2020") /\
  @CsvToSql.numOrNull ascii_engine JUndefined = JStr "NULL" /\
  @CsvToSql.numOrNull ascii_engine (JStr EmptyString) = JStr "NULL" /\
  (forall c rest,
      is_ascii_char c = true ->
      is_digit c || is_space c || Ascii.eqb c "-" || Ascii.eqb c "+" = false ->
      @CsvToSql.numOrNull ascii_engine (JStr (String c rest)) = JStr "NULL").
Proof.
  split; [repeat split|].
  apply (@numOrNull_leading_digits ascii_engine "2020" " (late)").
  - reflexivity.
  - discriminate.
  - vm_compute. discriminate.
  - intros c junk' [= <- _]. reflexivity.
Defined.

Lemma keep_digits_append (s t : string) :
  keep_digits (s ++ t) = keep_digits s ++ keep_digits t.
Proof.
  induction s as [|c s IH]; [reflexivity|].
  rewrite append_cons. cbn [keep_digits]. destruct (is_digit c); rewrite IH; reflexivity.
Qed.

Lemma digits_value_from_zeros (n : nat) (s : string) :
  digits_value_from 0 (CsvToSql.zeros n ++ s) = digits_value_from 0 s.
Proof.
  induction n as [|n IH]; [reflexivity|].
  cbn [CsvToSql.zeros]. rewrite append_cons. cbn [digits_value_from]. exact IH.
Qed.

Lemma all_digits_zeros (n : nat) : all_digits (CsvToSql.zeros n) = true.
Proof. induction n; simpl; auto. Qed.

Lemma all_digits_append (s t : string) :
  all_digits s = true -> all_digits t = true -> all_digits (s ++ t) = true.
Proof.
  intros Hs Ht. induction s as [|c s IH]; [exact Ht|].
  cbn [all_digits] in Hs. apply andb_true_iff in Hs as [Hc Hs].
  rewrite append_cons. cbn [all_digits]. rewrite Hc, (IH Hs). reflexivity.
Qed.

(** The number of a chunk can be read back from the name of its file. *)
Lemma chunkFileName_number (OUT_DIR : string) (i : Z) :
  0 <= i ->
  exists padded,
    CsvToSql.chunkFileName OUT_DIR i =
      OUT_DIR ++ "/" ++ "vehicle_catalog_part_" ++ padded ++ ".sql" /\
    all_digits padded = true /\ digits_value padded = i.
Proof.
  intros Hi. destruct (show_Z_nonneg i Hi) as [Hall Hval].
  exists (CsvToSql.padStart0 3 (show_Z i)). split; [reflexivity|].
  unfold CsvToSql.padStart0. split.
  - apply all_digits_append; [apply all_digits_zeros|exact Hall].
  - unfold digits_value. rewrite digits_value_from_zeros. exact Hval.
Qed.

Lemma chunkFileName_inj (OUT_DIR : string) (i j : Z) :
  0 <= i -> 0 <= j ->
  CsvToSql.chunkFileName OUT_DIR i = CsvToSql.chunkFileName OUT_DIR j -> i = j.
Proof.
  intros Hi Hj Hname.
  destruct (chunkFileName_number OUT_DIR i Hi) as (pi & Hni & Hai & Hvi).
  destruct (chunkFileName_number OUT_DIR j Hj) as (pj & Hnj & Haj & Hvj).
  rewrite Hni, Hnj in Hname.
  do 3 apply String.app_inj in Hname.
  apply (f_equal keep_digits) in Hname.
  rewrite !keep_digits_append, (keep_digits_id pi Hai), (keep_digits_id pj Haj) in Hname.
  change (keep_digits ".sql") with EmptyString in Hname.
  rewrite !append_nil_r in Hname. congruence.
Qed.

(** X16: two chunks never share a file: different chunk numbers give different
    file names, also beyond the three digits the name is padded to. *)
Theorem chunkFileName_distinct (OUT_DIR : string) (i j : Z) :
  0 <= i -> 0 <= j -> i <> j ->
  CsvToSql.chunkFileName OUT_DIR i <> CsvToSql.chunkFileName OUT_DIR j.
Proof.
  intros Hi Hj Hne Hname. exact (Hne (chunkFileName_inj OUT_DIR i j Hi Hj Hname)).
Qed.

Lemma chunkFileName_distinct_witness :
  CsvToSql.chunkFileName "/out" 999 <> CsvToSql.chunkFileName "/out" 1000.
Proof. apply (chunkFileName_distinct "/out" 999 1000); lia. Defined.

(** ** csv_to_sql.js: the chunks *)

Section Chunks.
Context `{Engine} (OUT_DIR : string).

Lemma chunk_files_snoc (chunks : list (list string)) (c : list string) :
  chunk_files OUT_DIR (chunks ++ [c]) =
    (chunk_files OUT_DIR chunks ++
     [(CsvToSql.chunkFileName OUT_DIR (Z.of_nat (length chunks) + 1),
       CsvToSql.chunk_sql (Z.of_nat (length chunks) + 1) c)])%list.
Proof.
  unfold chunk_files. rewrite imap_app. cbn [imap]. rewrite Nat.add_0_r. reflexivity.
Qed.

Lemma CHUNK_ROWS_pos : (0 < CsvToSql.CHUNK_ROWS)%nat.
Proof. unfold CsvToSql.CHUNK_ROWS. lia. Qed.

Lemma writeChunk_rows (w : CsvToSql.Writer) :
  CsvToSql.rows w <> [] ->
  CsvToSql.writeChunk OUT_DIR w =
    CsvToSql.mkWriter (CsvToSql.chunkIndex w + 1) []
      (CsvToSql.written w ++
       [(CsvToSql.chunkFileName OUT_DIR (CsvToSql.chunkIndex w),
         CsvToSql.chunk_sql (CsvToSql.chunkIndex w) (CsvToSql.rows w))]).
Proof.
  unfold CsvToSql.writeChunk. destruct (CsvToSql.rows w); [contradiction|reflexivity].
Qed.

Lemma on_data_buffering (w : CsvToSql.Writer) (chunks : list (list string)) (row : JValue) :
  buffering OUT_DIR w chunks ->
  exists chunks',
    buffering OUT_DIR (CsvToSql.on_data OUT_DIR w row) chunks' /\
    (concat chunks' ++ CsvToSql.rows (CsvToSql.on_data OUT_DIR w row))%list =
      (concat chunks ++ CsvToSql.rows w ++ [CsvToSql.row_sql row])%list.
Proof.
  intros (Hwritten & Hindex & Hfull & Hroom).
  unfold CsvToSql.on_data. cbn [CsvToSql.rows].
  destruct (Nat.leb_spec CsvToSql.CHUNK_ROWS
              (length (CsvToSql.rows w ++ [CsvToSql.row_sql row]))) as [Hge|Hlt].
  - rewrite writeChunk_rows; cbn [CsvToSql.rows CsvToSql.chunkIndex CsvToSql.written];
      [|intros Habs; apply app_eq_nil in Habs as [_ Habs]; discriminate Habs].
    exists (chunks ++ [CsvToSql.rows w ++ [CsvToSql.row_sql row]])%list.
    split; [split; [|split; [|split]]|].
    + cbn [CsvToSql.written]. rewrite chunk_files_snoc, Hwritten, Hindex. reflexivity.
    + cbn [CsvToSql.chunkIndex]. rewrite length_app, Hindex. cbn [length]. lia.
    + apply Forall_app. split; [exact Hfull|]. constructor; [|constructor].
      rewrite length_app in Hge |- *. cbn [length] in Hge |- *. lia.
    + cbn [CsvToSql.rows length]. apply CHUNK_ROWS_pos.
    + rewrite concat_app. cbn [concat]. rewrite !app_nil_r. reflexivity.
  - exists chunks. split; [split; [|split; [|split]]|]; try assumption; reflexivity.
Qed.

Lemma fold_on_data_buffering (records : list JValue) :
  forall (w : CsvToSql.Writer) (chunks : list (list string)),
    buffering OUT_DIR w chunks ->
    exists chunks',
      buffering OUT_DIR (fold_left (CsvToSql.on_data OUT_DIR) records w) chunks' /\
      (concat chunks' ++ CsvToSql.rows (fold_left (CsvToSql.on_data OUT_DIR) records w))%list =
        (concat chunks ++ CsvToSql.rows w ++ map CsvToSql.row_sql records)%list.
Proof.
  induction records as [|row records IH]; intros w chunks Hw; cbn [fold_left map].
  - exists chunks. split; [exact Hw|]. rewrite app_nil_r. reflexivity.
  - destruct (on_data_buffering w chunks row Hw) as (chunks1 & Hw1 & Hrows1).
    destruct (IH _ chunks1 Hw1) as (chunks2 & Hw2 & Hrows2).
    exists chunks2. split; [exact Hw2|].
    rewrite Hrows2, app_assoc, Hrows1, <- !app_assoc. reflexivity.
Qed.

Lemma convert_chunks (records : list JValue) :
  exists chunks : list (list string),
    CsvToSql.written (CsvToSql.convert OUT_DIR records) = chunk_files OUT_DIR chunks /\
    CsvToSql.rows (CsvToSql.convert OUT_DIR records) = [] /\
    concat chunks = map CsvToSql.row_sql records /\
    Forall (fun c => (1 <= length c <= CsvToSql.CHUNK_ROWS)%nat) chunks /\
    (forall k c, chunks !! k = Some c -> (S k < length chunks)%nat ->
                 length c = CsvToSql.CHUNK_ROWS).
Proof.
  destruct (fold_on_data_buffering records CsvToSql.start [])
    as (full & (Hwritten & Hindex & Hfull & Hroom) & Hrows).
  { split; [reflexivity|]. split; [reflexivity|]. split; [constructor|].
    cbn [CsvToSql.start CsvToSql.rows length]. apply CHUNK_ROWS_pos. }
  cbn [concat CsvToSql.start CsvToSql.rows app] in Hrows.
  unfold CsvToSql.convert, CsvToSql.on_end.
  destruct (CsvToSql.rows (fold_left (CsvToSql.on_data OUT_DIR) records CsvToSql.start))
    as [|r rest] eqn:Hbuffer.
  - exists full. unfold CsvToSql.writeChunk. rewrite Hbuffer.
    split; [exact Hwritten|]. split; [exact Hbuffer|].
    split; [rewrite app_nil_r in Hrows; exact Hrows|]. split.
    + eapply Forall_impl; [exact Hfull|]. cbn. intros c ->. pose proof CHUNK_ROWS_pos. lia.
    + intros k c Hk _. rewrite Forall_forall in Hfull.
      apply Hfull, (list_elem_of_lookup_2 _ k), Hk.
  - exists (full ++ [r :: rest])%list.
    rewrite writeChunk_rows; [|rewrite Hbuffer; discriminate].
    cbn [CsvToSql.written CsvToSql.rows]. rewrite Hbuffer.
    split; [rewrite chunk_files_snoc, Hwritten, Hindex; reflexivity|].
    split; [reflexivity|].
    split; [rewrite concat_app; cbn [concat]; rewrite app_nil_r; exact Hrows|]. split.
    + apply Forall_app. split.
      * eapply Forall_impl; [exact Hfull|]. cbn. intros c ->. pose proof CHUNK_ROWS_pos. lia.
      * constructor; [|constructor]. cbn [length] in Hroom |- *. lia.
    + intros k c Hk Hlast. rewrite length_app in Hlast. cbn [length] in Hlast.
      rewrite lookup_app_l in Hk by lia.
      rewrite Forall_forall in Hfull. apply Hfull, (list_elem_of_lookup_2 _ k), Hk.
Qed.

(** X17: the conversion writes every record once and in order: the rows of the
    files, read one file after the other, are the rows of the CSV records.
    No file is empty, none holds more than [CHUNK_ROWS] rows, every file but
    the last holds exactly that many, and no row is left in the buffer. *)
Theorem convert_writes_every_row (records : list JValue) :
  exists chunks : list (list string),
    CsvToSql.written (CsvToSql.convert OUT_DIR records) = chunk_files OUT_DIR chunks /\
    CsvToSql.rows (CsvToSql.convert OUT_DIR records) = [] /\
    concat chunks = map CsvToSql.row_sql records /\
    Forall (fun c => (1 <= length c <= CsvToSql.CHUNK_ROWS)%nat) chunks /\
    (forall k c, chunks !! k = Some c -> (S k < length chunks)%nat ->
                 length c = CsvToSql.CHUNK_ROWS).
Proof. apply convert_chunks. Qed.

End Chunks.

(** ** csv_to_sql.js: the files on disk *)

Lemma files_after_snoc (before : gmap string string) (writes : list (string * string))
    (w : string * string) :
  CsvToSql.files_after before (writes ++ [w]) =
    <[fst w := snd w]> (CsvToSql.files_after before writes).
Proof. unfold CsvToSql.files_after. rewrite fold_left_app. reflexivity. Qed.

(** After the chunks are written, a path holds a chunk when it is the name
    of one, and what it held before when it is the name of none. *)
Lemma files_after_chunk_files (OUT_DIR : string) (before : gmap string string)
    (chunks : list (list string)) (path : string) :
  (exists k c, chunks !! k = Some c /\
               path = CsvToSql.chunkFileName OUT_DIR (Z.of_nat k + 1) /\
               CsvToSql.files_after before (chunk_files OUT_DIR chunks) !! path =
                 Some (CsvToSql.chunk_sql (Z.of_nat k + 1) c)) \/
  ((forall k, (k < length chunks)%nat ->
              path <> CsvToSql.chunkFileName OUT_DIR (Z.of_nat k + 1)) /\
   CsvToSql.files_after before (chunk_files OUT_DIR chunks) !! path = before !! path).
Proof.
  induction chunks as [|c chunks IH] using rev_ind.
  - right. split; [intros k Hk; cbn [length] in Hk; lia|reflexivity].
  - rewrite chunk_files_snoc, files_after_snoc. cbn [fst snd].
    destruct (decide (CsvToSql.chunkFileName OUT_DIR (Z.of_nat (length chunks) + 1) = path))
      as [Hpath|Hpath].
    + left. exists (length chunks), c. subst path. rewrite lookup_insert_eq.
      split; [|split; reflexivity]. rewrite lookup_app_r by lia.
      rewrite Nat.sub_diag. reflexivity.
    + rewrite lookup_insert_ne by exact Hpath.
      destruct IH as [(k & c' & Hk & Hname & Hfile)|[Hnone Hfile]].
      * left. exists k, c'. split; [apply lookup_app_l_Some, Hk|]. split; assumption.
      * right. split; [|exact Hfile]. intros k Hk. rewrite length_app in Hk. cbn [length] in Hk.
        destruct (decide (k = length chunks)) as [->|Hne].
        -- intros Habs. apply Hpath. symmetry. exact Habs.
        -- apply Hnone. lia.
Qed.

(** X18: after the conversion every chunk is on disk under its own name: no
    chunk has overwritten another.  A file that was on disk before, from an
    earlier run or from elsewhere, is as it was unless a chunk has taken its
    name. *)
Theorem convert_files_on_disk `{Engine} (OUT_DIR : string) (records : list JValue)
    (before : gmap string string) :
  let files :=
    CsvToSql.files_after before (CsvToSql.written (CsvToSql.convert OUT_DIR records)) in
  exists chunks : list (list string),
    concat chunks = map CsvToSql.row_sql records /\
    (forall k c, chunks !! k = Some c ->
                 files !! CsvToSql.chunkFileName OUT_DIR (Z.of_nat k + 1) =
                   Some (CsvToSql.chunk_sql (Z.of_nat k + 1) c)) /\
    (forall path,
        (forall k, (k < length chunks)%nat ->
                   path <> CsvToSql.chunkFileName OUT_DIR (Z.of_nat k + 1)) ->
        files !! path = before !! path).
Proof.
  cbv zeta.
  destruct (convert_chunks OUT_DIR records) as (chunks & Hwritten & _ & Hrows & _).
  exists chunks. split; [exact Hrows|]. rewrite Hwritten. split.
  - intros k c Hk.
    destruct (files_after_chunk_files OUT_DIR before chunks
                (CsvToSql.chunkFileName OUT_DIR (Z.of_nat k + 1)))
      as [(k' & c' & Hk' & Hname & Hfile)|[Hnone _]].
    + apply chunkFileName_inj in Hname; [|lia|lia].
      assert (k' = k) by lia. subst k'. rewrite Hk in Hk'. injection Hk' as <-. exact Hfile.
    + exfalso. apply (Hnone k); [|reflexivity]. apply lookup_lt_Some in Hk. exact Hk.
  - intros path Hother.
    destruct (files_after_chunk_files OUT_DIR before chunks path)
      as [(k & c & Hk & Hname & _)|[_ Hfile]]; [|exact Hfile].
    exfalso. apply (Hother k); [|exact Hname]. apply lookup_lt_Some in Hk. exact Hk.
Qed.

(** Two records, with a file of an earlier run left in the directory. *)
Example convert_two_records :
  let records := [JObj [("year", JStr "2020"); ("make", JStr "Honda"); ("model", JStr "Civic")];
                  JObj [("year", JStr "n/a"); ("make", JStr "O'Neil"); ("model", JStr "X")]] in
  let before : gmap string string :=
    {[ "/out/vehicle_catalog_part_002.sql" := "old" ]} in
  CsvToSql.written (@CsvToSql.convert ascii_engine "/out" records) =
    [("/out/vehicle_catalog_part_001.sql",
      CsvToSql.create_table ++
      "INSERT INTO vehicle_catalog (year, make, model, trim, engine, transmission) VALUES" ++
      CsvToSql.newline ++
      "(2020, 'Honda', 'Civic', '', '', '')," ++ CsvToSql.newline ++
      "(NULL, 'O''Neil', 'X', '', '', '');" ++ CsvToSql.newline)] /\
  CsvToSql.files_after before
    (CsvToSql.written (@CsvToSql.convert ascii_engine "/out" records))
    !! "/out/vehicle_catalog_part_002.sql" = Some "old".
Proof. cbv zeta. split; [reflexivity|]. vm_compute. reflexivity. Qed.

(** ** generateVehicleCatalog.js: CSV fields *)

Lemma read_quoted_doubled (s rest : string) :
  (forall rest', rest <> String Generate.dquote rest') ->
  read_quoted (Generate.double_dquotes s ++ String Generate.dquote rest) = Some (s, rest).
Proof.
  intros Hrest. induction s as [|c s IH].
  - change (read_quoted (String Generate.dquote rest) = Some (EmptyString, rest)).
    cbn [read_quoted]. rewrite Ascii.eqb_refl.
    destruct rest as [|d rest']; [reflexivity|].
    destruct (Ascii.eqb_spec d Generate.dquote) as [->|_]; [|reflexivity].
    destruct (Hrest rest' eq_refl).
  - cbn [Generate.double_dquotes].
    destruct (Ascii.eqb_spec c Generate.dquote) as [->|Hc].
    + rewrite !append_cons. cbn [read_quoted]. rewrite !Ascii.eqb_refl, IH. reflexivity.
    + rewrite append_cons. cbn [read_quoted].
      destruct (Ascii.eqb_spec c Generate.dquote) as [Heq|_]; [contradiction|].
      rewrite IH. reflexivity.
Qed.

Lemma read_plain_field (s rest : string) :
  Generate.needs_quoting s = false -> field_end rest ->
  read_plain (s ++ rest) = (s, rest).
Proof.
  intros Hs Hrest. induction s as [|c s IH].
  - change (EmptyString ++ rest) with rest. destruct rest as [|d rest']; [reflexivity|].
    cbn [read_plain]. cbn [field_end] in Hrest.
    destruct Hrest as [-> | ->]; reflexivity.
  - cbn [Generate.needs_quoting] in Hs.
    apply orb_false_iff in Hs as [Hc Hs]. apply orb_false_iff in Hc as [Hc Hlf].
    apply orb_false_iff in Hc as [_ Hcomma].
    rewrite append_cons. cbn [read_plain]. rewrite Hcomma, Hlf, (IH Hs). reflexivity.
Qed.

Lemma read_field_escaped (s rest : string) :
  field_end rest ->
  read_field ((if Generate.needs_quoting s
               then String Generate.dquote
                      (Generate.double_dquotes s ++ String Generate.dquote EmptyString)
               else s) ++ rest) = Some (s, rest).
Proof.
  intros Hrest.
  assert (Hnq : forall rest', rest <> String Generate.dquote rest').
  { intros rest' ->. cbn [field_end] in Hrest. destruct Hrest as [Hc|Hc]; discriminate Hc. }
  destruct (Generate.needs_quoting s) eqn:Hs.
  - rewrite append_cons, append_assoc.
    change (String Generate.dquote EmptyString ++ rest) with (String Generate.dquote rest).
    cbn [read_field]. rewrite Ascii.eqb_refl. apply read_quoted_doubled, Hnq.
  - destruct s as [|c s].
    + change (EmptyString ++ rest) with rest. destruct rest as [|d rest']; [reflexivity|].
      cbn [read_field]. cbn [field_end] in Hrest.
      destruct Hrest as [-> | ->]; reflexivity.
    + pose proof Hs as Hc. cbn [Generate.needs_quoting] in Hc.
      apply orb_false_iff in Hc as [Hc _]. apply orb_false_iff in Hc as [Hc _].
      apply orb_false_iff in Hc as [Hc _].
      rewrite append_cons. cbn [read_field]. rewrite Hc.
      rewrite <- append_cons, (read_plain_field _ rest Hs Hrest). reflexivity.
Qed.

Lemma csvEscape_field (v : JValue) (rest : string) :
  field_end rest ->
  read_field (Generate.csvEscape v ++ rest) = Some (text_of v, rest).
Proof.
  intros Hrest.
  assert (Hnull : read_field (EmptyString ++ rest) = Some (EmptyString, rest)).
  { pose proof (read_field_escaped EmptyString rest Hrest) as Hempty.
    cbn [Generate.needs_quoting] in Hempty. exact Hempty. }
  unfold Generate.csvEscape, text_of.
  destruct v; try exact Hnull; apply read_field_escaped, Hrest.
Qed.

(** X19: a field written by [csvEscape] reads back as the text of the value,
    whatever quotes, commas and line feeds the value holds; null and
    undefined read back as the empty text. *)
Theorem csvEscape_reads_back (v : JValue) (rest : string) :
  field_end rest ->
  read_field (Generate.csvEscape v ++ rest) = Some (text_of v, rest).
Proof. apply csvEscape_field. Qed.

Lemma csvEscape_reads_back_witness :
  read_field (Generate.csvEscape (JStr "Town & Country, LX") ++ ",,,") =
    Some ("Town & Country, LX", ",,,").
Proof.
  apply (csvEscape_reads_back (JStr "Town & Country, LX") ",,,").
  left. reflexivity.
Defined.

Lemma join_cons (sep p q : string) (rest : list string) :
  join sep (p :: q :: rest) = p ++ sep ++ join sep (q :: rest).
Proof.
  cbn [join fold_left]. revert p q. induction rest as [|r rest IH]; intros p q.
  - reflexivity.
  - cbn [fold_left]. rewrite (IH (p ++ sep ++ q) r), (IH q r), !append_assoc. reflexivity.
Qed.

Lemma read_fields_last (v : JValue) (rest : string) :
  field_end rest ->
  read_fields 1 (Generate.csvEscape v ++ rest) = Some ([text_of v], rest).
Proof.
  intros Hrest. cbn [read_fields]. rewrite (csvEscape_field v rest Hrest). reflexivity.
Qed.

Lemma read_fields_next (n : nat) (v : JValue) (rest after : string) (fields : list string) :
  read_fields (S n) rest = Some (fields, after) ->
  read_fields (S (S n)) (Generate.csvEscape v ++ "," ++ rest) =
    Some (text_of v :: fields, after).
Proof.
  intros Hrest.
  change (read_fields (S (S n)) (Generate.csvEscape v ++ "," ++ rest))
    with (match read_field (Generate.csvEscape v ++ "," ++ rest) with
          | None => None
          | Some (field, after0) =>
              match after0 with
              | EmptyString => None
              | String c after' =>
                  if Ascii.eqb c Generate.comma
                  then match read_fields (S n) after' with
                       | Some (fields0, rest0) => Some (field :: fields0, rest0)
                       | None => None
                       end
                  else None
              end
          end).
  rewrite (csvEscape_field v ("," ++ rest)); [|left; reflexivity].
  change ("," ++ rest) with (String Generate.comma rest). cbv iota.
  rewrite Ascii.eqb_refl, Hrest. reflexivity.
Qed.

Lemma csv_row_fields (year : Z) (make : JValue) (model more : string) :
  read_fields 6 (Generate.csv_row year make model ++ more) =
    Some ([show_Z year; text_of make; model; EmptyString; EmptyString; EmptyString],
          CsvToSql.newline ++ more).
Proof.
  unfold Generate.csv_row. rewrite !join_cons. cbn [join fold_left].
  rewrite !append_assoc.
  apply (read_fields_next 4 (JInt year)).
  apply (read_fields_next 3 make).
  apply (read_fields_next 2 (JStr model)).
  apply (read_fields_next 1 JNull).
  apply (read_fields_next 0 JNull).
  apply (read_fields_last JNull). right. reflexivity.
Qed.

(** X20: every line [main] writes for a model reads back as six fields: the
    year, the make, the model and three empty ones. *)
Theorem csv_row_reads_back (year : Z) (make : JValue) (model more : string) :
  read_fields 6 (Generate.csv_row year make model ++ more) =
    Some ([show_Z year; text_of make; model; EmptyString; EmptyString; EmptyString],
          CsvToSql.newline ++ more).
Proof. apply csv_row_fields. Qed.

(** ** generateVehicleCatalog.js: retries *)

Lemma getJson_loop_success (attempt : nat -> Outcome JValue) (tries : nat)
    (d : JValue) (k : nat) :
  forall (i left : nat) (slept : list Z),
    (i + left = tries)%nat -> (k < left)%nat ->
    (forall j, (j < k)%nat -> attempt (i + j)%nat = Threw) ->
    attempt (i + k)%nat = Returned d ->
    Generate.getJson_loop attempt (Z.of_nat tries) (Z.of_nat i) left slept =
      (Returned d, (slept ++ pauses i k)%list).
Proof.
  induction k as [|k IH]; intros i left slept Hsum Hk Hfail Hok;
    (destruct left as [|left]; [lia|]); cbn [Generate.getJson_loop]; rewrite Nat2Z.id.
  - rewrite Nat.add_0_r in Hok. rewrite Hok. unfold pauses. cbn [seq map].
    rewrite app_nil_r. reflexivity.
  - pose proof (Hfail 0%nat ltac:(lia)) as Hfirst. rewrite Nat.add_0_r in Hfirst.
    rewrite Hfirst.
    destruct (Z.eqb_spec (Z.of_nat i) (Z.of_nat tries - 1)) as [Hlast|_]; [lia|].
    replace (Z.of_nat i + 1) with (Z.of_nat (S i)) by lia.
    rewrite (IH (S i) left); [| lia | lia | |].
    + unfold pauses. cbn [seq map]. rewrite <- app_assoc. reflexivity.
    + intros j Hj. replace (S i + j)%nat with (i + S j)%nat by lia. apply Hfail. lia.
    + replace (S i + k)%nat with (i + S k)%nat by lia. exact Hok.
Qed.

Lemma getJson_loop_failure (attempt : nat -> Outcome JValue) (tries : nat) :
  forall (i left : nat) (slept : list Z),
    (i + left = tries)%nat -> (0 < left)%nat ->
    (forall j, (j < left)%nat -> attempt (i + j)%nat = Threw) ->
    Generate.getJson_loop attempt (Z.of_nat tries) (Z.of_nat i) left slept =
      (Threw, (slept ++ pauses i (left - 1))%list).
Proof.
  intros i left. revert i. induction left as [|left IH]; intros i slept Hsum Hleft Hfail; [lia|].
  cbn [Generate.getJson_loop]. rewrite Nat2Z.id.
  pose proof (Hfail 0%nat ltac:(lia)) as Hfirst. rewrite Nat.add_0_r in Hfirst.
  rewrite Hfirst.
  destruct (Z.eqb_spec (Z.of_nat i) (Z.of_nat tries - 1)) as [Hlast|Hmore].
  - assert (left = 0)%nat by lia. subst left. unfold pauses. cbn [Nat.sub seq map].
    rewrite app_nil_r. reflexivity.
  - replace (Z.of_nat i + 1) with (Z.of_nat (S i)) by lia.
    rewrite (IH (S i)); [| lia | lia |].
    + destruct left as [|left]; [lia|].
      unfold pauses. cbn [Nat.sub seq map]. rewrite Nat.sub_0_r, <- app_assoc. reflexivity.
    + intros j Hj. replace (S i + j)%nat with (i + S j)%nat by lia. apply Hfail. lia.
Qed.

Lemma getJson_success (attempt : nat -> Outcome JValue) (tries : nat) (d : JValue) (k : nat) :
  (k < tries)%nat ->
  (forall j, (j < k)%nat -> attempt j = Threw) ->
  attempt k = Returned d ->
  Generate.getJson attempt (Z.of_nat tries) = (Returned d, pauses 0 k).
Proof.
  intros Hk Hfail Hok. unfold Generate.getJson. rewrite Nat2Z.id.
  exact (getJson_loop_success attempt tries d k 0 tries [] eq_refl Hk Hfail Hok).
Qed.

(** X21: [getJson] resolves to the first answer that parses, if it comes within
    [tries] requests, and before it has paused 300 ms, 600 ms, ... after the
    failed requests.  What a request after that answer would come to has no
    part in the result. *)
Theorem getJson_first_success (attempt : nat -> Outcome JValue) (tries : nat)
    (d : JValue) (k : nat) :
  (k < tries)%nat ->
  (forall j, (j < k)%nat -> attempt j = Threw) ->
  attempt k = Returned d ->
  Generate.getJson attempt (Z.of_nat tries) = (Returned d, pauses 0 k) /\
  forall later : nat -> Outcome JValue,
    (forall j, (j <= k)%nat -> later j = attempt j) ->
    Generate.getJson later (Z.of_nat tries) = (Returned d, pauses 0 k).
Proof.
  intros Hk Hfail Hok. split; [exact (getJson_success attempt tries d k Hk Hfail Hok)|].
  intros later Hsame. apply getJson_success; [exact Hk| |].
  - intros j Hj. rewrite Hsame by lia. apply Hfail, Hj.
  - rewrite Hsame by lia. exact Hok.
Qed.

(** X22: when [tries] requests in a row fail, [getJson] throws after the last
    one, with a pause after each of the others and none after the last. *)
Theorem getJson_gives_up (attempt : nat -> Outcome JValue) (tries : nat) :
  (0 < tries)%nat ->
  (forall j, (j < tries)%nat -> attempt j = Threw) ->
  Generate.getJson attempt (Z.of_nat tries) = (Threw, pauses 0 (tries - 1)).
Proof.
  intros Htries Hfail. unfold Generate.getJson. rewrite Nat2Z.id.
  exact (getJson_loop_failure attempt tries 0 tries [] eq_refl Htries Hfail).
Qed.

Lemma getJson_first_success_witness :
  let attempt := fun i => match i with
                          | 2%nat => Returned (JObj [("Count", JInt 0)])
                          | _ => Threw
                          end in
  Generate.getJson attempt 3 = (Returned (JObj [("Count", JInt 0)]), [300; 600]) /\
  forall later : nat -> Outcome JValue,
    (forall j, (j <= 2)%nat -> later j = attempt j) ->
    Generate.getJson later 3 = (Returned (JObj [("Count", JInt 0)]), [300; 600]).
Proof.
  apply (getJson_first_success _ 3 (JObj [("Count", JInt 0)]) 2); [lia| |reflexivity].
  intros j Hj. destruct j as [|[|j]]; [reflexivity|reflexivity|lia].
Defined.

Lemma getJson_gives_up_witness :
  Generate.getJson (fun _ => Threw) 3 = (Threw, [300; 600]).
Proof.
  apply (getJson_gives_up (fun _ => Threw) 3); [lia|reflexivity].
Defined.

(** ** generateVehicleCatalog.js: makes and lines *)

(** ** generateVehicleCatalog.js: makes and lines *)

Lemma map_array_member (k : string) (items : list JValue) :
  Forall (fun r => r <> JNull /\ r <> JUndefined) items ->
  Generate.map_array (Generate.member k) items = Returned (map (get k) items).
Proof.
  induction items as [|r items IH]; intros Hitems; cbn [Generate.map_array map];
    [reflexivity|].
  apply Forall_cons in Hitems as [[Hnull Hundef] Hitems].
  rewrite (IH Hitems).
  destruct r; try contradiction; reflexivity.
Qed.

Lemma map_array_member_null (k : string) (items : list JValue) :
  In JNull items \/ In JUndefined items ->
  Generate.map_array (Generate.member k) items = Threw.
Proof.
  induction items as [|r items IH]; intros Hin; cbn [Generate.map_array].
  - destruct Hin as [[]|[]].
  - destruct r; cbn [Generate.member mbind Outcome_bind]; try reflexivity;
      (rewrite IH; [reflexivity|]);
      destruct Hin as [[Hr|Hin]|[Hr|Hin]]; try discriminate Hr; tauto.
Qed.

(** X23: [getAllMakes] gives the truthy [Make_Name]s of the entries, in their
    order; unlike [getModelsForMakeYear] it reads the entries without [?.],
    so a null entry makes it throw, and with it the whole run. *)
Theorem getAllMakes_entries `{Engine} (items : list JValue) :
  (Forall (fun r => r <> JNull /\ r <> JUndefined) items ->
   Generate.getAllMakes (JObj [("Results", JArr items)]) =
     Returned (List.filter truthy (map (get "Make_Name") items))) /\
  (In JNull items \/ In JUndefined items ->
   Generate.getAllMakes (JObj [("Results", JArr items)]) = Threw /\
   forall models_of,
     Generate.main models_of (Returned (JObj [("Results", JArr items)])) =
       ([Generate.header], Threw)).
Proof.
  split.
  - intros Hitems. unfold Generate.getAllMakes.
    change (or_else (opt_get "Results" (JObj [("Results", JArr items)])) (JArr []))
      with (JArr items).
    cbv iota. rewrite (map_array_member _ _ Hitems). reflexivity.
  - intros Hnull.
    assert (Hthrow : Generate.getAllMakes (JObj [("Results", JArr items)]) = Threw).
    { unfold Generate.getAllMakes.
      change (or_else (opt_get "Results" (JObj [("Results", JArr items)])) (JArr []))
        with (JArr items).
      cbv iota. rewrite (map_array_member_null _ _ Hnull). reflexivity. }
    split; [exact Hthrow|]. intros models_of. unfold Generate.main.
    cbn [mbind Outcome_bind]. rewrite Hthrow. reflexivity.
Qed.

Lemma getAllMakes_entries_witness :
  Generate.getAllMakes
    (JObj [("Results", JArr [JObj [("Make_Name", JStr "Honda")]; JObj [];
                             JObj [("Make_Name", JStr "Kia")]])]) =
    Returned [JStr "Honda"; JStr "Kia"].
Proof.
  apply (proj1 (@getAllMakes_entries ascii_engine
                  [JObj [("Make_Name", JStr "Honda")]; JObj [];
                   JObj [("Make_Name", JStr "Kia")]])).
  repeat constructor; discriminate.
Defined.

Lemma years_range (year : Z) :
  In year Generate.years <-> Generate.START_YEAR <= year <= Generate.END_YEAR.
Proof.
  unfold Generate.years, Generate.START_YEAR, Generate.END_YEAR.
  change (Z.to_nat (2025 - 1950 + 1)) with 76%nat.
  rewrite in_map_iff. split.
  - intros (k & <- & Hk). apply in_seq in Hk. lia.
  - intros Hyear. exists (Z.to_nat (2025 - year)). split; [lia|]. apply in_seq. lia.
Qed.

Lemma getAllMakes_truthy (data : JValue) (makes : list JValue) :
  Generate.getAllMakes data = Returned makes -> Forall (fun m => truthy m = true) makes.
Proof.
  unfold Generate.getAllMakes. intros Hrun.
  destruct (or_else _ _); try discriminate Hrun.
  destruct (Generate.map_array _ _) as [|names]; cbn [mbind Outcome_bind] in Hrun;
    [discriminate Hrun|].
  injection Hrun as <-. apply Forall_forall. intros m Hm.
  apply list_elem_of_In, filter_In in Hm as [_ Hm]. exact Hm.
Qed.

Section Lines.
Context `{Engine} (models_of : JValue -> Z -> Outcome JValue).

(** The loop never appends an empty name. *)
Lemma collect_nonempty (results : list JValue) :
  forall (seen : gset string) (models out : list string),
    Ingest.collect results seen models = Returned out ->
    Forall (fun m => m <> EmptyString) models ->
    Forall (fun m => m <> EmptyString) out.
Proof.
  induction results as [|r rest IH]; intros seen models out Hrun Hmodels.
  - cbn [Ingest.collect] in Hrun. injection Hrun as <-. exact Hmodels.
  - cbn [Ingest.collect] in Hrun.
    destruct (Ingest.model_name r) as [|m]; cbn [mbind Outcome_bind] in Hrun;
      [discriminate Hrun|].
    destruct (String.eqb_spec m EmptyString) as [_|Hm]; [exact (IH _ _ _ Hrun Hmodels)|].
    destruct (decide (toLowerCase m ∈ seen)); [exact (IH _ _ _ Hrun Hmodels)|].
    apply (IH _ _ _ Hrun). apply Forall_app. split; [exact Hmodels|].
    constructor; [exact Hm|constructor].
Qed.

Lemma models_found_nonempty (year : Z) (make : JValue) (model : string) :
  In model (models_found models_of year make) -> model <> EmptyString.
Proof.
  unfold models_found. destruct (models_of make year) as [|data]; [intros []|].
  destruct (Ingest.getModelsForMakeYear data) as [|models] eqn:Hrun; [intros []|].
  unfold Ingest.getModelsForMakeYear in Hrun.
  destruct (Ingest.iterate _) as [|results]; cbn [mbind Outcome_bind] in Hrun;
    [discriminate Hrun|].
  pose proof (collect_nonempty results ∅ [] models Hrun (List.Forall_nil _)) as Hne.
  rewrite Forall_forall in Hne. intros Hin. apply Hne, list_elem_of_In, Hin.
Qed.

Lemma rows_for_models_found (year : Z) (make : JValue) :
  Generate.rows_for models_of year make =
    map (Generate.csv_row year make) (models_found models_of year make).
Proof.
  unfold Generate.rows_for, models_found.
  destruct (models_of make year) as [|data]; cbn [mbind Outcome_bind]; [reflexivity|].
  destruct (Ingest.getModelsForMakeYear data); reflexivity.
Qed.

Lemma main_cases (data : JValue) (makes : list JValue) :
  Generate.getAllMakes data = Returned makes ->
  let lines :=
    flat_map (fun year =>
                flat_map (fun make => map (Generate.csv_row year make)
                                          (models_found models_of year make)) makes)
             Generate.years in
  Generate.main models_of (Returned data) =
    (Generate.header :: lines, Returned (Z.of_nat (length lines))).
Proof.
  intros Hmakes. cbv zeta. unfold Generate.main. cbn [mbind Outcome_bind]. rewrite Hmakes.
  assert (Hlines : flat_map (fun year => flat_map (Generate.rows_for models_of year) makes)
                            Generate.years =
                   flat_map (fun year =>
                               flat_map (fun make => map (Generate.csv_row year make)
                                                         (models_found models_of year make))
                                        makes)
                            Generate.years).
  { apply flat_map_ext. intros year. apply flat_map_ext. intros make.
    apply rows_for_models_found. }
  rewrite Hlines. reflexivity.
Qed.

End Lines.

(** X24: when the run reaches its end, the output is the header followed by
    one line per model found, for the years from [END_YEAR] down to
    [START_YEAR] and within a year for the makes in their order, and
    [rowCount] counts those lines.  Every model found for a year of the range
    and a make of the list has its line; each line carries a year of the
    range, a make of the list, which is not empty, and a model found for
    them, which is not empty, and reads back as these three fields followed
    by three empty ones.  A request for models that fails finds no model and
    does not end the run. *)
Theorem main_lines `{Engine} (models_of : JValue -> Z -> Outcome JValue) (data : JValue) :
  forall makes, Generate.getAllMakes data = Returned makes ->
  exists lines,
    Generate.main models_of (Returned data) =
      (Generate.header :: lines, Returned (Z.of_nat (length lines))) /\
    lines =
      flat_map (fun year =>
                  flat_map (fun make => map (Generate.csv_row year make)
                                            (models_found models_of year make)) makes)
               Generate.years /\
    (forall year make model,
        Generate.START_YEAR <= year <= Generate.END_YEAR ->
        In make makes -> In model (models_found models_of year make) ->
        In (Generate.csv_row year make model) lines) /\
    Forall (fun line =>
              exists year make model,
                line = Generate.csv_row year make model /\
                Generate.START_YEAR <= year <= Generate.END_YEAR /\
                In make makes /\ truthy make = true /\
                In model (models_found models_of year make) /\ model <> EmptyString /\
                read_fields 6 line =
                  Some ([show_Z year; text_of make; model;
                         EmptyString; EmptyString; EmptyString], CsvToSql.newline))
           lines.
Proof.
  intros makes Hmakes. eexists. split; [exact (main_cases models_of data makes Hmakes)|].
  split; [reflexivity|]. split.
  - intros year make model Hyear Hmake Hmodel.
    apply in_flat_map. exists year. split; [apply years_range, Hyear|].
    apply in_flat_map. exists make. split; [exact Hmake|].
    apply in_map, Hmodel.
  - apply Forall_forall. intros line Hline.
    apply list_elem_of_In, in_flat_map in Hline as (year & Hyear & Hline).
    apply in_flat_map in Hline as (make & Hmake & Hline).
    apply in_map_iff in Hline as (model & <- & Hmodel).
    exists year, make, model. split; [reflexivity|].
    split; [apply years_range, Hyear|]. split; [exact Hmake|]. split; [|split; [|split]].
    + pose proof (getAllMakes_truthy data makes Hmakes) as Htruthy.
      rewrite Forall_forall in Htruthy. apply Htruthy, list_elem_of_In, Hmake.
    + exact Hmodel.
    + exact (models_found_nonempty models_of year make model Hmodel).
    + pose proof (csv_row_fields year make model EmptyString) as Hback.
      rewrite !append_nil_r in Hback. exact Hback.
Qed.

Lemma main_lines_witness :
  let models_of := fun make year =>
    if (year =? 2024) && String.eqb (String_ make) "Honda"
    then Returned (JObj [("Results", JArr page)]) else Threw in
  let data := JObj [("Results", JArr [JObj [("Make_Name", JStr "Honda")];
                                      JObj [("Make_Name", JStr "Kia")]])] in
  @Generate.main ascii_engine models_of (Returned data) =
    ([Generate.header; Generate.csv_row 2024 (JStr "Honda") "Civic";
      Generate.csv_row 2024 (JStr "Honda") "Accord"], Returned 2) /\
  exists lines,
    @Generate.main ascii_engine models_of (Returned data) =
      (Generate.header :: lines, Returned (Z.of_nat (length lines))) /\
    lines =
      flat_map (fun year =>
                  flat_map (fun make => map (Generate.csv_row year make)
                                            (@models_found ascii_engine models_of year make))
                           [JStr "Honda"; JStr "Kia"])
               Generate.years /\
    (forall year make model,
        Generate.START_YEAR <= year <= Generate.END_YEAR ->
        In make [JStr "Honda"; JStr "Kia"] ->
        In model (@models_found ascii_engine models_of year make) ->
        In (Generate.csv_row year make model) lines) /\
    Forall (fun line =>
              exists year make model,
                line = Generate.csv_row year make model /\
                Generate.START_YEAR <= year <= Generate.END_YEAR /\
                In make [JStr "Honda"; JStr "Kia"] /\ truthy make = true /\
                In model (@models_found ascii_engine models_of year make) /\
                model <> EmptyString /\
                read_fields 6 line =
                  Some ([show_Z year; text_of make; model;
                         EmptyString; EmptyString; EmptyString], CsvToSql.newline))
           lines.
Proof.
  cbv zeta. split; [vm_compute; reflexivity|].
  apply (@main_lines ascii_engine _ _ [JStr "Honda"; JStr "Kia"]). reflexivity.
Defined.

(** A make whose every request fails leaves the lines of the others. *)
Example main_two_models :
  @Generate.main ascii_engine
    (fun make year =>
       if (year =? 2024) && String.eqb (String_ make) "Honda"
       then Returned (JObj [("Results", JArr page)]) else Threw)
    (Returned (JObj [("Results", JArr [JObj [("Make_Name", JStr "Kia")];
                                       JObj [("Make_Name", JStr "Honda")]])])) =
    ([Generate.header; Generate.csv_row 2024 (JStr "Honda") "Civic";
      Generate.csv_row 2024 (JStr "Honda") "Accord"], Returned 2).
Proof. vm_compute. reflexivity. Qed.

(** ** The catalog query: a parameter that ends in a backslash *)

Lemma like_escaped_percent (t : string) :
  like (String backslash "%") t = true <-> t = "%".
Proof.
  destruct t as [|c t]; [split; discriminate|].
  change (like (String backslash "%") (String c t))
    with (Ascii.eqb "%" c && match t with EmptyString => true | String _ _ => false end).
  rewrite andb_true_iff, Ascii.eqb_eq. split.
  - intros [<- Ht]. destruct t; [reflexivity|discriminate Ht].
  - intros [= <- ->]. split; reflexivity.
Qed.

(** X13: the make parameter goes into the pattern as it is, so a backslash at
    its end takes the closing [%] literally.  On ASCII text, with a
    parameter that holds no other wildcard, what matches is then only a make
    that ends, ignoring case, with the rest of the parameter followed by a
    per cent sign. *)
Theorem catalog_make_trailing_backslash `{Engine} `{Collation}
    (s : string) (r : CatalogRow.t) :
  plain s = true -> is_ascii s = true -> ascii_row r ->
  where_ (Server.catalog_conditions JUndefined (JStr (s ++ String backslash EmptyString))
                                    JUndefined) r = true <->
  exists text pre,
    CatalogRow.make r = Some text /\ ascii_lower text = pre ++ ascii_lower s ++ "%".
Proof.
  intros Hplain Hascii [Hmake _]. rewrite where_catalog_conditions.
  change (truthy JUndefined) with false. cbv iota.
  assert (Htruthy : truthy (JStr (s ++ String backslash EmptyString)) = true).
  { cbn [truthy]. destruct s; reflexivity. }
  rewrite Htruthy, andb_true_r. cbn [andb holds String_].
  assert (Hlike : forall text,
             is_ascii text = true ->
             ilike text ("%" ++ (s ++ String backslash EmptyString) ++ "%") = true <->
             exists pre, ascii_lower text = pre ++ ascii_lower s ++ "%").
  { intros text Htext. unfold ilike.
    assert (Hpattern : is_ascii ("%" ++ (s ++ String backslash EmptyString) ++ "%") = true).
    { rewrite !is_ascii_append, Hascii. reflexivity. }
    rewrite Htext, Hpattern. cbn [andb]. unfold ascii_ilike.
    rewrite !ascii_lower_append.
    change (ascii_lower "%") with "%".
    change (ascii_lower (String backslash EmptyString)) with (String backslash EmptyString).
    rewrite append_assoc.
    change ("%" ++ ascii_lower s ++ String backslash EmptyString ++ "%")
      with (String "%" (ascii_lower s ++ String backslash "%")).
    rewrite like_percent. split.
    - intros (pre & rest & Hpre & Hrest).
      apply like_plain_prefix in Hrest as (tail & -> & Htail);
        [|rewrite plain_ascii_lower; exact Hplain].
      apply like_escaped_percent in Htail. subst tail. exists pre. exact Hpre.
    - intros (pre & Hpre). exists pre, (ascii_lower s ++ "%"). split; [exact Hpre|].
      apply like_plain_prefix; [rewrite plain_ascii_lower; exact Hplain|].
      exists "%". split; [reflexivity|]. apply like_escaped_percent. reflexivity. }
  destruct (CatalogRow.make r) as [text|].
  - rewrite (Hlike text (Hmake text eq_refl)). split.
    + intros (pre & Hpre). exists text, pre. split; [reflexivity|exact Hpre].
    + intros (text' & pre & [= <-] & Hpre). exists pre. exact Hpre.
  - split; [discriminate|]. intros (text & pre & Habs & _). discriminate Habs.
Qed.

Lemma catalog_make_trailing_backslash_witness :
  let conditions :=
    @Server.catalog_conditions ascii_engine JUndefined
      (JStr ("100" ++ String backslash EmptyString)) JUndefined in
  let warranty := CatalogRow.mk (Some 2020) (Some "Warranty 100%") None None None None in
  (@where_ byte_order conditions warranty = true /\
   @where_ byte_order conditions
      (CatalogRow.mk (Some 2020) (Some "Warranty 100% off") None None None None) = false /\
   @where_ byte_order conditions
      (CatalogRow.mk (Some 2020) (Some "Warranty 100") None None None None) = false) /\
  (@where_ byte_order conditions warranty = true <->
   exists text pre,
     CatalogRow.make warranty = Some text /\
     ascii_lower text = pre ++ ascii_lower "100" ++ "%").
Proof.
  cbv zeta. split; [repeat split; vm_compute; reflexivity|].
  apply (@catalog_make_trailing_backslash ascii_engine byte_order "100");
    [reflexivity|reflexivity|].
  split; intros text [= <-]; reflexivity.
Defined.

(** ** The minimal revision: create *)

(** X25: the minimal revision checks nothing and sanitizes nothing.  It reads
    the four fields off the body before its [try] block, so a body that is
    undefined or null makes the handler throw, and no answer of its own is
    sent.  On an object it binds the four fields as they were sent, a missing
    one as NULL: when the store takes this row the answer is 201 with
    [{ success: true, vehicle }], where the vehicle is the row now last in
    the table, with the next identifier and NULL for each field that was
    missing; when the store refuses it the answer is 500 and the table is as
    it was. *)
Theorem rev2_post_vehicles_unvalidated `{Schema} (fields : list (string * JValue)) (db : Db) :
  let b := JObj fields in
  let sent := Vehicle.mk (vehicles_id_seq db) (bind (get "year" b)) (bind (get "make" b))
                         (bind (get "model" b)) (bind (get "mileage" b)) in
  ServerRev2.post_vehicles JUndefined db = Threw /\
  ServerRev2.post_vehicles JNull db = Threw /\
  exists answer : Response * Db,
    ServerRev2.post_vehicles b db = Returned answer /\
    (vehicle_accepted sent = true ->
     status (fst answer) = 201 /\
     exists r : Vehicle.t,
       body (fst answer) = JObj [("success", JBool true); ("vehicle", Vehicle.json r)] /\
       Vehicle.id r = vehicles_id_seq db /\
       vehicles (snd answer) = (vehicles db ++ [r])%list /\
       (missing "year" b -> Vehicle.year r = JNull) /\
       (missing "make" b -> Vehicle.make r = JNull) /\
       (missing "model" b -> Vehicle.model r = JNull) /\
       (missing "mileage" b -> Vehicle.mileage r = JNull)) /\
    (vehicle_accepted sent = false ->
     fst answer = mkResponse 500 (error "Failed to save vehicle") /\
     vehicles (snd answer) = vehicles db).
Proof.
  cbv zeta. split; [reflexivity|]. split; [reflexivity|].
  unfold ServerRev2.post_vehicles, insert_vehicle, vehicle_accepted.
  cbn [destructure mbind Outcome_bind Vehicle.id].
  eexists. split; [reflexivity|].
  destruct (vehicle_ok _ && in_int4 _).
  - split; [|discriminate]. intros _.
    cbn [mbind Outcome_bind try_catch fst snd status body rows first_row star vehicles].
    split; [reflexivity|]. eexists. split; [reflexivity|].
    cbn [Vehicle.id Vehicle.year Vehicle.make Vehicle.model Vehicle.mileage].
    split; [reflexivity|]. split; [reflexivity|].
    unfold missing. repeat split; intros ->; reflexivity.
  - split; [discriminate|]. intros _.
    cbn [mbind Outcome_bind try_catch fst snd]. split; reflexivity.
Qed.

Lemma rev2_post_vehicles_unvalidated_witness :
  @ServerRev2.post_vehicles permissive JUndefined empty_db = Threw /\
  @ServerRev2.post_vehicles permissive (JObj [("year", JInt 2020); ("make", JStr "Honda")])
     empty_db =
    Returned
      (mkResponse 201
         (JObj [("success", JBool true);
                ("vehicle", Vehicle.json (Vehicle.mk 1 (JInt 2020) (JStr "Honda") JNull JNull))]),
       mkDb [Vehicle.mk 1 (JInt 2020) (JStr "Honda") JNull JNull] 2 [] 1 []) /\
  @ServerRev2.post_vehicles permissive JNull empty_db = Threw /\
  exists answer : Response * Db,
    @ServerRev2.post_vehicles permissive (JObj [("year", JInt 2020); ("make", JStr "Honda")])
       empty_db = Returned answer.
Proof.
  split; [reflexivity|]. split; [reflexivity|].
  destruct (@rev2_post_vehicles_unvalidated permissive
              [("year", JInt 2020); ("make", JStr "Honda")] empty_db)
    as (_ & Hnull & answer & Hanswer & _).
  split; [exact Hnull|]. exists answer. exact Hanswer.
Defined.

